(** * Fashion Flux: helper transforms of [style_transfer/utils.py] and the
      remote calls of [gradio_fronend.py]

    A shallow embedding of the tensor, mask and image helpers and of the two
    HTTP front-end callbacks, with the properties the specification states
    about them.

    Conventions.
    - Python exceptions are values of [py_error]; a function that may raise
      returns an [outcome].
    - Python [int] is [Z]; [//] is floor division ([Z.div]).
    - Floating-point numbers are idealised: as [Q] where only [+ - * /] and
      comparisons occur, as [R] where [sqrt] and [**] occur.  Rounding is not
      modelled; every concrete value used below is exactly representable in
      binary floating point.
    - Third-party code (PIL resampling, the UNet, the VAE, the HTTP endpoint)
      is a [Variable] of the section that uses it. *)

From Stdlib Require Import ZArith QArith Qround Reals Lra Lia.
From Stdlib Require Lqa.
From Stdlib Require Import String Ascii DecimalString.
From stdpp Require Import base option list gmap.

Local Open Scope Z_scope.

(** ** Exceptions and results *)

Inductive py_error : Type :=
| NotImplementedError (msg : string)
| ValueError (msg : string)
| RuntimeError (msg : string)
| IndexError
| ZeroDivisionError
| TypeError
| AttributeError
| KeyError (key : string).

Inductive outcome (A : Type) : Type :=
| Ok (a : A)
| Raise (e : py_error).
Arguments Ok {A} a.
Arguments Raise {A} e.

#[global] Instance outcome_ret : MRet outcome := fun A a => Ok a.
#[global] Instance outcome_bind : MBind outcome := fun A B k r =>
  match r with
  | Ok a => k a
  | Raise e => Raise e
  end.
#[global] Instance outcome_fmap : FMap outcome := fun A B f r =>
  match r with
  | Ok a => Ok (f a)
  | Raise e => Raise e
  end.

Definition is_ok {A} (r : outcome A) : bool :=
  match r with Ok _ => true | Raise _ => false end.

(** Python's [a / b] on integers (true division); the quotient is kept exact. *)
Definition true_div (a b : Z) : outcome Q :=
  if b =? 0 then Raise ZeroDivisionError else Ok (inject_Z a / inject_Z b)%Q.

(** Python's [a // b] on integers. *)
Definition floor_div (a b : Z) : outcome Z :=
  if b =? 0 then Raise ZeroDivisionError else Ok (a / b).

Definition Qltb (x y : Q) : bool := negb (Qle_bool y x).


(** ** N-dimensional arrays (numpy [ndarray], torch [Tensor] values)

    An array is its shape and its element function on multi-indices; only the
    values at indices inside the shape are meaningful.  The element type
    plays the role of the dtype. *)
Module Nd.

Record ndarray (A : Type) : Type := Array { shape : list nat; get : list nat -> A }.
Arguments Array {A} shape get.
Arguments shape {A} _.
Arguments get {A} _ _.

Definition ndim {A} (a : ndarray A) : nat := length (shape a).

Fixpoint in_bounds (s ix : list nat) : bool :=
  match s, ix with
  | [], [] => true
  | d :: s, i :: ix => (i <? d)%nat && in_bounds s ix
  | _, _ => false
  end.

(** All multi-indices of a shape, in row-major order. *)
Fixpoint indices (s : list nat) : list (list nat) :=
  match s with
  | [] => [[]]
  | d :: s => i ← seq 0 d; (i ::.) <$> indices s
  end.

(** The elements in row-major order ([a.flatten()], the contiguous buffer). *)
Definition flatten {A} (a : ndarray A) : list A := get a <$> indices (shape a).

(** Elementwise unary operation, also a dtype cast. *)
Definition map {A B} (f : A -> B) (a : ndarray A) : ndarray B :=
  Array (shape a) (fun ix => f (get a ix)).

(** Broadcasting: shapes are aligned at their last axis; two sizes are
    compatible when they are equal or one of them is 1. *)
Definition bdim (d1 d2 : nat) : option nat :=
  if decide (d1 = d2) then Some d1
  else if decide (d1 = 1%nat) then Some d2
  else if decide (d2 = 1%nat) then Some d1
  else None.

Fixpoint bshape_rev (r1 r2 : list nat) : option (list nat) :=
  match r1, r2 with
  | [], r => Some r
  | r, [] => Some r
  | d1 :: r1, d2 :: r2 =>
      d ← bdim d1 d2; r ← bshape_rev r1 r2; Some (d :: r)
  end.

Definition broadcast_shapes (s1 s2 : list nat) : option (list nat) :=
  reverse <$> bshape_rev (reverse s1) (reverse s2).

(** The index into an operand of shape [s] for index [ix] of the result. *)
Definition clamp (d i : nat) : nat := if decide (d = 1%nat) then 0%nat else i.
Arguments clamp : simpl never.

Definition bindex (s ix : list nat) : list nat :=
  zip_with clamp s (drop (length ix - length s) ix).

(** Elementwise binary operation; [err] is what the library raises when the
    shapes are incompatible (numpy: ValueError, torch: RuntimeError). *)
Definition map2 {A B C} (err : py_error) (f : A -> B -> C)
    (a : ndarray A) (b : ndarray B) : outcome (ndarray C) :=
  match broadcast_shapes (shape a) (shape b) with
  | Some s =>
      Ok (Array s (fun ix => f (get a (bindex (shape a) ix))
                               (get b (bindex (shape b) ix))))
  | None => Raise err
  end.

(** In-place binary operation [a.op_(b)]: only [b] may be broadcast. *)
Definition map2_ {A B} (err : py_error) (f : A -> B -> A)
    (a : ndarray A) (b : ndarray B) : outcome (ndarray A) :=
  match broadcast_shapes (shape a) (shape b) with
  | Some s =>
      if decide (s = shape a)
      then Ok (Array s (fun ix => f (get a ix) (get b (bindex (shape b) ix))))
      else Raise err
  | None => Raise err
  end.

(** [a.unsqueeze(k)], [np.expand_dims(a, k)]: a new axis of size 1 at [k],
    for [k] at most the number of axes. *)
Definition unsqueeze {A} (k : nat) (a : ndarray A) : ndarray A :=
  Array (take k (shape a) ++ 1%nat :: drop k (shape a))
        (fun ix => get a (take k ix ++ drop (S k) ix)).

(** [a[:, :k]] *)
Definition slice1_to {A} (k : nat) (a : ndarray A) : outcome (ndarray A) :=
  match shape a with
  | n :: c :: s => Ok (Array (n :: Nat.min k c :: s) (get a))
  | _ => Raise IndexError
  end.

(** [a[:, k:]] *)
Definition slice1_from {A} (k : nat) (a : ndarray A) : outcome (ndarray A) :=
  match shape a with
  | n :: c :: s =>
      Ok (Array (n :: (c - k)%nat :: s)
                (fun ix => match ix with
                           | i :: ch :: r => get a (i :: (ch + k)%nat :: r)
                           | _ => get a ix
                           end))
  | _ => Raise IndexError
  end.

(** [torch.cat([a, b], dim=1)] *)
Definition cat1 {A} (a b : ndarray A) : outcome (ndarray A) :=
  match shape a, shape b with
  | n1 :: c1 :: s1, n2 :: c2 :: s2 =>
      if decide (n1 = n2 /\ s1 = s2)
      then Ok (Array (n1 :: (c1 + c2)%nat :: s1)
                     (fun ix => match ix with
                                | i :: ch :: r =>
                                    if (ch <? c1)%nat then get a ix
                                    else get b (i :: (ch - c1)%nat :: r)
                                | _ => get a ix
                                end))
      else Raise (RuntimeError "Sizes of tensors must match except in dimension 1")
  | _, _ => Raise IndexError
  end.

(** [np.concatenate(arrs, axis=0)] *)
Fixpoint cat0_get {A} (a : ndarray A) (rest : list (ndarray A))
    (i : nat) (ix : list nat) : A :=
  match rest with
  | [] => get a (i :: ix)
  | b :: rest' =>
      let d := hd 0%nat (shape a) in
      if (i <? d)%nat then get a (i :: ix) else cat0_get b rest' (i - d)%nat ix
  end.

Definition concatenate0 {A} (arrs : list (ndarray A)) : outcome (ndarray A) :=
  match arrs with
  | [] => Raise (ValueError "need at least one array to concatenate")
  | a :: rest =>
      match shape a with
      | [] => Raise (ValueError "zero-dimensional arrays cannot be concatenated")
      | _ :: s =>
          if forallb (fun b => bool_decide (tail (shape b) = s /\ shape b <> [])) rest
          then Ok (Array (sum_list (hd 0%nat ∘ shape <$> arrs) :: s)
                         (fun ix => match ix with
                                    | i :: r => cat0_get a rest i r
                                    | [] => get a []
                                    end))
          else Raise (ValueError "all the input array dimensions except for the concatenation axis must match exactly")
      end
  end.

(** [a.transpose(axes)]: axis [j] of the result is axis [axes[j]] of [a]. *)
Definition index_of (k : nat) (axes : list nat) : nat :=
  default 0%nat (fst <$> list_find (fun x => x = k) axes).

Definition transpose {A} (axes : list nat) (a : ndarray A) : outcome (ndarray A) :=
  if bool_decide (Permutation axes (seq 0 (ndim a)))
  then Ok (Array ((fun k => nth k (shape a) 0%nat) <$> axes)
                 (fun ix => get a ((fun k => nth (index_of k axes) ix 0%nat)
                                     <$> seq 0 (ndim a))))
  else Raise (ValueError "axes don't match array").

(** Python index normalisation: negative indices count from the end. *)
Definition norm_index (len : nat) (i : Z) : option nat :=
  if (0 <=? i) && (i <? Z.of_nat len) then Some (Z.to_nat i)
  else if (- Z.of_nat len <=? i) && (i <? 0) then Some (Z.to_nat (i + Z.of_nat len))
  else None.

(** [v[idx, None, None, None]] for a one-dimensional [v] and an integer
    tensor [idx]. *)
Definition gather3 {A} (dflt : A) (v : list A) (idx : ndarray Z) : outcome (ndarray A) :=
  if forallb (fun ix => bool_decide (is_Some (norm_index (length v) (get idx ix))))
             (indices (shape idx))
  then Ok (Array (shape idx ++ [1; 1; 1]%nat)
                 (fun ix =>
                    match norm_index (length v) (get idx (take (ndim idx) ix)) with
                    | Some i => nth i v dflt
                    | None => dflt
                    end))
  else Raise IndexError.

End Nd.

(** ** PIL images

    An image is its mode, its size and its pixel function; coordinates are
    [(x, y)] with [x] the column.  A pixel is a triple of bands; an image of
    mode [L] uses the first band only. *)
Module PIL.

Inductive image_mode : Type := L | RGB.

#[global] Instance image_mode_eq_dec : EqDecision image_mode.
Proof. solve_decision. Defined.

Definition pixel : Type := Z * Z * Z.

Record image : Type := Image {
  mode : image_mode;
  width : Z;
  height : Z;
  getpixel : Z -> Z -> pixel
}.

Definition white : pixel := (255, 255, 255).
Definition black : pixel := (0, 0, 0).

Definition band (c : nat) (p : pixel) : Z :=
  let '(r, g, b) := p in
  match c with 0%nat => r | 1%nat => g | _ => b end.

(** ITU-R 601-2 luma transform of [convert("L")]. *)
Definition luma (p : pixel) : Z :=
  let '(r, g, b) := p in
  Z.shiftr (r * 19595 + g * 38470 + b * 7471 + 32768) 16.

(** [im.convert(m)] *)
Definition convert (m : image_mode) (im : image) : image :=
  match mode im, m with
  | L, RGB => Image RGB (width im) (height im)
                    (fun x y => let g := band 0 (getpixel im x y) in (g, g, g))
  | RGB, L => Image L (width im) (height im)
                    (fun x y => (luma (getpixel im x y), 0, 0))
  | _, _ => im
  end.

(** [Image.new(m, size, color)] *)
Definition new (m : image_mode) (size : Z * Z) (color : pixel) : outcome image :=
  let '(w, h) := size in
  if (w <? 0) || (h <? 0) then Raise (ValueError "Width and height must be >= 0")
  else Ok (Image m w h (fun _ _ => color)).

(** [im.crop((x0, y0, x1, y1))] with the box given as left, upper, right,
    lower; outside of [im] the crop is black. *)
Definition crop (im : image) (box : Z * Z * Z * Z) : outcome image :=
  let '(x0, y0, x1, y1) := box in
  if x1 <? x0 then Raise (ValueError "Coordinate 'right' is less than 'left'")
  else if y1 <? y0 then Raise (ValueError "Coordinate 'lower' is less than 'upper'")
  else Ok (Image (mode im) (x1 - x0) (y1 - y0)
                 (fun x y =>
                    let sx := x + x0 in
                    let sy := y + y0 in
                    if (0 <=? sx) && (sx <? width im) && (0 <=? sy) && (sy <? height im)
                    then getpixel im sx sy else black)).

(** [canvas.paste(im, (ox, oy))] *)
Definition paste (canvas im : image) (pos : Z * Z) : image :=
  let '(ox, oy) := pos in
  Image (mode canvas) (width canvas) (height canvas)
        (fun x y =>
           if (ox <=? x) && (x <? ox + width im) && (oy <=? y) && (y <? oy + height im)
           then getpixel (convert (mode canvas) im) (x - ox) (y - oy)
           else getpixel canvas x y).

(** [np.array(im)]: height x width for mode [L], height x width x 3 for [RGB]. *)
Definition to_array (im : image) : Nd.ndarray Z :=
  let h := Z.to_nat (height im) in
  let w := Z.to_nat (width im) in
  match mode im with
  | L => Nd.Array [h; w]
           (fun ix => match ix with
                      | [y; x] => band 0 (getpixel im (Z.of_nat x) (Z.of_nat y))
                      | _ => 0
                      end)
  | RGB => Nd.Array [h; w; 3%nat]
             (fun ix => match ix with
                        | [y; x; c] => band c (getpixel im (Z.of_nat x) (Z.of_nat y))
                        | _ => 0
                        end)
  end.

(** [Image.fromarray(a)] for an array of 8-bit values, in the two modes
    modelled. *)
Definition fromarray (a : Nd.ndarray Z) : outcome image :=
  match Nd.shape a with
  | [h; w] =>
      Ok (Image L (Z.of_nat w) (Z.of_nat h)
                (fun x y => (Nd.get a [Z.to_nat y; Z.to_nat x], 0, 0)))
  | [h; w; 3%nat] =>
      Ok (Image RGB (Z.of_nat w) (Z.of_nat h)
                (fun x y => let v c := Nd.get a [Z.to_nat y; Z.to_nat x; c] in
                            (v 0%nat, v 1%nat, v 2%nat)))
  | _ => Raise TypeError
  end.

Section Resampling.
(** The resampling filter ([Image.LANCZOS]): [resample im w h x y] is the
    pixel at [(x, y)] of [im] resampled to [w] by [h]. *)
Variable resample : image -> Z -> Z -> Z -> Z -> pixel.

(** [im.resize(size, resample)]: a copy when the size is the size of [im],
    an error when a requested side is below 1. *)
Definition resize (im : image) (size : Z * Z) : outcome image :=
  let '(w, h) := size in
  if (w =? width im) && (h =? height im) then Ok im
  else if (w <? 1) || (h <? 1) then Raise (ValueError "height and width must be > 0")
  else Ok (Image (mode im) w h (resample im w h)).
End Resampling.

End PIL.

(** ** Geometric resizing: [resize_and_crop], [resize_and_padding] *)
Module Geometry.
Import PIL.

Section Resampling.
Variable resample : image -> Z -> Z -> Z -> Z -> pixel.

Definition resize_and_crop (image : PIL.image) (size : Z * Z) : outcome PIL.image :=
  let w := width image in
  let h := height image in
  let '(target_w, target_h) := size in
  r ← true_div w h;
  target_r ← true_div target_w target_h;
  '(new_w, new_h) ←
    (if Qltb r target_r
     then new_h ← floor_div (w * target_h) target_w; mret (w, new_h)
     else new_w ← floor_div (h * target_w) target_h; mret (new_w, h));
  image ← crop image ((w - new_w) / 2, (h - new_h) / 2,
                      (w + new_w) / 2, (h + new_h) / 2);
  resize resample image size.

Definition resize_and_padding (image : PIL.image) (size : Z * Z) : outcome PIL.image :=
  let w := width image in
  let h := height image in
  let '(target_w, target_h) := size in
  r ← true_div w h;
  target_r ← true_div target_w target_h;
  '(new_w, new_h) ←
    (if Qltb r target_r
     then new_w ← floor_div (w * target_h) h; mret (new_w, target_h)
     else new_h ← floor_div (h * target_w) w; mret (target_w, new_h));
  image ← resize resample image (new_w, new_h);
  padding ← new RGB size white;
  mret (paste padding image ((target_w - new_w) / 2, (target_h - new_h) / 2)).
End Resampling.

(** *** Vocabulary of the statements, and sample inputs *)

(** A nearest-neighbour filter and a 4 x 2 image, to run the functions on. *)
Definition nearest (im : image) (w h x y : Z) : pixel :=
  getpixel im (x * width im / w) (y * height im / h).

Definition sample_image : image := Image RGB 4 2 (fun x y => (x, y, 7)).

(** A strip of 10 x 700 pixels. *)
Definition thin_strip : image := Image RGB 10 700 (fun _ _ => black).

End Geometry.

(** ** Paste-back compositing: [repaint_result] *)
Module Repaint.
Import PIL.

(** [x.astype(np.uint8)] on a float: truncation toward zero, then the low
    eight bits. *)
Definition astype_uint8 (x : Q) : Z := Z.quot (Qnum x) (Zpos (Qden x)) mod 256.

Definition broadcast_error : py_error :=
  ValueError "operands could not be broadcast together".

(** The blend, which the code computes in float64, is written in exact
    rationals.  The two agree where the products and the sum are exact, as
    for masks of 0 and 255, where the properties below are stated; for other
    mask values the byte after the truncating cast can differ by one. *)
Definition repaint_result (result person_image mask_image : image) : outcome image :=
  let result := to_array result in
  let person := to_array person_image in
  let mask := to_array mask_image in
  (* expand the mask to 3 channels & to 0~1 *)
  let mask := Nd.unsqueeze 2 mask in
  let mask := Nd.map (fun m => inject_Z m / 255)%Q mask in
  (* mask for result, ~mask for person *)
  a ← Nd.map2 broadcast_error (fun r m => inject_Z r * m)%Q result mask;
  b ← Nd.map2 broadcast_error (fun p m => inject_Z p * m)%Q
              person (Nd.map (fun m => 1 - m)%Q mask);
  result_ ← Nd.map2 broadcast_error Qplus a b;
  fromarray (Nd.map astype_uint8 result_).

(** *** Vocabulary of the statements, and sample inputs *)

(** Every band of every pixel of the image is an 8-bit value. *)
Definition eight_bit (im : image) : Prop :=
  forall x y c, 0 <= x < width im -> 0 <= y < height im ->
    0 <= band c (getpixel im x y) < 256.

Definition sample_result : image := Image RGB 2 1 (fun x _ => (10 + x, 20, 255)).

Definition sample_person : image := Image RGB 2 1 (fun x _ => (0, 100 + x, 200)).

Definition full_mask : image := Image L 2 1 (fun _ _ => (255, 0, 0)).

Definition empty_mask : image := Image L 2 1 (fun _ _ => (0, 0, 0)).

End Repaint.

(** ** Image normalisation: [prepare_image] *)
Module PrepareImage.

(** What a list argument may hold. *)
Inductive item : Type :=
| ItemPIL (im : PIL.image)
| ItemArray (a : Nd.ndarray Q).

(** The argument: a tensor, a PIL image, an array, or a list. *)
Inductive arg : Type :=
| Tensor (t : Nd.ndarray Q)
| PILImage (im : PIL.image)
| NdArray (a : Nd.ndarray Q)
| PyList (l : list item).

(** [x[None, :]] on an array. *)
Definition newaxis (a : Nd.ndarray Q) : outcome (Nd.ndarray Q) :=
  if decide (Nd.ndim a = 0%nat) then Raise IndexError else Ok (Nd.unsqueeze 0 a).

Definition prepare_image (image : arg) : outcome (Nd.ndarray Q) :=
  match image with
  | Tensor image =>
      (* Batch single image *)
      let image := if decide (Nd.ndim image = 3%nat) then Nd.unsqueeze 0 image else image in
      Ok image
  | _ =>
      (* preprocess image *)
      let image :=
        match image with
        | PILImage im => [ItemPIL im]
        | NdArray a => [ItemArray a]
        | PyList l => l
        | Tensor _ => []
        end in
      image ←
        match image with
        | [] => Raise IndexError
        | ItemPIL _ :: _ =>
            image ← mapM (fun i =>
                            match i with
                            | ItemPIL i =>
                                newaxis (Nd.map inject_Z (PIL.to_array (PIL.convert PIL.RGB i)))
                            | ItemArray _ => Raise AttributeError
                            end) image;
            Nd.concatenate0 image
        | ItemArray _ :: _ =>
            image ← mapM (fun i =>
                            match i with
                            | ItemArray i => newaxis i
                            | ItemPIL _ => Raise TypeError
                            end) image;
            Nd.concatenate0 image
        end;
      image ← Nd.transpose [0; 3; 1; 2]%nat image;
      Ok (Nd.map (fun v => v / (255 # 2) - 1)%Q image)
  end.

(** *** Vocabulary of the statements, and sample inputs *)

(** The channel-last array a list item stands for. *)
Definition raster (i : item) : Nd.ndarray Q :=
  match i with
  | ItemPIL im => Nd.map inject_Z (PIL.to_array (PIL.convert PIL.RGB im))
  | ItemArray a => a
  end.

Definition is_pil (i : item) : Prop :=
  match i with ItemPIL _ => True | ItemArray _ => False end.

Definition is_array (i : item) : Prop :=
  match i with ItemPIL _ => False | ItemArray _ => True end.

(** No mixed types: all PIL images, or all arrays. *)
Definition same_kind (l : list item) : Prop := Forall is_pil l \/ Forall is_array l.

(** Stacking the items of a list that does not mix types. *)
Definition stack (l : list item) : outcome (Nd.ndarray Q) :=
  match l with
  | [] => Raise IndexError
  | ItemPIL _ :: _ =>
      image ← mapM (fun i =>
                      match i with
                      | ItemPIL i =>
                          newaxis (Nd.map inject_Z (PIL.to_array (PIL.convert PIL.RGB i)))
                      | ItemArray _ => Raise AttributeError
                      end) l;
      Nd.concatenate0 image
  | ItemArray _ :: _ =>
      image ← mapM (fun i =>
                      match i with
                      | ItemArray i => newaxis i
                      | ItemPIL _ => Raise TypeError
                      end) l;
      Nd.concatenate0 image
  end.

(** A 1 x 1 x 1 tensor holding the pixel value 255. *)
Definition white_tensor : Nd.ndarray Q := Nd.Array [1; 1; 1]%nat (fun _ => 255%Q).

(** Two 1 x 2 RGB images. *)
Definition first_image : PIL.image := PIL.Image PIL.RGB 2 1 (fun x _ => (0, 255 * x, 51)).

Definition second_image : PIL.image := PIL.Image PIL.RGB 2 1 (fun x _ => (255, 102, 0)).

End PrepareImage.

(** ** Mask normalisation: [prepare_mask_image]

    A torch tensor is a view (a shape) on a storage buffer that lives in a
    store shared with the caller; the views modelled here cover their whole
    storage.  Indexed assignment writes into the storage. *)
Module PrepareMask.

Definition loc : Type := positive.

Record tensor : Type := TensorView { storage : loc; shape : list nat }.

Definition ndim (t : tensor) : nat := length (shape t).

(** [t.unsqueeze(k)]: a new view on the same storage. *)
Definition unsqueeze (k : nat) (t : tensor) : tensor :=
  TensorView (storage t) (take k (shape t) ++ 1%nat :: drop k (shape t)).

Definition half : Q := 1 # 2.

(** The value written by [m[m < 0.5] = 0] at an element holding [v]. *)
Definition below_to_0 (v : Q) : Q := if Qltb v half then 0%Q else v.

(** The value written by [m[m >= 0.5] = 1] at an element holding [v]. *)
Definition above_to_1 (v : Q) : Q := if Qle_bool half v then 1%Q else v.

(** [t[t < 0.5] = 0] and [t[t >= 0.5] = 1] on a tensor: in place. *)
Definition assign_below (t : tensor) (st : gmap loc (list Q)) : gmap loc (list Q) :=
  alter (fmap below_to_0) (storage t) st.

Definition assign_above (t : tensor) (st : gmap loc (list Q)) : gmap loc (list Q) :=
  alter (fmap above_to_1) (storage t) st.

Inductive item : Type :=
| ItemPIL (im : PIL.image)
| ItemArray (a : Nd.ndarray Q).

Inductive arg : Type :=
| Tensor (t : tensor)
| PILImage (im : PIL.image)
| NdArray (a : Nd.ndarray Q)
| PyList (l : list item).

(** [m[None, None, :]] on an array. *)
Definition newaxis2 (a : Nd.ndarray Q) : outcome (Nd.ndarray Q) :=
  if decide (Nd.ndim a = 0%nat) then Raise IndexError
  else Ok (Nd.unsqueeze 0 (Nd.unsqueeze 0 a)).

(** The array built from a PIL image, an array or a list, before it is
    binarized. *)
Definition stack_masks (mask_image : list item) : outcome (Nd.ndarray Q) :=
  match mask_image with
  | [] => Raise IndexError
  | ItemPIL _ :: _ =>
      mask_image ← mapM (fun m =>
                           match m with
                           | ItemPIL m =>
                               newaxis2 (Nd.map inject_Z (PIL.to_array (PIL.convert PIL.L m)))
                           | ItemArray _ => Raise AttributeError
                           end) mask_image;
      mask_image ← Nd.concatenate0 mask_image;
      Ok (Nd.map (fun v => v / 255)%Q mask_image)
  | ItemArray _ :: _ =>
      mask_image ← mapM (fun m =>
                           match m with
                           | ItemArray m => newaxis2 m
                           | ItemPIL _ => Raise TypeError
                           end) mask_image;
      Nd.concatenate0 mask_image
  end.

(** [torch.from_numpy(a)]: a tensor on the buffer of [a], which is new to the
    store. *)
Definition from_numpy (a : Nd.ndarray Q) (st : gmap loc (list Q))
    : tensor * gmap loc (list Q) :=
  let l := fresh (dom st) in
  (TensorView l (Nd.shape a), <[l := Nd.flatten a]> st).

Definition prepare_mask_image (mask_image : arg) (st : gmap loc (list Q))
    : outcome tensor * gmap loc (list Q) :=
  match mask_image with
  | Tensor mask_image =>
      let mask_image :=
        match shape mask_image with
        | [_; _] =>
            (* Batch and add channel dim for single mask *)
            unsqueeze 0 (unsqueeze 0 mask_image)
        | [1%nat; _; _] =>
            (* Single mask, the 0'th dimension is considered to be
               the existing batch size of 1 *)
            unsqueeze 0 mask_image
        | [_; _; _] =>
            (* Batch of mask, the 0'th dimension is considered to be
               the batching dimension *)
            unsqueeze 1 mask_image
        | _ => mask_image
        end in
      (* Binarize mask *)
      let st := assign_below mask_image st in
      let st := assign_above mask_image st in
      (Ok mask_image, st)
  | _ =>
      (* preprocess mask *)
      let items :=
        match mask_image with
        | PILImage im => [ItemPIL im]
        | NdArray a => [ItemArray a]
        | PyList l => l
        | Tensor _ => []
        end in
      match stack_masks items with
      | Raise e => (Raise e, st)
      | Ok mask_image =>
          let mask_image := Nd.map below_to_0 mask_image in
          let mask_image := Nd.map above_to_1 mask_image in
          let '(mask_image, st) := from_numpy mask_image st in
          (Ok mask_image, st)
      end
  end.

(** *** Vocabulary of the statements, and sample inputs *)

(** The binarization rule: below the threshold 0.5 gives 0, at or above it
    gives 1. *)
Definition binarize (v : Q) : Q := if Qltb v half then 0%Q else 1%Q.

Definition binary (v : Q) : Prop := v = 0%Q \/ v = 1%Q.

(** What [prepare_mask_image] reads before it binarizes. *)
Definition items_of (mask_image : arg) : list item :=
  match mask_image with
  | PILImage im => [ItemPIL im]
  | NdArray a => [ItemArray a]
  | PyList l => l
  | Tensor _ => []
  end.

(** A 2 x 1 grey image with the pixels 127 and 128, on both sides of the
    threshold. *)
Definition gray_mask : PIL.image := PIL.Image PIL.L 2 1 (fun x _ => (127 + x, 0, 0)).

Definition caller_store : gmap loc (list Q) :=
  {[ 5%positive := [0; 3 # 10; 1 # 2; 200]%Q ]}.

End PrepareMask.

(** ** DREAM rectification: [compute_dream_and_update_latents_for_inpaint]

    Tensor elements are real numbers. *)
Module Dream.

Local Open Scope R_scope.

Record scheduler : Type := Scheduler {
  alphas_cumprod : list R;
  prediction_type : string
}.

(** [x ** p] for a base [x >= 0] (and [p >= 0] at [x = 0]), where torch's
    result is finite. *)
Definition rpow (x p : R) : R :=
  if Req_dec_T x 0 then (if Req_dec_T p 0 then 1 else 0) else Rpower x p.

Definition shape_error : py_error :=
  RuntimeError "The size of tensor a must match the size of tensor b".

Section Unet.
(** The text embeddings, and the forward pass of the UNet: its [.sample]. *)
Variable hidden_states : Type.
Variable unet : Nd.ndarray R -> Nd.ndarray Z -> hidden_states -> outcome (Nd.ndarray R).

Definition compute_dream_and_update_latents_for_inpaint
    (noise_scheduler : scheduler)
    (timesteps : Nd.ndarray Z)
    (noise noisy_latents target : Nd.ndarray R)
    (encoder_hidden_states : hidden_states)
    (dream_detail_preservation : R)
    : outcome (Nd.ndarray R * Nd.ndarray R) :=
  alphas_cumprod ← Nd.gather3 0 (alphas_cumprod noise_scheduler) timesteps;
  let sqrt_one_minus_alphas_cumprod := Nd.map (fun a => sqrt (1 - a)) alphas_cumprod in
  (* The paper uses lambda = sqrt(1 - alpha) ** p, with p = 1 in their experiments. *)
  let dream_lambda :=
    Nd.map (fun s => rpow s dream_detail_preservation) sqrt_one_minus_alphas_cumprod in
  pred ← unet noisy_latents timesteps encoder_hidden_states;
  noisy_latents_no_condition ← Nd.slice1_to 4 noisy_latents;
  '(_noisy_latents, _target) ←
    (if decide (prediction_type noise_scheduler = "epsilon"%string) then
       let predicted_noise := pred in
       delta_noise ← Nd.map2 shape_error Rminus noise predicted_noise;
       delta_noise ← Nd.map2_ shape_error Rmult delta_noise dream_lambda;
       scaled ← Nd.map2 shape_error Rmult sqrt_one_minus_alphas_cumprod delta_noise;
       _noisy_latents ← Nd.map2 shape_error Rplus noisy_latents_no_condition scaled;
       _target ← Nd.map2 shape_error Rplus target delta_noise;
       mret (_noisy_latents, _target)
     else if decide (prediction_type noise_scheduler = "v_prediction"%string) then
       Raise (NotImplementedError "DREAM has not been implemented for v-prediction")
     else
       Raise (ValueError ("Unknown prediction type " ++ prediction_type noise_scheduler)));
  conditioning ← Nd.slice1_from 4 noisy_latents;
  _noisy_latents ← Nd.cat1 _noisy_latents conditioning;
  mret (_noisy_latents, _target).
End Unet.

(** *** Vocabulary of the statements, and sample inputs *)

(** The cumulative alpha of batch element [n]. *)
Definition alpha_at (noise_scheduler : scheduler) (timesteps : Nd.ndarray Z) (n : nat) : R :=
  match Nd.norm_index (length (alphas_cumprod noise_scheduler)) (Nd.get timesteps [n]) with
  | Some i => nth i (alphas_cumprod noise_scheduler) 0
  | None => 0
  end.

(** Every timestep of the batch indexes the schedule. *)
Definition timesteps_in_range (noise_scheduler : scheduler) (timesteps : Nd.ndarray Z)
    (b : nat) : Prop :=
  Nd.shape timesteps = [b] /\
  forall n, (n < b)%nat ->
    is_Some (Nd.norm_index (length (alphas_cumprod noise_scheduler)) (Nd.get timesteps [n])).

(** Errors of the tensor operations: never the two errors that report the
    prediction type. *)
Definition shape_failure (e : py_error) : Prop :=
  match e with RuntimeError _ | IndexError => True | _ => False end.

Definition fails_on_shape_only {A} (r : outcome A) : Prop :=
  match r with Ok _ => True | Raise e => shape_failure e end.

(** A batch of one 1 x 1 sample at a timestep where the cumulative alpha is
    3/4, unit noise, and a network that predicts zero noise. *)
Definition sample_scheduler (prediction_type : string) : scheduler :=
  Scheduler [3 / 4] prediction_type.

Definition sample_timesteps : Nd.ndarray Z := Nd.Array [1%nat] (fun _ => 0%Z).

Definition sample_noise : Nd.ndarray R := Nd.Array [1; 4; 1; 1]%nat (fun _ => 1).

Definition sample_latents : Nd.ndarray R := Nd.Array [1; 5; 1; 1]%nat (fun _ => 0).

Definition sample_target : Nd.ndarray R := Nd.Array [1; 4; 1; 1]%nat (fun _ => 0).

Definition zero_prediction : Nd.ndarray R := Nd.Array [1; 4; 1; 1]%nat (fun _ => 0).

Definition sample_unet (x : Nd.ndarray R) (t : Nd.ndarray Z) (e : unit)
    : outcome (Nd.ndarray R) := Ok zero_prediction.

End Dream.

(** ** Latent encoding: [compute_vae_encodings]

    [latent_dist.sample()] draws from torch's default random generator; the
    generator state is threaded through explicitly. *)
Module Vae.



Section Generator.
(** The state of the random generator, and [torch.randn(shape)]. *)
Variable generator : Type.
Variable randn : list nat -> generator -> Nd.ndarray Q * generator.


End Generator.

(** *** Vocabulary of the statements, and sample inputs *)




End Vae.

(** ** Remote inference calls of the front end: [submit_function],
       [pose_transfer_function] *)
Module Frontend.

Local Open Scope string_scope.

Record response : Type := Response { status_code : Z; text : string }.

Inductive json_value : Type :=
| JString (s : string)
| JInt (n : Z)
| JFloat (x : Q).

(** [d[key]] on a dictionary with string keys. *)
Fixpoint getitem {V} (d : list (string * V)) (key : string) : outcome V :=
  match d with
  | [] => Raise (KeyError key)
  | (k, v) :: d => if decide (k = key) then Ok v else getitem d key
  end.

(** [str(n)] for an integer. *)
Definition str (n : Z) : string := NilZero.string_of_int (Z.to_int n).

Section Remote.
(** [config.json], the file system, the codecs and the HTTP endpoint. *)
Variable config : list (string * string).
Variable Image_open : string -> outcome PIL.image.
Variable bicubic : PIL.image -> Z -> Z -> Z -> Z -> PIL.pixel.
Variable save : PIL.image -> string -> string.
Variable open_rb : string -> outcome string.
Variable json_dumps : list (string * json_value) -> string.
Variable requests_post :
  string -> list (string * (string * string * string)) -> list (string * string)
  -> outcome response.
Variable response_json : response -> outcome (list (string * string)).
Variable b64decode : string -> outcome string.
Variable Image_open_bytes : string -> outcome PIL.image.

Definition resize_image_to_buffer (image_path : string) : outcome string :=
  img ← Image_open image_path;
  img ← PIL.resize bicubic (PIL.convert PIL.RGB img) (1024, 768);
  mret (save img "JPEG").

Definition submit_function (person_image cloth_image cloth_type : string)
    (num_inference_steps : Z) (guidance_scale : Q) (seed : Z)
    : outcome (PIL.image * PIL.image) :=
  url ← getitem config "style_transfer_api";
  (* Resize images and get in-memory buffers *)
  person_buffer ← resize_image_to_buffer person_image;
  cloth_buffer ← resize_image_to_buffer cloth_image;
  let files := [("person_image", ("person.jpg", person_buffer, "image/jpeg"));
                ("cloth_image", ("cloth.jpg", cloth_buffer, "image/jpeg"))] in
  let data := [("config_json",
                json_dumps [("cloth_type", JString cloth_type);
                            ("num_inference_steps", JInt num_inference_steps);
                            ("guidance_scale", JFloat guidance_scale);
                            ("seed", JInt seed)])] in
  response ← requests_post url files data;
  if decide (status_code response = 200) then
    result ← response_json response;
    masked_image_bytes ← getitem result "masked_image" ≫= b64decode;
    result_image_bytes ← getitem result "result_image" ≫= b64decode;
    masked_img ← Image_open_bytes masked_image_bytes;
    result_img ← Image_open_bytes result_image_bytes;
    mret (masked_img, result_img)
  else
    Raise (RuntimeError ("API error " ++ str (status_code response) ++ ": "
                         ++ text response)).

(** Function for pose transfer task *)
Definition pose_transfer_function (person_image pose_image : string)
    (num_inference_steps : Z) (guidance_scale : Q) (seed : Z)
    : outcome PIL.image :=
  url ← getitem config "pose_transfer_api";
  f1 ← open_rb person_image;
  f2 ← open_rb pose_image;
  let files := [("person_image", ("person.jpg", f1, "image/jpeg"));
                ("pose_image", ("pose.jpg", f2, "image/jpeg"))] in
  let data := [("config_json",
                json_dumps [("num_inference_steps", JInt num_inference_steps);
                            ("guidance_scale", JFloat guidance_scale);
                            ("seed", JInt seed)])] in
  response ← requests_post url files data;
  if decide (status_code response = 200) then
    result ← response_json response;
    result_pose_bytes ← getitem result "result_pose" ≫= b64decode;
    result_pose ← Image_open_bytes result_pose_bytes;
    mret result_pose
  else
    Raise (RuntimeError ("API error " ++ str (status_code response) ++ ": "
                         ++ text response)).
End Remote.

(** *** Vocabulary of the statements, and sample inputs *)

(** The message of the error raised for a response that is not a success. *)
Definition api_error (r : response) : py_error :=
  RuntimeError ("API error " ++ str (status_code r) ++ ": " ++ text r).

(** An endpoint that is down, and one that answers. *)
Definition sample_config : list (string * string) :=
  [("style_transfer_api", "http://host/style"); ("pose_transfer_api", "http://host/pose")].

Definition sample_photo : PIL.image := PIL.Image PIL.RGB 2 2 (fun x y => (x, y, 0)).

Definition open_photo (path : string) : outcome PIL.image := Ok sample_photo.

Definition save_stub (im : PIL.image) (format : string) : string := format.

Definition read_stub (path : string) : outcome string := Ok path.

Definition dumps_stub (d : list (string * json_value)) : string := "{}".

Definition unavailable : response := Response 503 "Service Unavailable".

Definition post_unavailable (url : string)
    (files : list (string * (string * string * string)))
    (data : list (string * string)) : outcome response := Ok unavailable.

Definition answer : response := Response 200 "{...}".

Definition post_answer (url : string)
    (files : list (string * (string * string * string)))
    (data : list (string * string)) : outcome response := Ok answer.

Definition json_stub (r : response) : outcome (list (string * string)) :=
  Ok [("masked_image", "bWFzaw=="); ("result_image", "cmVz"); ("result_pose", "cG9zZQ==")].

Definition b64_stub (s : string) : outcome string := Ok s.

Definition open_bytes_stub (s : string) : outcome PIL.image := Ok sample_photo.

End Frontend.

(** ** Inpainting input: [prepare_inpainting_input] *)
Module Inpainting.
Import Nd.

(** [torch.cat([a, b], dim=k)] for an axis [k] that is not negative. *)
Definition cat {A} (k : nat) (a b : ndarray A) : outcome (ndarray A) :=
  match shape a !! k, shape b !! k with
  | Some da, Some db =>
      if decide (<[k := 0%nat]> (shape a) = <[k := 0%nat]> (shape b))
      then Ok (Array (<[k := (da + db)%nat]> (shape a))
                     (fun ix => match ix !! k with
                                | Some i => if (i <? da)%nat then get a ix
                                            else get b (<[k := (i - da)%nat]> ix)
                                | None => get a ix
                                end))
      else Raise (RuntimeError "Sizes of tensors must match except in the concatenation dimension")
  | _, _ => Raise IndexError
  end.

(** [a.chunk(2, dim=k)[-1]]: chunks have [ceil(n / 2)] elements along the
    axis, so the last of them starts there; an axis of size 1 gives a single
    chunk. *)
Definition last_chunk_of_two {A} (k : nat) (a : ndarray A) : outcome (ndarray A) :=
  match shape a !! k with
  | Some n =>
      let start := if (n <=? 1)%nat then 0%nat else ((n + 1) / 2)%nat in
      Ok (Array (<[k := (n - start)%nat]> (shape a))
                (fun ix => get a (alter (fun i => (i + start)%nat) k ix)))
  | None => Raise IndexError
  end.

(** A [dim] argument on a tensor with [n] axes: negative values count from
    the last axis. *)
Definition wrap_dim (n : nat) (dim : Z) : outcome nat :=
  match norm_index n dim with
  | Some k => Ok k
  | None => Raise IndexError
  end.

Definition prepare_inpainting_input {A}
    (noisy_latents mask_latents condition_latents : ndarray A)
    (enable_condition_noise : bool) (condition_concat_dim : Z)
    : outcome (ndarray A) :=
  noisy_latents ←
    (if negb enable_condition_noise then
       k ← wrap_dim (ndim condition_latents) condition_concat_dim;
       condition_latents_ ← last_chunk_of_two k condition_latents;
       k ← wrap_dim (ndim noisy_latents) condition_concat_dim;
       cat k noisy_latents condition_latents_
     else mret noisy_latents);
  noisy_latents ← cat 1 noisy_latents mask_latents;
  cat 1 noisy_latents condition_latents.

End Inpainting.

(** ** Image grids: [concat_images] *)
Module Grid.
Import PIL.

(** [max(l)] on a list of integers. *)
Definition py_max (l : list Z) : outcome Z :=
  match l with
  | [] => Raise (ValueError "max() arg is an empty sequence")
  | x :: l => Ok (foldl Z.max x l)
  end.

(** [math.ceil(a / b)] on integers. *)
Definition ceil_div (a b : Z) : outcome Z := q ← true_div a b; mret (Qceiling q).

(** The body of the loop, on the canvas and the two offsets. *)
Definition paste_step (divider cols : Z) (st : image * Z * Z) (i : Z) (image : image)
    : PIL.image * Z * Z :=
  let '(concat_image, x_offset, y_offset) := st in
  let concat_image := paste concat_image image (x_offset, y_offset) in
  let x_offset := x_offset + width image + divider in
  if (i + 1) mod cols =? 0
  then (concat_image, 0, y_offset + height image + divider)
  else (concat_image, x_offset, y_offset).

(** [for i, image in enumerate(images)], from index [i] on. *)
Fixpoint paste_all (divider cols : Z) (st : image * Z * Z) (i : Z) (images : list image)
    : image * Z * Z :=
  match images with
  | [] => st
  | image :: images =>
      paste_all divider cols (paste_step divider cols st i image) (i + 1) images
  end.

Definition concat_images (images : list image) (divider cols : Z) : outcome image :=
  let widths := width <$> images in
  let heights := height <$> images in
  max_width ← py_max widths;
  let total_width := cols * max_width in
  let total_width := total_width + divider * (cols - 1) in
  (* `col` images each row *)
  rows ← ceil_div (Z.of_nat (length images)) cols;
  max_height ← py_max heights;
  let total_height := max_height * rows in
  (* add divider between rows *)
  full_rows ← floor_div (Z.of_nat (length heights)) cols;
  let total_height := total_height + divider * (full_rows - 1) in
  (* all black image *)
  concat_image ← new RGB (total_width, total_height) black;
  let '(concat_image, _, _) := paste_all divider cols (concat_image, 0, 0) 0 images in
  mret concat_image.

(** *** Vocabulary of the statements, and sample inputs *)

(** The cell of image number [j] in a grid of [w x h] images: its left and
    top edge, and the points it covers. *)
Definition cell_x (cols divider w j : Z) : Z := (j mod cols) * (w + divider).
Definition cell_y (cols divider h j : Z) : Z := (j / cols) * (h + divider).
Definition in_cell (cols divider w h j x y : Z) : Prop :=
  cell_x cols divider w j <= x < cell_x cols divider w j + w
  /\ cell_y cols divider h j <= y < cell_y cols divider h j + h.

(** All images have the size [w x h]. *)
Definition all_of_size (w h : Z) (images : list image) : Prop :=
  Forall (fun im => width im = w /\ height im = h) images.

End Grid.

(** ** Conversions between tensors, arrays and images: [init_weight_dtype],
       [numpy_to_pil], [tensor_to_image] *)
Module Conversion.
Import PIL.

Inductive dtype : Type := float32 | float16 | bfloat16.

#[global] Instance dtype_eq_dec : EqDecision dtype.
Proof. solve_decision. Defined.

Definition init_weight_dtype (wight_dtype : string) : outcome dtype :=
  Frontend.getitem [("no"%string, float32); ("fp16"%string, float16);
                    ("bf16"%string, bfloat16)] wight_dtype.

(** [x.round()] on a float: to the nearest integer, a tie to the even one. *)
Definition round_half_even (x : Q) : Z :=
  let f := Qfloor x in
  let d := (x - inject_Z f)%Q in
  if Qltb d (1 # 2) then f
  else if Qltb (1 # 2) d then f + 1
  else if Z.even f then f else f + 1.

(** [a[k]]: the sub-array at index [k] of the first axis. *)
Definition item {A} (k : nat) (a : Nd.ndarray A) : Nd.ndarray A :=
  Nd.Array (tail (Nd.shape a)) (fun ix => Nd.get a (k :: ix)).

(** [for image in a]: the sub-arrays along the first axis. *)
Definition items {A} (a : Nd.ndarray A) : list (Nd.ndarray A) :=
  (fun k => item k a) <$> seq 0 (hd 0%nat (Nd.shape a)).

(** [a.squeeze()]: the axes of size 1 are dropped. *)
Fixpoint unsqueezed (s ix : list nat) : list nat :=
  match s with
  | [] => ix
  | d :: s =>
      if decide (d = 1%nat) then 0%nat :: unsqueezed s ix
      else match ix with
           | i :: ix => i :: unsqueezed s ix
           | [] => []
           end
  end.

Definition squeeze {A} (a : Nd.ndarray A) : Nd.ndarray A :=
  Nd.Array (filter (fun d => d <> 1%nat) (Nd.shape a))
           (fun ix => Nd.get a (unsqueezed (Nd.shape a) ix)).

(** [Image.fromarray(a, mode="L")] for an array of 8-bit values: a 2-D array
    is an image of its width and height, a 1-D array of [n] values is an
    image one pixel wide and [n] pixels high, an array without axes has no
    size, and more than two axes are too many for the mode. *)
Definition fromarray_L (a : Nd.ndarray Z) : outcome image :=
  match Nd.shape a with
  | [] => Raise IndexError
  | [n] =>
      Ok (Image L 1 (Z.of_nat n) (fun x y => (Nd.get a [Z.to_nat y], 0, 0)))
  | [h; w] => fromarray a
  | _ => Raise (ValueError "Too many dimensions")
  end.

(** Convert a numpy image or a batch of images to a PIL image. *)
Definition numpy_to_pil (images : Nd.ndarray Q) : outcome (list image) :=
  let images := if decide (Nd.ndim images = 3%nat) then Nd.unsqueeze 0 images else images in
  let images :=
    Nd.map (fun v => Repaint.astype_uint8 (inject_Z (round_half_even (v * 255)))) images in
  match last (Nd.shape images) with
  | None => Raise IndexError
  | Some channels =>
      if decide (channels = 1%nat)
      then
        (* special case for grayscale (single channel) images *)
        mapM (fun image => fromarray_L (squeeze image)) (items images)
      else mapM fromarray (items images)
  end.

(** A torch tensor with its dtype. *)
Record torch_tensor : Type := TorchTensor { tensor_dtype : dtype; values : Nd.ndarray Q }.

(** A failed [assert], or the outcome of the statements after the
    assertions. *)
Inductive asserted (A : Type) : Type :=
| AssertionError (msg : string)
| Passed (r : outcome A).
Arguments AssertionError {A} msg.
Arguments Passed {A} r.

Definition in_unit_range (v : Q) : bool := Qle_bool 0 v && Qle_bool v 1.

(** Converts a torch tensor to PIL Image. *)
Definition tensor_to_image (tensor : torch_tensor) : asserted image :=
  if negb (bool_decide (Nd.ndim (values tensor) = 3%nat))
  then AssertionError "Input tensor should be 3-dimensional."
  else if negb (bool_decide (tensor_dtype tensor = float32))
  then AssertionError "Input tensor should be float32."
  else match Nd.flatten (values tensor) with
       | [] => Passed (Raise (RuntimeError "min(): cannot reduce an empty tensor"))
       | elements =>
           if negb (forallb in_unit_range elements)
           then AssertionError "Input tensor should be in range [0, 1]."
           else
             Passed (let tensor := Nd.map (fun v => v * 255)%Q (values tensor) in
                     tensor ← Nd.transpose [1; 2; 0]%nat tensor;
                     let tensor := Nd.map Repaint.astype_uint8 tensor in
                     fromarray tensor)
       end.

(** *** Vocabulary of the statements, and sample inputs *)

(** Every element of the array is in the range [0, 1]. *)
Definition in_unit_interval (a : Nd.ndarray Q) : Prop :=
  forall ix, Nd.in_bounds (Nd.shape a) ix = true -> (0 <= Nd.get a ix <= 1)%Q.

(** The image of an array of 8-bit values scaled to [0, 1]. *)
Definition scaled (im : image) : Nd.ndarray Q :=
  Nd.map (fun v => inject_Z v / 255)%Q (to_array im).

Definition sample_batch : Nd.ndarray Q :=
  Nd.Array [2; 1; 2; 3]%nat
           (fun ix => match ix with
                      | [k; _; x; c] => inject_Z (Z.of_nat (k + x + c)) / 4
                      | _ => 0
                      end)%Q.

Definition sample_chw : torch_tensor :=
  TorchTensor float32
              (Nd.Array [3; 1; 2]%nat
                        (fun ix => match ix with
                                   | [c; _; x] => inject_Z (Z.of_nat (c + x)) / 3
                                   | _ => 0
                                   end)%Q).

Definition sample_gray : torch_tensor :=
  TorchTensor float32 (Nd.Array [1; 2; 2]%nat (fun _ => 1 # 2)).

End Conversion.

(** ** Directory scan: [scan_files_in_dir] *)
Module Scan.

(** What [os.scandir] yields: regular files, directories with their own
    entries in scan order, and entries that are neither (a broken link, a
    socket).  The tree is finite: no cycle of symbolic links. *)
#[warnings="-register-all"] Inductive DirEntry : Type :=
| File (path : string)
| Dir (path : string) (entries : list DirEntry)
| Special (path : string).

(** The counters of a [tqdm] progress bar that is enabled (a disabled bar
    ignores [update]). *)
Record tqdm : Type := Tqdm { total : Z; n : Z }.

(** [progress_bar.total += 1; progress_bar.update(1)] *)
Definition count_one (progress_bar : tqdm) : tqdm :=
  Tqdm (total progress_bar + 1) (n progress_bar + 1).

Section Scan.
(** [os.path.splitext(path)[1]] *)
Variable splitext_ext : string -> string.

Definition selected (postfix : option (list string)) (path : string) : bool :=
  match postfix with
  | None => true
  | Some postfix => bool_decide (splitext_ext path ∈ postfix)
  end.

(** One iteration of the loop over the entries; the recursive call on a
    directory shares the progress bar. *)
Fixpoint scan_entry (postfix : option (list string)) (entry : DirEntry)
    (progress_bar : tqdm) : list DirEntry * tqdm :=
  match entry with
  | File path =>
      if selected postfix path then ([entry], count_one progress_bar)
      else ([], progress_bar)
  | Dir path entries =>
      (fix scan (entries : list DirEntry) (progress_bar : tqdm) :=
         match entries with
         | [] => ([], progress_bar)
         | entry :: entries =>
             let '(found, progress_bar) := scan_entry postfix entry progress_bar in
             let '(file_list, progress_bar) := scan entries progress_bar in
             (found ++ file_list, progress_bar)
         end) entries progress_bar
  | Special path => ([], progress_bar)
  end.

(** The loop of [scan_files_in_dir] over the entries of a directory. *)
Fixpoint scan_entries (postfix : option (list string)) (entries : list DirEntry)
    (progress_bar : tqdm) : list DirEntry * tqdm :=
  match entries with
  | [] => ([], progress_bar)
  | entry :: entries =>
      let '(found, progress_bar) := scan_entry postfix entry progress_bar in
      let '(file_list, progress_bar) := scan_entries postfix entries progress_bar in
      (found ++ file_list, progress_bar)
  end.

(** [scan_files_in_dir(directory, postfix, progress_bar)] on the entries of
    [directory]; the result is the file list and the final state of the
    progress bar, which is a new one when none is passed. *)
Definition scan_files_in_dir (directory : list DirEntry) (postfix : option (list string))
    (progress_bar : option tqdm) : list DirEntry * tqdm :=
  let progress_bar := default (Tqdm 0 0) progress_bar in
  scan_entries postfix directory progress_bar.

End Scan.

(** *** Vocabulary of the statements, and sample inputs *)

(** The regular files below a list of entries, depth first in scan order. *)
Fixpoint files_of (entry : DirEntry) : list DirEntry :=
  match entry with
  | File path => [entry]
  | Dir path entries => flat_map files_of entries
  | Special path => []
  end.

Definition path_of (entry : DirEntry) : string :=
  match entry with File p | Dir p _ | Special p => p end.

End Scan.

(** ** Further vocabulary and sample inputs *)
Module Inputs.
Import PIL.

(** Every array of the list has at least one axis. *)
Definition arrays_indexable (l : list PrepareImage.item) : Prop :=
  Forall (fun i => forall a, i = PrepareImage.ItemArray a -> Nd.ndim a <> 0%nat) l.

(** A file that is not an image. *)
Definition no_photo (path : string) : outcome image :=
  Raise (ValueError "cannot identify image file").

(** A 2 x 1 mask that keeps the left pixel of the result and the right pixel
    of the person. *)
Definition left_mask : image := Image L 2 1 (fun x _ => (255 * (1 - x), 0, 0)).

(** Images of 4 x 2 and 4 x 3 pixels, and a mask of 4 x 2. *)
Definition tall_person : image := Image RGB 4 3 (fun x y => (x, y, 0)).

Definition wide_mask : image := Image L 4 2 (fun _ _ => (255, 0, 0)).

(** Arrays of the shapes 1 x 1 x 3, 2 x 1 x 3 and 2 x 2. *)
Definition pixel_array : Nd.ndarray Q := Nd.Array [1; 1; 3]%nat (fun _ => 0%Q).

Definition column_array : Nd.ndarray Q := Nd.Array [2; 1; 3]%nat (fun _ => 0%Q).

Definition gray_array : Nd.ndarray Q := Nd.Array [2; 2]%nat (fun _ => 0%Q).

(** A timestep beyond a schedule of one entry, and a network that predicts
    the sample noise exactly. *)
Definition late_timesteps : Nd.ndarray Z := Nd.Array [1%nat] (fun _ => 7).

Definition exact_unet (x : Nd.ndarray R) (t : Nd.ndarray Z) (e : unit)
    : outcome (Nd.ndarray R) := Ok Dream.sample_noise.

(** Latents of one row and two or three columns. *)
Definition noisy_pair : Nd.ndarray Z :=
  Nd.Array [1; 1; 1; 2]%nat (fun ix => Z.of_nat (ix !!! 3%nat)).

Definition mask_pair : Nd.ndarray Z := Nd.Array [1; 1; 1; 2]%nat (fun _ => 9).

Definition condition_pair : Nd.ndarray Z :=
  Nd.Array [1; 2; 1; 2]%nat (fun ix => 10 + Z.of_nat (ix !!! 1%nat)).

Definition mask_triple : Nd.ndarray Z := Nd.Array [1; 1; 1; 3]%nat (fun _ => 9).

Definition condition_triple : Nd.ndarray Z :=
  Nd.Array [1; 1; 1; 3]%nat (fun ix => 10 + Z.of_nat (ix !!! 3%nat)).

(** A batch of one grey image, one pixel high and two pixels wide. *)
Definition grey_row : Nd.ndarray Q :=
  Nd.Array [1; 1; 2; 1]%nat (fun ix => inject_Z (Z.of_nat (ix !!! 2%nat))).

(** A 2-D float32 tensor. *)
Definition flat_tensor : Conversion.torch_tensor :=
  Conversion.TorchTensor Conversion.float32 gray_array.

(** The extension as the last four characters of the path, and a tree with
    a nested directory. *)
Definition last_four (path : string) : string :=
  String.substring (String.length path - 4) 4 path.

Definition sample_tree : list Scan.DirEntry :=
  [Scan.File "a.jpg";
   Scan.Dir "sub" [Scan.File "sub/b.png"; Scan.Special "sub/link";
                   Scan.Dir "sub/deep" [Scan.File "sub/deep/c.jpg"]];
   Scan.File "d.txt"]%string.

End Inputs.

(** * Properties *)

(** ** The result monad and exact integer division *)

Lemma bind_ok {A B} (r : outcome A) (k : A -> outcome B) (b : B) :
  r ≫= k = Ok b -> exists a, r = Ok a /\ k a = Ok b.
Proof. destruct r as [a|e]; simpl; [eauto | discriminate]. Qed.

Lemma bind_Ok {A B} (a : A) (k : A -> outcome B) : Ok a ≫= k = k a.
Proof. done. Qed.

Tactic Notation "inv_bind" hyp(H) "as" ident(a) ident(Ha) :=
  apply bind_ok in H as (a & Ha & H).

Lemma true_div_ok (a b : Z) (q : Q) :
  true_div a b = Ok q -> b <> 0 /\ q = (inject_Z a / inject_Z b)%Q.
Proof.
  unfold true_div. destruct (Z.eqb_spec b 0); [discriminate|].
  intros [= <-]. done.
Qed.

Lemma floor_div_ok (a b q : Z) :
  floor_div a b = Ok q -> b <> 0 /\ q = a / b.
Proof.
  unfold floor_div. destruct (Z.eqb_spec b 0); [discriminate|].
  intros [= <-]. done.
Qed.

Lemma true_div_pos (a b : Z) : b <> 0 -> true_div a b = Ok (inject_Z a / inject_Z b)%Q.
Proof. intros H. unfold true_div. by destruct (Z.eqb_spec b 0). Qed.

Lemma floor_div_pos (a b : Z) : b <> 0 -> floor_div a b = Ok (a / b).
Proof. intros H. unfold floor_div. by destruct (Z.eqb_spec b 0). Qed.

Lemma Qltb_div_pos (a b c d : Z) :
  0 < b -> 0 < d ->
  Qltb (inject_Z a / inject_Z b) (inject_Z c / inject_Z d) = (a * d <? c * b).
Proof.
  intros Hb Hd. unfold Qltb.
  destruct b as [|b|b]; try lia. destruct d as [|d|d]; try lia.
  assert (E1 : (inject_Z a / inject_Z (Z.pos b) == a # b)%Q).
  { unfold Qeq, Qdiv, Qinv, Qmult, inject_Z; simpl. lia. }
  assert (E2 : (inject_Z c / inject_Z (Z.pos d) == c # d)%Q).
  { unfold Qeq, Qdiv, Qinv, Qmult, inject_Z; simpl. lia. }
  destruct (Qle_bool _ _) eqn:E; simpl.
  - apply Qle_bool_iff in E. rewrite E1, E2 in E. unfold Qle in E; simpl in E.
    symmetry. apply Z.ltb_ge. lia.
  - symmetry. apply Z.ltb_lt.
    destruct (Z.lt_ge_cases (a * Z.pos d) (c * Z.pos b)) as [|Hge]; [done|].
    exfalso. assert (Qle_bool (inject_Z c / inject_Z (Z.pos d))
                              (inject_Z a / inject_Z (Z.pos b)) = true) as E'.
    { apply Qle_bool_iff. rewrite E1, E2. unfold Qle; simpl. lia. }
    congruence.
Qed.

(** ** Geometric resizing *)
Module GeometryFacts.
Import PIL Geometry.

Section Resampling.
Variable resample : image -> Z -> Z -> Z -> Z -> pixel.

Lemma resize_ok (im out : image) (w h : Z) :
  resize resample im (w, h) = Ok out ->
  width out = w /\ height out = h /\ mode out = mode im.
Proof.
  unfold resize.
  destruct ((w =? width im) && (h =? height im)) eqn:E.
  - intros [= <-]. apply andb_true_iff in E as [?%Z.eqb_eq ?%Z.eqb_eq]. done.
  - destruct ((w <? 1) || (h <? 1)); [discriminate|]. by intros [= <-].
Qed.

Lemma new_ok (m : image_mode) (w h : Z) (c : pixel) (out : image) :
  new m (w, h) c = Ok out ->
  0 <= w /\ 0 <= h /\ out = Image m w h (fun _ _ => c).
Proof.
  unfold new. destruct ((w <? 0) || (h <? 0)) eqn:E; [discriminate|].
  apply orb_false_iff in E as [?%Z.ltb_ge ?%Z.ltb_ge]. by intros [= <-].
Qed.

Lemma resize_and_crop_size (im out : image) (tw th : Z) :
  resize_and_crop resample im (tw, th) = Ok out ->
  width out = tw /\ height out = th.
Proof.
  unfold resize_and_crop. intros H.
  inv_bind H as r Hr. inv_bind H as tr Htr. inv_bind H as box Hbox.
  destruct box as [new_w new_h].
  inv_bind H as cropped Hcrop. apply resize_ok in H. tauto.
Qed.

(** The box the resized image is scaled to fits the target box. *)
Lemma padding_box_fits (w h tw th new_w new_h : Z) (r tr : Q) :
  0 <= w -> 0 <= h -> 0 <= tw -> 0 <= th ->
  true_div w h = Ok r -> true_div tw th = Ok tr ->
  (if Qltb r tr
   then new_w ← floor_div (w * th) h; mret (new_w, th)
   else new_h ← floor_div (h * tw) w; mret (tw, new_h)) = Ok (new_w, new_h) ->
  0 <= new_w <= tw /\ 0 <= new_h <= th /\ (new_w = tw \/ new_h = th).
Proof.
  intros Hw Hh Htw Hth [Hh0 ->]%true_div_ok [Hth0 ->]%true_div_ok.
  rewrite Qltb_div_pos by lia.
  destruct (Z.ltb_spec (w * th) (tw * h)) as [Hlt|Hge]; intros H.
  - inv_bind H as q Hq. apply floor_div_ok in Hq as [_ ->]. injection H as <- <-.
    split; [|split; [lia | by right]]. split.
    + apply Z.div_pos; nia.
    + apply Z.lt_le_incl, Z.div_lt_upper_bound; nia.
  - inv_bind H as q Hq. apply floor_div_ok in Hq as [Hw0 ->]. injection H as <- <-.
    split; [lia|]. split; [|by left]. split.
    + apply Z.div_pos; nia.
    + apply Z.div_le_upper_bound; nia.
Qed.

Lemma centred (t n : Z) : 0 <= n <= t -> 0 <= (t - n) / 2 /\ (t - n) / 2 + n <= t.
Proof.
  intros H. split; [apply Z.div_pos; lia|].
  assert ((t - n) / 2 <= t - n) by (apply Z.div_le_upper_bound; lia). lia.
Qed.

Lemma resize_positive (im : image) (w h : Z) :
  0 < w -> 0 < h -> exists out, resize resample im (w, h) = Ok out.
Proof.
  intros Hw Hh. unfold resize. destruct (_ && _); [eauto|].
  destruct (Z.ltb_spec w 1), (Z.ltb_spec h 1); simpl; eauto; lia.
Qed.

(** Both functions return when no side degenerates: the crop keeps at least
    one pixel, the scaled image has at least one pixel. *)
Lemma resize_and_crop_returns (im : image) (tw th : Z) :
  0 < width im -> 0 < height im -> 0 < tw -> 0 < th ->
  tw <= width im * th -> th <= height im * tw ->
  exists out, resize_and_crop resample im (tw, th) = Ok out.
Proof.
  intros Hw Hh Htw Hth _ _. unfold resize_and_crop.
  rewrite !true_div_pos, !bind_Ok by lia.
  destruct (Qltb _ _); rewrite floor_div_pos, !bind_Ok by lia; simpl.
  - unfold crop.
    destruct (Z.ltb_spec ((width im + width im) / 2) ((width im - width im) / 2)) as [H1|_].
    { assert ((width im - width im) / 2 <= (width im + width im) / 2)
        by (apply Z.div_le_mono; lia). lia. }
    assert (0 <= width im * th / tw) by (apply Z.div_pos; nia).
    destruct (Z.ltb_spec ((height im + width im * th / tw) / 2)
                         ((height im - width im * th / tw) / 2)) as [H2|_].
    { assert ((height im - width im * th / tw) / 2 <= (height im + width im * th / tw) / 2)
        by (apply Z.div_le_mono; lia). lia. }
    rewrite bind_Ok. by apply resize_positive.
  - unfold crop.
    assert (0 <= height im * tw / th) by (apply Z.div_pos; nia).
    destruct (Z.ltb_spec ((width im + height im * tw / th) / 2)
                         ((width im - height im * tw / th) / 2)) as [H1|_].
    { assert ((width im - height im * tw / th) / 2 <= (width im + height im * tw / th) / 2)
        by (apply Z.div_le_mono; lia). lia. }
    destruct (Z.ltb_spec ((height im + height im) / 2) ((height im - height im) / 2)) as [H2|_].
    { assert ((height im - height im) / 2 <= (height im + height im) / 2)
        by (apply Z.div_le_mono; lia). lia. }
    rewrite bind_Ok. by apply resize_positive.
Qed.

Lemma resize_and_padding_returns (im : image) (tw th : Z) :
  0 < width im -> 0 < height im -> 0 < tw -> 0 < th ->
  height im <= width im * th -> width im <= height im * tw ->
  exists out, resize_and_padding resample im (tw, th) = Ok out.
Proof.
  intros Hw Hh Htw Hth H1 H2. unfold resize_and_padding.
  rewrite !true_div_pos, !bind_Ok by lia.
  assert (1 <= width im * th / height im) by (apply Z.div_le_lower_bound; lia).
  assert (1 <= height im * tw / width im) by (apply Z.div_le_lower_bound; lia).
  destruct (Qltb _ _); rewrite floor_div_pos by lia; cbn -[resize new Z.div].
  - destruct (resize_positive im (width im * th / height im) th) as [r ->]; [lia..|].
    rewrite bind_Ok. unfold new.
    destruct (Z.ltb_spec tw 0), (Z.ltb_spec th 0); simpl; eauto; lia.
  - destruct (resize_positive im tw (height im * tw / width im)) as [r ->]; [lia..|].
    rewrite bind_Ok. unfold new.
    destruct (Z.ltb_spec tw 0), (Z.ltb_spec th 0); simpl; eauto; lia.
Qed.
(** When the scaled image would lose a side, [resize_and_padding] raises. *)
Lemma resize_and_padding_degenerates (im : image) (tw th : Z) :
  0 < width im -> 0 < height im -> 0 < tw -> 0 < th ->
  ~ (height im <= width im * th /\ width im <= height im * tw) ->
  resize_and_padding resample im (tw, th)
  = Raise (ValueError "height and width must be > 0").
Proof.
  intros Hw Hh Htw Hth Hdeg. unfold resize_and_padding.
  rewrite !true_div_pos, !bind_Ok, Qltb_div_pos by lia.
  destruct (Z.ltb_spec (width im * th) (tw * height im)) as [Hlt|Hge];
    rewrite floor_div_pos, !bind_Ok by lia; cbn -[resize new Z.div].
  - assert (width im * th / height im = 0) as -> by (apply Z.div_small; nia).
    unfold resize.
    destruct (Z.eqb_spec 0 (width im)) as [E|_]; [exfalso; lia|].
    reflexivity.
  - assert (height im * tw / width im = 0) as -> by (apply Z.div_small; nia).
    unfold resize.
    destruct (Z.eqb_spec 0 (height im)) as [E|_]; [exfalso; lia|].
    rewrite andb_false_r.
    destruct (Z.ltb_spec tw 1); reflexivity.
Qed.

(** C8, amended. Any image returned by [resize_and_crop] has exactly the
    requested width and height; any image returned by [resize_and_padding]
    has exactly the requested width and height, the resized input lies
    inside it, centred by floor division, and every pixel outside of the
    pasted image is white (255, 255, 255).  For an image and a requested
    size with positive sides, [resize_and_crop] returns an image when its
    crop keeps at least one pixel, and [resize_and_padding] returns an image
    exactly when the scaled image keeps at least one pixel: for a more
    extreme aspect ratio the scaled side floors to 0 and it raises
    ValueError. *)
Theorem resize_outputs_have_requested_size (im : image) (tw th : Z) :
  0 <= width im -> 0 <= height im ->
  (forall out, resize_and_crop resample im (tw, th) = Ok out ->
     width out = tw /\ height out = th) /\
  (forall out, resize_and_padding resample im (tw, th) = Ok out ->
     width out = tw /\ height out = th /\
     exists resized,
       let ox := (tw - width resized) / 2 in
       let oy := (th - height resized) / 2 in
       resize resample im (width resized, height resized) = Ok resized /\
       0 <= ox /\ ox + width resized <= tw /\
       0 <= oy /\ oy + height resized <= th /\
       forall x y, 0 <= x < tw -> 0 <= y < th ->
         getpixel out x y =
           if (ox <=? x) && (x <? ox + width resized)
              && (oy <=? y) && (y <? oy + height resized)
           then getpixel (convert RGB resized) (x - ox) (y - oy)
           else white) /\
  (0 < width im -> 0 < height im -> 0 < tw -> 0 < th ->
   (tw <= width im * th -> th <= height im * tw ->
      exists out, resize_and_crop resample im (tw, th) = Ok out)
   /\ ((exists out, resize_and_padding resample im (tw, th) = Ok out)
       <-> height im <= width im * th /\ width im <= height im * tw)
   /\ (~ (height im <= width im * th /\ width im <= height im * tw) ->
       exists msg, resize_and_padding resample im (tw, th) = Raise (ValueError msg))).
Proof.
  intros Hw Hh. split; [intros out; apply resize_and_crop_size|]. split.
  - intros out H. unfold resize_and_padding in H.
    inv_bind H as r Hr. inv_bind H as tr Htr. inv_bind H as box Hbox.
    destruct box as [new_w new_h].
    inv_bind H as resized Hres. inv_bind H as padding Hpad. injection H as <-.
    apply new_ok in Hpad as (Htw & Hth & ->).
    pose proof (resize_ok _ _ _ _ Hres) as (Ew & Eh & _).
    destruct (padding_box_fits _ _ _ _ _ _ _ _ Hw Hh Htw Hth Hr Htr Hbox)
      as (Hnw & Hnh & _).
    simpl. split; [done|]. split; [done|].
    exists resized. rewrite Ew, Eh. split; [done|].
    destruct (centred tw new_w Hnw), (centred th new_h Hnh).
    repeat split; try done.
  - intros Hw' Hh' Htw Hth. split; [|split].
    + by apply resize_and_crop_returns.
    + split.
      * intros [out H].
        destruct (decide (height im <= width im * th /\ width im <= height im * tw))
          as [|Hdeg]; [done|].
        by rewrite resize_and_padding_degenerates in H.
      * intros [H1 H2]. by apply resize_and_padding_returns.
    + intros Hdeg. eexists. by apply resize_and_padding_degenerates.
Qed.
End Resampling.

(** C8, as stated, fails: scaled into 64 x 64 the strip gets a width of
    [10 * 64 // 700 = 0], the resize to an empty image is refused, and
    [resize_and_padding] returns no image. *)
Lemma resize_and_padding_thin_strip_raises :
  0 < width thin_strip /\ 0 < height thin_strip
  /\ resize_and_padding nearest thin_strip (64, 64)
     = Raise (ValueError "height and width must be > 0")
  /\ ~ (exists out, resize_and_padding nearest thin_strip (64, 64) = Ok out
          /\ width out = 64 /\ height out = 64).
Proof.
  split; [done|]. split; [done|]. split; [reflexivity|].
  intros (out & H & _). discriminate H.
Qed.

Lemma resize_outputs_have_requested_size_witness :
  (exists out, resize_and_crop nearest sample_image (3, 3) = Ok out)
  /\ (exists out, resize_and_padding nearest sample_image (3, 3) = Ok out)
  /\ (forall out, resize_and_crop nearest sample_image (3, 3) = Ok out ->
        width out = 3 /\ height out = 3)
  /\ (forall out, resize_and_padding nearest sample_image (3, 3) = Ok out ->
        width out = 3 /\ height out = 3 /\
        exists resized,
          let ox := (3 - width resized) / 2 in
          let oy := (3 - height resized) / 2 in
          resize nearest sample_image (width resized, height resized) = Ok resized /\
          0 <= ox /\ ox + width resized <= 3 /\
          0 <= oy /\ oy + height resized <= 3 /\
          forall x y, 0 <= x < 3 -> 0 <= y < 3 ->
            getpixel out x y =
              if (ox <=? x) && (x <? ox + width resized)
                 && (oy <=? y) && (y <? oy + height resized)
              then getpixel (convert RGB resized) (x - ox) (y - oy)
              else white).
Proof.
  destruct (resize_outputs_have_requested_size nearest sample_image 3 3)
    as (Hcrop & Hpad & Hret); [simpl; lia..|].
  destruct Hret as (Rcrop & Rpad & _); [simpl; lia..|].
  split; [apply Rcrop; simpl; lia|].
  split; [apply Rpad; simpl; lia|].
  split; [exact Hcrop | exact Hpad].
Defined.

(** Both functions do return an image on this input: the padded one is
    3 x 3 with the 3 x 1 resized image in its middle row. *)
Example resize_and_padding_runs :
  exists out, resize_and_padding nearest sample_image (3, 3) = Ok out /\
    (width out, height out) = (3, 3) /\
    getpixel out 1 0 = white /\ getpixel out 1 1 = (1, 0, 7) /\ getpixel out 1 2 = white.
Proof. eexists. split; [reflexivity|]. by vm_compute. Qed.

Example resize_and_crop_runs :
  exists out, resize_and_crop nearest sample_image (3, 3) = Ok out /\
    (width out, height out) = (3, 3).
Proof. eexists. split; [reflexivity|]. by vm_compute. Qed.

(** A tall, thin input scaled into a wide box has resized width 0, which the
    resampler rejects: no image is returned. *)
Example resize_and_padding_degenerate :
  resize_and_padding nearest (Image RGB 1 1000 (fun _ _ => black)) (100, 10)
  = Raise (ValueError "height and width must be > 0").
Proof. reflexivity. Qed.

End GeometryFacts.

(** ** Broadcasting *)
Module NdFacts.
Import Nd.

Lemma bdim_same (d : nat) : bdim d d = Some d.
Proof. unfold bdim. by rewrite decide_True. Qed.

Lemma bdim_1_r (d : nat) : bdim d 1 = Some d.
Proof.
  unfold bdim. destruct (decide (d = 1%nat)) as [->|]; [done|].
  by rewrite decide_True.
Qed.

Lemma bdim_1_l (d : nat) : bdim 1 d = Some d.
Proof.
  unfold bdim. destruct (decide (1%nat = d)) as [<-|]; [done|].
  by rewrite decide_True.
Qed.

Lemma clamp_in_range (d i : nat) : (i < d)%nat -> clamp d i = i.
Proof. intros H. unfold clamp. destruct (decide _); lia. Qed.

Lemma clamp_1 (i : nat) : clamp 1 i = 0%nat.
Proof. done. Qed.

Lemma indices_in_bounds (s ix : list nat) : ix ∈ Nd.indices s -> Nd.in_bounds s ix = true.
Proof.
  revert ix. induction s as [|d s IH]; simpl; intros ix H.
  - by apply list_elem_of_singleton in H as ->.
  - apply list_elem_of_bind in H as (i & H & Hi).
    apply list_elem_of_fmap in H as (ix' & -> & H'). simpl.
    apply elem_of_seq in Hi. rewrite IH by done.
    by destruct (Nat.ltb_spec i d); [|lia].
Qed.

Lemma mapM_ok {A B} (f : A -> outcome B) (g : A -> B) (l : list A) :
  Forall (fun x => f x = Ok (g x)) l -> mapM f l = Ok (g <$> l).
Proof.
  induction 1 as [|x l Hx _ IH]; [done|].
  simpl in *. by rewrite Hx, IH.
Qed.

(** Concatenating arrays whose first axis has size 1 stacks them. *)
Lemma cat0_get_stack {A} (rest : list (ndarray A)) (a b : ndarray A) (k : nat)
    (ix : list nat) :
  Forall (fun a => hd 0%nat (shape a) = 1%nat) (a :: rest) ->
  (a :: rest) !! k = Some b ->
  cat0_get a rest k ix = get b (0%nat :: ix).
Proof.
  revert a k. induction rest as [|a' rest IH]; intros a k Hs Hk; simpl.
  - destruct k; simpl in Hk; [by injection Hk as <- | done].
  - apply Forall_cons in Hs as [Ha Hs]. rewrite Ha.
    destruct k as [|k]; simpl in *; [by injection Hk as <-|].
    rewrite Nat.sub_0_r. by apply IH.
Qed.

Lemma concatenate0_stack {A} (arrs : list (ndarray A)) (s : list nat) :
  arrs <> [] ->
  Forall (fun a => shape a = 1%nat :: s) arrs ->
  exists out, concatenate0 arrs = Ok out
    /\ shape out = length arrs :: s
    /\ forall k a ix, arrs !! k = Some a -> get out (k :: ix) = get a (0%nat :: ix).
Proof.
  intros Hne Hs. destruct arrs as [|a rest]; [done|].
  pose proof Hs as Hs'. apply Forall_cons in Hs' as [Ha Hrest].
  unfold concatenate0. rewrite Ha.
  assert (forallb (fun b => bool_decide (tail (shape b) = s /\ shape b <> [])) rest
          = true) as ->.
  { apply forallb_forall. intros b Hb%list_elem_of_In.
    rewrite Forall_forall in Hrest. rewrite (Hrest b Hb). simpl.
    by apply bool_decide_eq_true_2. }
  eexists. split; [done|]. simpl. split.
  - f_equal. rewrite Ha. simpl. f_equal.
    clear -Hrest. induction Hrest as [|b l Hb _ IH]; [done|].
    simpl. by rewrite Hb, IH.
  - intros k b ix Hk. apply cat0_get_stack; [|done].
    eapply Forall_impl; [done|]. by intros ? ->.
Qed.

(** [transpose(0, 3, 1, 2)] moves the last axis behind the first. *)
Lemma transpose_channel_first {A} (a : ndarray A) (n h w c : nat) :
  shape a = [n; h; w; c] ->
  exists out, transpose [0; 3; 1; 2]%nat a = Ok out
    /\ shape out = [n; c; h; w]
    /\ forall k ch i j, get out [k; ch; i; j] = get a [k; i; j; ch].
Proof.
  intros Hs. unfold transpose, ndim. rewrite Hs.
  rewrite bool_decide_eq_true_2 by (by apply (bool_decide_unpack _)).
  eexists. split; [done|]. simpl. done.
Qed.

Section Rank4.
Context {A B C : Type} (err : py_error) (f : A -> B -> C).

(** Elementwise operation on two 4-D arrays of one shape. *)
Lemma map2_same (a : ndarray A) (x : ndarray B) (b c h w : nat) :
  shape a = [b; c; h; w] -> shape x = [b; c; h; w] ->
  exists out, map2 err f a x = Ok out
    /\ shape out = [b; c; h; w]
    /\ forall n ch i j, (n < b)%nat -> (ch < c)%nat -> (i < h)%nat -> (j < w)%nat ->
         get out [n; ch; i; j] = f (get a [n; ch; i; j]) (get x [n; ch; i; j]).
Proof.
  intros Ha Hx. unfold map2, broadcast_shapes. rewrite Ha, Hx. simpl.
  rewrite !bdim_same. simpl.
  eexists. split; [done|]. split; [done|]. intros n ch i j Hn Hch Hi Hj.
  unfold bindex. simpl. by rewrite !clamp_in_range by lia.
Qed.

(** A per-sample coefficient of shape [b x 1 x 1 x 1] on the left. *)
Lemma map2_coefficient (a : ndarray A) (x : ndarray B) (b c h w : nat) :
  shape a = [b; 1; 1; 1]%nat -> shape x = [b; c; h; w] ->
  exists out, map2 err f a x = Ok out
    /\ shape out = [b; c; h; w]
    /\ forall n ch i j, (n < b)%nat -> (ch < c)%nat -> (i < h)%nat -> (j < w)%nat ->
         get out [n; ch; i; j] = f (get a [n; 0; 0; 0]%nat) (get x [n; ch; i; j]).
Proof.
  intros Ha Hx. unfold map2, broadcast_shapes. rewrite Ha, Hx. simpl.
  rewrite !bdim_1_l, bdim_same. simpl.
  eexists. split; [done|]. split; [done|]. intros n ch i j Hn Hch Hi Hj.
  unfold bindex. simpl. by rewrite !clamp_1, !clamp_in_range by lia.
Qed.
End Rank4.

(** The same coefficient on the right of an in-place operation. *)
Lemma map2__coefficient {A B} (err : py_error) (f : A -> B -> A)
    (x : ndarray A) (a : ndarray B) (b c h w : nat) :
  shape x = [b; c; h; w] -> shape a = [b; 1; 1; 1]%nat ->
  exists out, map2_ err f x a = Ok out
    /\ shape out = [b; c; h; w]
    /\ forall n ch i j, (n < b)%nat -> (ch < c)%nat -> (i < h)%nat -> (j < w)%nat ->
         get out [n; ch; i; j] = f (get x [n; ch; i; j]) (get a [n; 0; 0; 0]%nat).
Proof.
  intros Hx Ha. unfold map2_, broadcast_shapes. rewrite Ha, Hx. simpl.
  rewrite !bdim_1_r, bdim_same. simpl. rewrite decide_True by done.
  eexists. split; [done|]. split; [done|]. intros n ch i j Hn Hch Hi Hj.
  unfold bindex. simpl. by rewrite !clamp_1, !clamp_in_range by lia.
Qed.

Lemma slice1_to_ok {A} (k : nat) (a : ndarray A) (b c h w : nat) :
  shape a = [b; c; h; w] -> (k <= c)%nat ->
  exists out, slice1_to k a = Ok out
    /\ shape out = [b; k; h; w]
    /\ forall ix, get out ix = get a ix.
Proof.
  intros Ha Hk. unfold slice1_to. rewrite Ha, Nat.min_l by done.
  eexists. by split.
Qed.

Lemma slice1_from_ok {A} (k : nat) (a : ndarray A) (b c h w : nat) :
  shape a = [b; c; h; w] ->
  exists out, slice1_from k a = Ok out
    /\ shape out = [b; (c - k)%nat; h; w]
    /\ forall n ch i j, get out [n; ch; i; j] = get a [n; (ch + k)%nat; i; j].
Proof. intros Ha. unfold slice1_from. rewrite Ha. eexists. by split. Qed.

Lemma cat1_ok {A} (a x : ndarray A) (b c1 c2 h w : nat) :
  shape a = [b; c1; h; w] -> shape x = [b; c2; h; w] ->
  exists out, cat1 a x = Ok out
    /\ shape out = [b; (c1 + c2)%nat; h; w]
    /\ forall n ch i j,
         get out [n; ch; i; j]
         = if (ch <? c1)%nat then get a [n; ch; i; j]
           else get x [n; (ch - c1)%nat; i; j].
Proof.
  intros Ha Hx. unfold cat1. rewrite Ha, Hx, decide_True by done.
  eexists. by split.
Qed.

End NdFacts.

(** ** Paste-back compositing *)
Module RepaintFacts.
Import PIL Repaint NdFacts.

Lemma astype_uint8_integer (q : Q) (z : Z) :
  (q == inject_Z z)%Q -> 0 <= z < 256 -> astype_uint8 q = z.
Proof.
  intros E Hz. unfold astype_uint8. unfold Qeq in E. simpl in E.
  rewrite Z.mul_1_r in E. rewrite E, Z.quot_mul by done.
  by apply Z.mod_small.
Qed.

Lemma blend_full (r p : Z) :
  (inject_Z r * (inject_Z 255 / 255) + inject_Z p * (1 - inject_Z 255 / 255)
   == inject_Z r)%Q.
Proof. field. Qed.

Lemma blend_empty (r p : Z) :
  (inject_Z r * (inject_Z 0 / 255) + inject_Z p * (1 - inject_Z 0 / 255)
   == inject_Z p)%Q.
Proof. field. Qed.

Lemma pixel_bands (p : pixel) : (band 0 p, band 1 p, band 2 p) = p.
Proof. by destruct p as [[??]?]. Qed.

(** The compositing rule, pixel by pixel and band by band:
    [result * mask + person * (1 - mask)] with the mask scaled by 1/255, cast
    to 8 bits.  It is stated for masks of 0 and 255, where the products and
    the sum are exact in floating point as well. *)
Lemma repaint_result_pixels (result person mask : image) :
  mode result = RGB -> mode person = RGB -> mode mask = L ->
  0 <= width result -> 0 <= height result ->
  width person = width result -> height person = height result ->
  width mask = width result -> height mask = height result ->
  (forall x y, 0 <= x < width result -> 0 <= y < height result ->
     band 0 (getpixel mask x y) = 0 \/ band 0 (getpixel mask x y) = 255) ->
  exists out, repaint_result result person mask = Ok out /\
    mode out = RGB /\ width out = width result /\ height out = height result /\
    forall x y, 0 <= x < width result -> 0 <= y < height result ->
      getpixel out x y =
        let m := (inject_Z (band 0 (getpixel mask x y)) / 255)%Q in
        let v c := astype_uint8
                     (inject_Z (band c (getpixel result x y)) * m
                      + inject_Z (band c (getpixel person x y)) * (1 - m))%Q in
        (v 0%nat, v 1%nat, v 2%nat).
Proof.
  intros Hr Hp Hm Hw Hh Ewp Ehp Ewm Ehm _. unfold repaint_result, to_array.
  rewrite Hr, Hp, Hm, Ewp, Ehp, Ewm, Ehm.
  unfold Nd.map2, Nd.unsqueeze, Nd.broadcast_shapes. simpl.
  rewrite !bdim_same. simpl. rewrite !bdim_same. simpl.
  eexists. split; [reflexivity|]. simpl. rewrite !Z2Nat.id by done.
  repeat split.
  intros x y Hx Hy. unfold Nd.bindex. simpl.
  rewrite !(clamp_in_range _ (Z.to_nat _)) by lia. rewrite !Z2Nat.id by lia. done.
Qed.

(** C5. For RGB images [result] and [person] of one size and an [L] mask of
    that size: when every mask pixel is 255 the returned image is
    pixel-identical to [result], and when every mask pixel is 0 it is
    pixel-identical to [person]. *)
Theorem repaint_result_full_and_empty_mask (result person mask : image) :
  mode result = RGB -> mode person = RGB -> mode mask = L ->
  0 <= width result -> 0 <= height result ->
  width person = width result -> height person = height result ->
  width mask = width result -> height mask = height result ->
  eight_bit result -> eight_bit person ->
  ((forall x y, 0 <= x < width result -> 0 <= y < height result ->
      band 0 (getpixel mask x y) = 255) ->
   exists out, repaint_result result person mask = Ok out /\
     mode out = RGB /\ width out = width result /\ height out = height result /\
     forall x y, 0 <= x < width result -> 0 <= y < height result ->
       getpixel out x y = getpixel result x y) /\
  ((forall x y, 0 <= x < width result -> 0 <= y < height result ->
      band 0 (getpixel mask x y) = 0) ->
   exists out, repaint_result result person mask = Ok out /\
     mode out = RGB /\ width out = width result /\ height out = height result /\
     forall x y, 0 <= x < width result -> 0 <= y < height result ->
       getpixel out x y = getpixel person x y).
Proof.
  intros Hr Hp Hm Hw Hh Ewp Ehp Ewm Ehm Br Bp.
  split; intros Hmask;
    (destruct (repaint_result_pixels result person mask)
       as (out & E & Em & Ew & Eh & Px); try done; [by auto|]);
    exists out; (repeat split; try done); intros x y Hx Hy;
    rewrite Px by done; simpl; rewrite Hmask by done.
  - rewrite !(astype_uint8_integer _ _ (blend_full _ _)) by by apply Br.
    apply pixel_bands.
  - rewrite !(astype_uint8_integer _ _ (blend_empty _ _))
      by (apply Bp; rewrite ?Ewp, ?Ehp; done).
    apply pixel_bands.
Qed.

Lemma eight_bit_sample_result : eight_bit sample_result.
Proof. intros x y [|[|c]] Hx Hy; simpl in *; lia. Qed.

Lemma eight_bit_sample_person : eight_bit sample_person.
Proof. intros x y [|[|c]] Hx Hy; simpl in *; lia. Qed.

Lemma repaint_result_full_and_empty_mask_witness :
  exists out, repaint_result sample_result sample_person full_mask = Ok out /\
    mode out = RGB /\ width out = 2 /\ height out = 1 /\
    forall x y, 0 <= x < 2 -> 0 <= y < 1 ->
      getpixel out x y = getpixel sample_result x y.
Proof.
  apply (repaint_result_full_and_empty_mask sample_result sample_person full_mask);
    try reflexivity; try (simpl; lia).
  - apply eight_bit_sample_result.
  - apply eight_bit_sample_person.
Defined.

(** The two cases, run. *)
Example repaint_result_runs_full :
  exists out, repaint_result sample_result sample_person full_mask = Ok out /\
    getpixel out 1 0 = (11, 20, 255).
Proof. eexists. split; [reflexivity|]. by vm_compute. Qed.

Example repaint_result_runs_empty :
  exists out, repaint_result sample_result sample_person empty_mask = Ok out /\
    getpixel out 1 0 = (0, 101, 200).
Proof. eexists. split; [reflexivity|]. by vm_compute. Qed.

End RepaintFacts.

(** ** Mask normalisation *)
Module PrepareMaskFacts.
Import PrepareMask NdFacts.

Lemma two_assignments (v : Q) : above_to_1 (below_to_0 v) = binarize v.
Proof.
  unfold above_to_1, below_to_0, binarize, Qltb.
  destruct (Qle_bool half v) eqn:E; simpl; [by rewrite E | done].
Qed.

Lemma binarize_binary (v : Q) : binary (binarize v).
Proof. unfold binarize, binary. destruct (Qltb v half); auto. Qed.

Lemma binarize_all_binary (data : list Q) : Forall binary (binarize <$> data).
Proof. apply Forall_fmap, Forall_true. intros v. apply binarize_binary. Qed.

Lemma binarize_fixed (data : list Q) : binarize <$> data = data -> Forall binary data.
Proof. intros <-. apply binarize_all_binary. Qed.

(** An 8-bit pixel scaled by 1/255 is below the threshold exactly when it is
    at most 127. *)
Lemma binarize_pixel (g : Z) :
  binarize (inject_Z g / 255) = if g <=? 127 then 0%Q else 1%Q.
Proof.
  unfold binarize, half.
  change (1 # 2)%Q with (inject_Z 1 / inject_Z 2)%Q.
  change 255%Q with (inject_Z 255).
  rewrite Qltb_div_pos by lia.
  destruct (Z.ltb_spec (g * 2) (1 * 255)), (Z.leb_spec g 127); done || lia.
Qed.

Lemma unsqueeze_storage (k : nat) (t : tensor) : storage (unsqueeze k t) = storage t.
Proof. done. Qed.

(** The view returned for a tensor argument is on the argument's storage. *)
Lemma tensor_view_storage (t : tensor) :
  storage (match shape t with
           | [_; _] => unsqueeze 0 (unsqueeze 0 t)
           | [1%nat; _; _] => unsqueeze 0 t
           | [_; _; _] => unsqueeze 1 t
           | _ => t
           end) = storage t.
Proof.
  by repeat case_match.
Qed.

(** The tensor branch: the result is a view of the argument, and the
    argument's storage holds the binarized values afterwards. *)
Lemma prepare_tensor (t : tensor) (st : gmap loc (list Q)) (data : list Q) :
  st !! storage t = Some data ->
  exists t', prepare_mask_image (Tensor t) st
             = (Ok t', <[storage t := binarize <$> data]> st)
    /\ storage t' = storage t.
Proof.
  intros Hst. simpl. eexists. split; [|apply tensor_view_storage].
  f_equal. unfold assign_above, assign_below. rewrite !tensor_view_storage.
  apply map_eq. intros l. destruct (decide (l = storage t)) as [->|Hne].
  - rewrite lookup_insert_eq, !lookup_alter_eq, Hst. simpl. f_equal.
    rewrite <- list_fmap_compose. apply list_fmap_ext. intros _ v _.
    apply two_assignments.
  - by rewrite lookup_insert_ne, !lookup_alter_ne.
Qed.

(** The other branches: the result is a new tensor on a new buffer holding
    the binarized stack of masks. *)
Lemma prepare_stacked (mask_image : arg) (st st' : gmap loc (list Q)) (t' : tensor) :
  (forall t, mask_image <> Tensor t) ->
  prepare_mask_image mask_image st = (Ok t', st') ->
  exists arr, stack_masks (items_of mask_image) = Ok arr
    /\ shape t' = Nd.shape arr
    /\ st !! storage t' = None
    /\ st' = <[storage t' := binarize <$> Nd.flatten arr]> st.
Proof.
  intros Hnt H.
  assert (match stack_masks (items_of mask_image) with
          | Raise e => (Raise e, st)
          | Ok a =>
              let a := Nd.map below_to_0 a in
              let a := Nd.map above_to_1 a in
              let '(t, st) := from_numpy a st in (Ok t, st)
          end = (Ok t', st')) as H'.
  { destruct mask_image; try done. by destruct (Hnt t). }
  clear H. destruct (stack_masks _) as [arr|e]; [|done].
  simpl in H'. injection H' as <- <-. exists arr. simpl.
  split; [done|]. split; [done|]. split.
  - apply not_elem_of_dom, is_fresh.
  - f_equal. unfold Nd.flatten. simpl. rewrite <- list_fmap_compose.
    apply list_fmap_ext. intros _ ix _. apply two_assignments.
Qed.

Local Arguments Nd.indices : simpl never.

(** A single grey PIL image: the result is a new 1 x 1 x h x w tensor that
    holds 0 where the pixel is at most 127 and 1 where it is at least 128. *)
Lemma prepare_mask_image_pil (im : PIL.image) (st : gmap loc (list Q)) :
  PIL.mode im = PIL.L ->
  let h := Z.to_nat (PIL.height im) in
  let w := Z.to_nat (PIL.width im) in
  prepare_mask_image (PILImage im) st
  = (Ok (TensorView (fresh (dom st)) [1; 1; h; w]%nat),
     <[fresh (dom st) :=
         (fun ix => match ix with
                    | [_; _; y; x] =>
                        if PIL.band 0 (PIL.getpixel im (Z.of_nat x) (Z.of_nat y)) <=? 127
                        then 0%Q else 1%Q
                    | _ => 0%Q
                    end) <$> Nd.indices [1; 1; h; w]%nat]> st).
Proof.
  destruct im as [m iw ih px]. simpl. intros ->. simpl.
  unfold from_numpy. simpl. do 2 f_equal. unfold Nd.flatten.
  cbn [Nd.shape Nd.get]. apply list_fmap_ext. intros _ ix Hix%list_elem_of_lookup_2.
  apply indices_in_bounds in Hix.
  destruct ix as [|n [|c [|y [|x [|]]]]]; try done.
  cbn. rewrite two_assignments. apply binarize_pixel.
Qed.


Example prepare_mask_image_runs_pil :
  prepare_mask_image (PILImage gray_mask) ∅
  = (Ok (TensorView 1%positive [1; 1; 1; 2]%nat), {[ 1%positive := [0; 1]%Q ]}).
Proof. by vm_compute. Qed.


(** Arrays are not rescaled: the values 0..255 of an integer array are
    compared with 0.5 as they are. *)
Example prepare_mask_image_runs_array :
  prepare_mask_image
    (PyList [ItemArray (Nd.Array [1; 2]%nat (fun ix => inject_Z (Z.of_nat (ix !!! 1%nat))));
             ItemArray (Nd.Array [1; 2]%nat (fun _ => 255%Q))]) ∅
  = (Ok (TensorView 1%positive [2; 1; 1; 2]%nat), {[ 1%positive := [0; 1; 1; 1]%Q ]}).
Proof. by vm_compute. Qed.

(** A list that mixes PIL images and arrays is rejected. *)
Example prepare_mask_image_mixed :
  prepare_mask_image
    (PyList [ItemPIL gray_mask; ItemArray (Nd.Array [1; 2]%nat (fun _ => 0%Q))]) ∅
  = (Raise AttributeError, ∅).
Proof. by vm_compute. Qed.

(** C10. For a tensor argument the returned tensor is a view on the storage
    of the argument, and the binarization is written into that storage: after
    the call the caller's storage holds the binarized values, every other
    buffer of the store is as before, and the store has changed unless the
    values were all 0 or 1 already. *)
Theorem prepare_mask_image_mutates_tensor (t : tensor) (st : gmap loc (list Q))
    (data : list Q) :
  st !! storage t = Some data ->
  exists t' st',
    prepare_mask_image (Tensor t) st = (Ok t', st')
    /\ storage t' = storage t
    /\ st' !! storage t = Some (binarize <$> data)
    /\ (forall l, l <> storage t -> st' !! l = st !! l)
    /\ (~ Forall binary data -> st' <> st).
Proof.
  intros Hst. destruct (prepare_tensor t st data Hst) as (t' & E & Es).
  exists t', (<[storage t := binarize <$> data]> st).
  split; [done|]. split; [done|]. split; [apply lookup_insert_eq|]. split.
  - intros l Hl. by rewrite lookup_insert_ne.
  - intros Hnb Heq. apply Hnb, binarize_fixed.
    assert (<[storage t := binarize <$> data]> st !! storage t = Some data) as H
      by by rewrite Heq.
    rewrite lookup_insert_eq in H. congruence.
Qed.

Lemma prepare_mask_image_mutates_tensor_witness :
  exists t' st',
    prepare_mask_image (Tensor (TensorView 5%positive [2; 2]%nat)) caller_store = (Ok t', st')
    /\ storage t' = 5%positive
    /\ st' !! 5%positive = Some (binarize <$> [0; 3 # 10; 1 # 2; 200]%Q)
    /\ (forall l, l <> 5%positive -> st' !! l = caller_store !! l)
    /\ (~ Forall binary [0; 3 # 10; 1 # 2; 200]%Q -> st' <> caller_store).
Proof.
  apply (prepare_mask_image_mutates_tensor (TensorView 5%positive [2; 2]%nat) caller_store).
  reflexivity.
Defined.

Example prepare_mask_image_runs_tensor :
  prepare_mask_image (Tensor (TensorView 5%positive [2; 2]%nat)) caller_store
  = (Ok (TensorView 5%positive [1; 1; 2; 2]%nat), {[ 5%positive := [0; 0; 1; 1]%Q ]}).
Proof. by vm_compute. Qed.

End PrepareMaskFacts.


(** ** Image normalisation *)
Module PrepareImageFacts.
Import PrepareImage NdFacts.

Lemma scaled_range (v : Q) : (0 <= v <= 255 -> -1 <= v / (255 # 2) - 1 <= 1)%Q.
Proof.
  intros [H0 H1].
  assert (v / (255 # 2) == v * (2 # 255))%Q as -> by field.
  split; Lqa.lra.
Qed.

Lemma raster_pil_shape (im : PIL.image) :
  Nd.shape (raster (ItemPIL im))
  = [Z.to_nat (PIL.height im); Z.to_nat (PIL.width im); 3%nat].
Proof. by destruct im as [[] w h px]. Qed.

Lemma newaxis_ok (a : Nd.ndarray Q) (h w c : nat) :
  Nd.shape a = [h; w; c] -> newaxis a = Ok (Nd.unsqueeze 0 a).
Proof. intros Hs. unfold newaxis, Nd.ndim. by rewrite Hs. Qed.

Lemma stack_ok (l : list item) (h w c : nat) :
  l <> [] -> same_kind l ->
  Forall (fun i => Nd.shape (raster i) = [h; w; c]) l ->
  stack l = Nd.concatenate0 (Nd.unsqueeze 0 ∘ raster <$> l).
Proof.
  intros Hne Hkind Hshape. destruct l as [|i0 l]; [done|].
  destruct i0 as [im|a]; unfold stack.
  - destruct Hkind as [Hk|Hk]; [|by apply Forall_cons in Hk as [[] _]].
    erewrite mapM_ok; [done|].
    apply Forall_forall. intros i Hi. rewrite Forall_forall in Hk, Hshape.
    specialize (Hk i Hi). specialize (Hshape i Hi). destruct i; [|done].
    by apply (newaxis_ok _ h w c).
  - destruct Hkind as [Hk|Hk]; [by apply Forall_cons in Hk as [[] _]|].
    erewrite mapM_ok; [done|].
    apply Forall_forall. intros i Hi. rewrite Forall_forall in Hk, Hshape.
    specialize (Hk i Hi). specialize (Hshape i Hi). destruct i; [done|].
    by apply (newaxis_ok _ h w c).
Qed.

Lemma prepare_image_stack (l : list item) :
  prepare_image (PyList l)
  = (image ← stack l;
     image ← Nd.transpose [0; 3; 1; 2]%nat image;
     Ok (Nd.map (fun v => v / (255 # 2) - 1)%Q image)).
Proof. by destruct l as [|[|] l]. Qed.

(** The list branch: stack, move the channels first, rescale. *)
Lemma prepare_image_list (l : list item) (h w c : nat) :
  l <> [] -> same_kind l ->
  Forall (fun i => Nd.shape (raster i) = [h; w; c]) l ->
  exists out, prepare_image (PyList l) = Ok out
    /\ Nd.shape out = [length l; c; h; w]
    /\ forall k i ch y x, l !! k = Some i ->
         Nd.get out [k; ch; y; x] = (Nd.get (raster i) [y; x; ch] / (255 # 2) - 1)%Q.
Proof.
  intros Hne Hkind Hshape.
  rewrite prepare_image_stack, (stack_ok l h w c) by done.
  destruct (concatenate0_stack (Nd.unsqueeze 0 ∘ raster <$> l) [h; w; c])
    as (st & -> & Es & Eg).
  { by destruct l. }
  { apply Forall_fmap. eapply Forall_impl; [done|]. intros i Hi. simpl.
    by rewrite Hi. }
  rewrite length_fmap in Es.
  destruct (transpose_channel_first st _ _ _ _ Es) as (tr & Et & Ets & Etg).
  simpl. rewrite Et. simpl. eexists. split; [done|]. simpl. split; [done|].
  intros k i ch y x Hk. rewrite Etg.
  rewrite (Eg k (Nd.unsqueeze 0 (raster i))); [done|].
  by rewrite list_lookup_fmap, Hk.
Qed.

(** The tensor branch: a batch axis in front of a 3-D tensor, and the values
    as they are. *)
Lemma prepare_image_tensor (t : Nd.ndarray Q) :
  exists out, prepare_image (Tensor t) = Ok out
    /\ (Nd.ndim t = 3%nat ->
        Nd.shape out = 1%nat :: Nd.shape t
        /\ forall ix, Nd.get out (0%nat :: ix) = Nd.get t ix)
    /\ (Nd.ndim t <> 3%nat -> out = t).
Proof.
  simpl. eexists. split; [done|]. destruct (decide (Nd.ndim t = 3%nat)); by split.
Qed.

(** C6, as stated, fails on tensors: a tensor holding 255 comes back holding
    255, which is neither 255 / 127.5 - 1 = 1 nor inside [-1, 1]. *)
Lemma prepare_image_tensor_not_scaled :
  exists out, prepare_image (Tensor white_tensor) = Ok out
    /\ Nd.shape out = [1; 1; 1; 1]%nat
    /\ Nd.get out [0; 0; 0; 0]%nat = 255%Q
    /\ ~ (Nd.get out [0; 0; 0; 0]%nat
          == Nd.get white_tensor [0; 0; 0]%nat / (255 # 2) - 1)%Q
    /\ ~ (-1 <= Nd.get out [0; 0; 0; 0]%nat <= 1)%Q.
Proof.
  eexists. split; [reflexivity|]. simpl. split; [done|]. split; [done|]. split.
  - intros H. by vm_compute in H.
  - intros [_ H]. by vm_compute in H.
Qed.

(** C6, amended. For a PIL image, an array, or a non-empty list of PIL images
    or of arrays (not mixed) that all have the channel-last shape
    [h x w x c], [prepare_image] returns a batched channel-first tensor of
    shape [n x c x h x w] whose element [(k, ch, y, x)] is element
    [(y, x, ch)] of the [k]-th image mapped by [v / 127.5 - 1], inside
    [-1, 1] for a pixel value in [0, 255].  A tensor argument is returned
    with its values as they are, behind a new batch axis when it is 3-D. *)
Theorem prepare_image_channel_first_scaled :
  (forall (l : list item) (h w c : nat),
      l <> [] -> same_kind l ->
      Forall (fun i => Nd.shape (raster i) = [h; w; c]) l ->
      exists out, prepare_image (PyList l) = Ok out
        /\ Nd.shape out = [length l; c; h; w]
        /\ forall k i ch y x, l !! k = Some i ->
             Nd.get out [k; ch; y; x]
             = (Nd.get (raster i) [y; x; ch] / (255 # 2) - 1)%Q
             /\ ((0 <= Nd.get (raster i) [y; x; ch] <= 255)%Q ->
                 (-1 <= Nd.get out [k; ch; y; x] <= 1)%Q))
  /\ (forall im, prepare_image (PILImage im) = prepare_image (PyList [ItemPIL im]))
  /\ (forall a, prepare_image (NdArray a) = prepare_image (PyList [ItemArray a]))
  /\ (forall t, exists out, prepare_image (Tensor t) = Ok out
        /\ (Nd.ndim t = 3%nat ->
            Nd.shape out = 1%nat :: Nd.shape t
            /\ forall ix, Nd.get out (0%nat :: ix) = Nd.get t ix)
        /\ (Nd.ndim t <> 3%nat -> out = t)).
Proof.
  split; [|split; [done|split; [done|apply prepare_image_tensor]]].
  intros l h w c Hne Hkind Hshape.
  destruct (prepare_image_list l h w c Hne Hkind Hshape) as (out & E & Es & Eg).
  exists out. split; [done|]. split; [done|].
  intros k i ch y x Hk. rewrite (Eg k i ch y x Hk). split; [done|].
  apply scaled_range.
Qed.

Lemma prepare_image_channel_first_scaled_witness :
  exists out, prepare_image (PyList [ItemPIL first_image; ItemPIL second_image]) = Ok out
    /\ Nd.shape out = [2; 3; 1; 2]%nat
    /\ forall k i ch y x,
         [ItemPIL first_image; ItemPIL second_image] !! k = Some i ->
         Nd.get out [k; ch; y; x]
         = (Nd.get (raster i) [y; x; ch] / (255 # 2) - 1)%Q
         /\ ((0 <= Nd.get (raster i) [y; x; ch] <= 255)%Q ->
             (-1 <= Nd.get out [k; ch; y; x] <= 1)%Q).
Proof.
  apply (proj1 prepare_image_channel_first_scaled
           [ItemPIL first_image; ItemPIL second_image] 1%nat 2%nat 3%nat).
  - discriminate.
  - left. repeat constructor.
  - repeat constructor.
Defined.

Example prepare_image_runs :
  exists out, prepare_image (PyList [ItemPIL first_image; ItemPIL second_image]) = Ok out
    /\ Nd.shape out = [2; 3; 1; 2]%nat
    /\ Qred <$> Nd.flatten out
       = [-1; -1; -1; 1; -(3 # 5); -(3 # 5); 1; 1; -(1 # 5); -(1 # 5); -1; -1]%Q.
Proof. eexists. split; [reflexivity|]. split; [done|]. by vm_compute. Qed.

(** A list that mixes PIL images and arrays is rejected. *)
Example prepare_image_mixed :
  prepare_image (PyList [ItemArray white_tensor; ItemPIL first_image]) = Raise TypeError.
Proof. reflexivity. Qed.

End PrepareImageFacts.

(** ** DREAM rectification *)
Module DreamFacts.
Import Dream NdFacts.
Local Open Scope R_scope.

Lemma indices_1 (b : nat) (ix : list nat) :
  In ix (Nd.indices [b]) -> exists n, ix = [n] /\ (n < b)%nat.
Proof.
  intros H%list_elem_of_In. simpl in H.
  apply list_elem_of_bind in H as (n & H & Hn).
  apply list_elem_of_singleton in H as ->. exists n. split; [done|].
  apply elem_of_seq in Hn. lia.
Qed.

Lemma gather3_ok (noise_scheduler : scheduler) (timesteps : Nd.ndarray Z) (b : nat) :
  timesteps_in_range noise_scheduler timesteps b ->
  exists a, Nd.gather3 0 (alphas_cumprod noise_scheduler) timesteps = Ok a
    /\ Nd.shape a = [b; 1; 1; 1]%nat
    /\ forall n x y z, Nd.get a [n; x; y; z] = alpha_at noise_scheduler timesteps n.
Proof.
  intros [Hs Hr]. unfold Nd.gather3.
  assert (forallb
            (fun ix => bool_decide (is_Some (Nd.norm_index
                                               (length (alphas_cumprod noise_scheduler))
                                               (Nd.get timesteps ix))))
            (Nd.indices (Nd.shape timesteps)) = true) as ->.
  { apply forallb_forall. intros ix Hix. rewrite Hs in Hix.
    apply indices_1 in Hix as (n & -> & Hn). apply bool_decide_eq_true_2. auto. }
  eexists. split; [done|]. unfold Nd.ndim. rewrite Hs. simpl. done.
Qed.

Lemma rpow_0 (x : R) : rpow x 0 = 1.
Proof.
  unfold rpow. destruct (Req_dec_T x 0); [by destruct (Req_dec_T 0 0)|].
  unfold Rpower. by rewrite Rmult_0_l, exp_0.
Qed.

Section Unet.
Variable hidden_states : Type.
Variable unet : Nd.ndarray R -> Nd.ndarray Z -> hidden_states -> outcome (Nd.ndarray R).

Lemma dream_epsilon (noise_scheduler : scheduler) (timesteps : Nd.ndarray Z)
    (noise noisy_latents target pred : Nd.ndarray R) (ehs : hidden_states) (p : R)
    (b c h w : nat) :
  prediction_type noise_scheduler = "epsilon"%string ->
  timesteps_in_range noise_scheduler timesteps b ->
  unet noisy_latents timesteps ehs = Ok pred ->
  Nd.shape noisy_latents = [b; c; h; w] -> (4 <= c)%nat ->
  Nd.shape noise = [b; 4; h; w]%nat ->
  Nd.shape pred = [b; 4; h; w]%nat ->
  Nd.shape target = [b; 4; h; w]%nat ->
  exists nl tg,
    compute_dream_and_update_latents_for_inpaint hidden_states unet
      noise_scheduler timesteps noise noisy_latents target ehs p = Ok (nl, tg)
    /\ Nd.shape nl = [b; c; h; w]
    /\ Nd.shape tg = [b; 4; h; w]%nat
    /\ forall n ch i j, (n < b)%nat -> (ch < c)%nat -> (i < h)%nat -> (j < w)%nat ->
         let s := sqrt (1 - alpha_at noise_scheduler timesteps n) in
         let delta := rpow s p * (Nd.get noise [n; ch; i; j] - Nd.get pred [n; ch; i; j]) in
         Nd.get nl [n; ch; i; j]
         = (if (ch <? 4)%nat then Nd.get noisy_latents [n; ch; i; j] + s * delta
            else Nd.get noisy_latents [n; ch; i; j])
         /\ ((ch < 4)%nat ->
             Nd.get tg [n; ch; i; j] = Nd.get target [n; ch; i; j] + delta).
Proof.
  intros Hpt Hts Hunet Hnoisy Hc Hnoise Hpred Htarget.
  unfold compute_dream_and_update_latents_for_inpaint.
  destruct (gather3_ok _ _ _ Hts) as (a & -> & Has & Hag).
  rewrite bind_Ok, Hunet, bind_Ok.
  destruct (slice1_to_ok 4 noisy_latents b c h w) as (nc & -> & Hncs & Hncg); [done..|].
  rewrite bind_Ok, decide_True by done.
  destruct (map2_same shape_error Rminus noise pred b 4 h w)
    as (d0 & -> & Hd0s & Hd0g); [done..|].
  rewrite bind_Ok.
  destruct (map2__coefficient shape_error Rmult d0
              (Nd.map (fun s => rpow s p) (Nd.map (fun a => sqrt (1 - a)) a)) b 4 h w)
    as (d & -> & Hds & Hdg); [done..|].
  rewrite bind_Ok.
  destruct (map2_coefficient shape_error Rmult
              (Nd.map (fun a => sqrt (1 - a)) a) d b 4 h w)
    as (sc & -> & Hscs & Hscg); [done..|].
  rewrite bind_Ok.
  destruct (map2_same shape_error Rplus nc sc b 4 h w)
    as (nl0 & -> & Hnl0s & Hnl0g); [done..|].
  rewrite bind_Ok.
  destruct (map2_same shape_error Rplus target d b 4 h w)
    as (tg & -> & Htgs & Htgg); [done..|].
  rewrite !bind_Ok.
  destruct (slice1_from_ok 4 noisy_latents b c h w) as (cd & -> & Hcds & Hcdg); [done|].
  rewrite bind_Ok.
  destruct (cat1_ok nl0 cd b 4 (c - 4) h w) as (nl & -> & Hnls & Hnlg); [done..|].
  rewrite bind_Ok. exists nl, tg. split; [done|].
  split; [rewrite Hnls; by replace (4 + (c - 4))%nat with c by lia|]. split; [done|].
  intros n ch i j Hn Hch Hi Hj. simpl.
  assert (forall ch', (ch' < 4)%nat ->
            Nd.get d [n; ch'; i; j]
            = rpow (sqrt (1 - alpha_at noise_scheduler timesteps n)) p
              * (Nd.get noise [n; ch'; i; j] - Nd.get pred [n; ch'; i; j])) as Hdelta.
  { intros ch' Hch'. rewrite Hdg, Hd0g by done. simpl. rewrite Hag. ring. }
  rewrite Hnlg. split.
  - destruct (Nat.ltb_spec ch 4) as [Hlt|Hge].
    + rewrite Hnl0g, Hncg, Hscg, Hdelta by done. simpl. by rewrite Hag.
    + rewrite Hcdg. by replace (ch - 4 + 4)%nat with ch by lia.
  - intros Hlt. by rewrite Htgg, Hdelta.
Qed.

Lemma fails_on_shape_only_bind {A B} (r : outcome A) (k : A -> outcome B) :
  fails_on_shape_only r -> (forall a, fails_on_shape_only (k a)) ->
  fails_on_shape_only (r ≫= k).
Proof. destruct r; simpl; auto. Qed.

Lemma map2_fails_on_shape_only {A B C} (f : A -> B -> C) (a : Nd.ndarray A)
    (x : Nd.ndarray B) :
  fails_on_shape_only (Nd.map2 shape_error f a x).
Proof. unfold Nd.map2. by destruct (Nd.broadcast_shapes _ _). Qed.

Lemma map2__fails_on_shape_only {A B} (f : A -> B -> A) (a : Nd.ndarray A)
    (x : Nd.ndarray B) :
  fails_on_shape_only (Nd.map2_ shape_error f a x).
Proof.
  unfold Nd.map2_. destruct (Nd.broadcast_shapes _ _); [|done].
  by destruct (decide _).
Qed.

Lemma slice1_from_fails_on_shape_only {A} (k : nat) (a : Nd.ndarray A) :
  fails_on_shape_only (Nd.slice1_from k a).
Proof. unfold Nd.slice1_from. by destruct (Nd.shape a) as [|? [|??]]. Qed.

Lemma cat1_fails_on_shape_only {A} (a x : Nd.ndarray A) :
  fails_on_shape_only (Nd.cat1 a x).
Proof.
  unfold Nd.cat1.
  destruct (Nd.shape a) as [|? [|??]], (Nd.shape x) as [|? [|??]]; try done.
  by destruct (decide _).
Qed.

(** What the function returns once the schedule lookup, the forward pass and
    the channel slice have succeeded. *)
Lemma dream_by_prediction_type (noise_scheduler : scheduler) (timesteps : Nd.ndarray Z)
    (noise noisy_latents target pred : Nd.ndarray R) (ehs : hidden_states) (p : R)
    (b c h w : nat) :
  timesteps_in_range noise_scheduler timesteps b ->
  unet noisy_latents timesteps ehs = Ok pred ->
  Nd.shape noisy_latents = [b; c; h; w] ->
  let r := compute_dream_and_update_latents_for_inpaint hidden_states unet
             noise_scheduler timesteps noise noisy_latents target ehs p in
  if decide (prediction_type noise_scheduler = "epsilon"%string)
  then fails_on_shape_only r
  else if decide (prediction_type noise_scheduler = "v_prediction"%string)
  then r = Raise (NotImplementedError "DREAM has not been implemented for v-prediction")
  else r = Raise (ValueError ("Unknown prediction type "
                              ++ prediction_type noise_scheduler)).
Proof.
  intros Hts Hunet Hnoisy. simpl.
  unfold compute_dream_and_update_latents_for_inpaint.
  destruct (gather3_ok _ _ _ Hts) as (a & -> & Has & Hag).
  rewrite bind_Ok, Hunet, bind_Ok.
  unfold Nd.slice1_to. rewrite Hnoisy, bind_Ok.
  destruct (decide (_ = "epsilon"%string)); [|by destruct (decide _)].
  apply fails_on_shape_only_bind.
  - repeat (apply fails_on_shape_only_bind;
            [apply map2_fails_on_shape_only || apply map2__fails_on_shape_only
            | intros ?]).
    done.
  - intros [nl tg].
    apply fails_on_shape_only_bind; [apply slice1_from_fails_on_shape_only|].
    intros cd. apply fails_on_shape_only_bind; [apply cat1_fails_on_shape_only|].
    done.
Qed.

(** C2. With the prediction type "epsilon", [lambda = sqrt(1 - alpha) ** p]
    and [delta = lambda * (noise - predicted_noise)]: the returned noisy
    latents are, on the first four channels, the input plus
    [sqrt(1 - alpha) * delta], and on the remaining (conditioning) channels
    the input unchanged; the returned target is the input target plus
    [delta]. *)
Theorem dream_epsilon_update (noise_scheduler : scheduler) (timesteps : Nd.ndarray Z)
    (noise noisy_latents target pred : Nd.ndarray R) (ehs : hidden_states) (p : R)
    (b c h w : nat) :
  prediction_type noise_scheduler = "epsilon"%string ->
  timesteps_in_range noise_scheduler timesteps b ->
  unet noisy_latents timesteps ehs = Ok pred ->
  Nd.shape noisy_latents = [b; c; h; w] -> (4 <= c)%nat ->
  Nd.shape noise = [b; 4; h; w]%nat ->
  Nd.shape pred = [b; 4; h; w]%nat ->
  Nd.shape target = [b; 4; h; w]%nat ->
  exists nl tg,
    compute_dream_and_update_latents_for_inpaint hidden_states unet
      noise_scheduler timesteps noise noisy_latents target ehs p = Ok (nl, tg)
    /\ Nd.shape nl = Nd.shape noisy_latents
    /\ Nd.shape tg = Nd.shape target
    /\ forall n i j, (n < b)%nat -> (i < h)%nat -> (j < w)%nat ->
         let s := sqrt (1 - alpha_at noise_scheduler timesteps n) in
         let lambda := rpow s p in
         let delta ch := lambda * (Nd.get noise [n; ch; i; j] - Nd.get pred [n; ch; i; j]) in
         (forall ch, (ch < 4)%nat ->
            Nd.get nl [n; ch; i; j] = Nd.get noisy_latents [n; ch; i; j] + s * delta ch
            /\ Nd.get tg [n; ch; i; j] = Nd.get target [n; ch; i; j] + delta ch)
         /\ (forall ch, (4 <= ch < c)%nat ->
               Nd.get nl [n; ch; i; j] = Nd.get noisy_latents [n; ch; i; j]).
Proof.
  intros Hpt Hts Hunet Hnoisy Hc Hnoise Hpred Htarget.
  destruct (dream_epsilon noise_scheduler timesteps noise noisy_latents target pred
              ehs p b c h w) as (nl & tg & E & Hnl & Htg & Hg); try done.
  exists nl, tg. rewrite Hnoisy, Htarget. do 3 (split; [done|]).
  intros n i j Hn Hi Hj. simpl. split.
  - intros ch Hch. destruct (Hg n ch i j) as [Hget Htget]; [lia..|].
    rewrite Hget, Htget by done. by rewrite (proj2 (Nat.ltb_lt ch 4)).
  - intros ch [Hch Hch']. destruct (Hg n ch i j) as [Hget _]; [lia..|].
    rewrite Hget. by rewrite (proj2 (Nat.ltb_ge ch 4)).
Qed.

(** C3. Once the schedule lookup, the forward pass and the channel slice have
    succeeded: the function fails with NotImplementedError exactly when the
    prediction type is "v_prediction", with ValueError exactly when it is
    neither "epsilon" nor "v_prediction", and for "epsilon" it returns (given
    tensors of matching shapes). *)
Theorem dream_prediction_type_errors (noise_scheduler : scheduler)
    (timesteps : Nd.ndarray Z) (noise noisy_latents target pred : Nd.ndarray R)
    (ehs : hidden_states) (p : R) (b c h w : nat) :
  timesteps_in_range noise_scheduler timesteps b ->
  unet noisy_latents timesteps ehs = Ok pred ->
  Nd.shape noisy_latents = [b; c; h; w] ->
  let r := compute_dream_and_update_latents_for_inpaint hidden_states unet
             noise_scheduler timesteps noise noisy_latents target ehs p in
  ((exists msg, r = Raise (NotImplementedError msg))
   <-> prediction_type noise_scheduler = "v_prediction"%string)
  /\ ((exists msg, r = Raise (ValueError msg))
      <-> prediction_type noise_scheduler <> "epsilon"%string
          /\ prediction_type noise_scheduler <> "v_prediction"%string)
  /\ (prediction_type noise_scheduler = "epsilon"%string ->
      (4 <= c)%nat ->
      Nd.shape noise = [b; 4; h; w]%nat ->
      Nd.shape pred = [b; 4; h; w]%nat ->
      Nd.shape target = [b; 4; h; w]%nat ->
      exists out, r = Ok out).
Proof.
  intros Hts Hunet Hnoisy r.
  pose proof (dream_by_prediction_type noise_scheduler timesteps noise noisy_latents
                target pred ehs p b c h w Hts Hunet Hnoisy) as H.
  simpl in H. fold r in H. split; [|split].
  - destruct (decide (_ = "epsilon"%string)) as [He|He].
    + split; [|congruence]. intros [msg Hr]. by rewrite Hr in H.
    + destruct (decide (_ = "v_prediction"%string)) as [Hv|Hv].
      * split; [done|]. intros _. eauto.
      * split; [|done]. intros [msg Hr]. congruence.
  - destruct (decide (_ = "epsilon"%string)) as [He|He].
    + split; [|tauto]. intros [msg Hr]. by rewrite Hr in H.
    + destruct (decide (_ = "v_prediction"%string)) as [Hv|Hv].
      * split; [|tauto]. intros [msg Hr]. congruence.
      * split; [done|]. intros _. eauto.
  - intros He Hc Hnoise Hpred Htarget.
    destruct (dream_epsilon noise_scheduler timesteps noise noisy_latents target pred
                ehs p b c h w) as (nl & tg & E & _); try done.
    by exists (nl, tg).
Qed.

(** C1, amended. With [dream_detail_preservation = 0] the weight [lambda] is
    1: on the first four channels the returned noisy latents are the input
    plus [sqrt(1 - alpha) * (noise - predicted_noise)] and the returned
    target is the input target plus [noise - predicted_noise]; the
    conditioning channels are unchanged.  The tensors come back unchanged
    where the predicted noise equals the noise. *)
Theorem dream_zero_detail_preservation (noise_scheduler : scheduler)
    (timesteps : Nd.ndarray Z) (noise noisy_latents target pred : Nd.ndarray R)
    (ehs : hidden_states) (b c h w : nat) :
  prediction_type noise_scheduler = "epsilon"%string ->
  timesteps_in_range noise_scheduler timesteps b ->
  unet noisy_latents timesteps ehs = Ok pred ->
  Nd.shape noisy_latents = [b; c; h; w] -> (4 <= c)%nat ->
  Nd.shape noise = [b; 4; h; w]%nat ->
  Nd.shape pred = [b; 4; h; w]%nat ->
  Nd.shape target = [b; 4; h; w]%nat ->
  exists nl tg,
    compute_dream_and_update_latents_for_inpaint hidden_states unet
      noise_scheduler timesteps noise noisy_latents target ehs 0 = Ok (nl, tg)
    /\ Nd.shape nl = Nd.shape noisy_latents
    /\ Nd.shape tg = Nd.shape target
    /\ forall n i j, (n < b)%nat -> (i < h)%nat -> (j < w)%nat ->
         let s := sqrt (1 - alpha_at noise_scheduler timesteps n) in
         (forall ch, (ch < 4)%nat ->
            let d := Nd.get noise [n; ch; i; j] - Nd.get pred [n; ch; i; j] in
            Nd.get nl [n; ch; i; j] = Nd.get noisy_latents [n; ch; i; j] + s * d
            /\ Nd.get tg [n; ch; i; j] = Nd.get target [n; ch; i; j] + d
            /\ (d = 0 ->
                Nd.get nl [n; ch; i; j] = Nd.get noisy_latents [n; ch; i; j]
                /\ Nd.get tg [n; ch; i; j] = Nd.get target [n; ch; i; j]))
         /\ (forall ch, (4 <= ch < c)%nat ->
               Nd.get nl [n; ch; i; j] = Nd.get noisy_latents [n; ch; i; j]).
Proof.
  intros Hpt Hts Hunet Hnoisy Hc Hnoise Hpred Htarget.
  destruct (dream_epsilon noise_scheduler timesteps noise noisy_latents target pred
              ehs 0 b c h w) as (nl & tg & E & Hnl & Htg & Hg); try done.
  exists nl, tg. rewrite Hnoisy, Htarget. do 3 (split; [done|]).
  intros n i j Hn Hi Hj. simpl. split.
  - intros ch Hch. destruct (Hg n ch i j) as [Hget Htget]; [lia..|].
    rewrite Hget, Htget by done. rewrite (proj2 (Nat.ltb_lt ch 4)) by done.
    rewrite rpow_0, Rmult_1_l. do 2 (split; [done|]).
    intros ->. split; ring.
  - intros ch [Hch Hch']. destruct (Hg n ch i j) as [Hget _]; [lia..|].
    rewrite Hget. by rewrite (proj2 (Nat.ltb_ge ch 4)).
Qed.
End Unet.

Lemma sample_timesteps_in_range (prediction_type : string) :
  timesteps_in_range (sample_scheduler prediction_type) sample_timesteps 1.
Proof. split; [done|]. intros n _. by eexists. Defined.

Lemma sqrt_quarter : sqrt (1 - 3 / 4) = 1 / 2.
Proof.
  replace (1 - 3 / 4) with ((1 / 2) * (1 / 2)) by lra.
  apply sqrt_square. lra.
Qed.

(** C1, as stated, fails: with [dream_detail_preservation = 0] the target
    comes back changed by 1 and the noisy latent by 1/2. *)
Lemma dream_zero_detail_changes_latents :
  exists nl tg,
    compute_dream_and_update_latents_for_inpaint unit sample_unet
      (sample_scheduler "epsilon") sample_timesteps sample_noise sample_latents
      sample_target tt 0 = Ok (nl, tg)
    /\ Nd.get tg [0; 0; 0; 0]%nat = Nd.get sample_target [0; 0; 0; 0]%nat + 1
    /\ Nd.get nl [0; 0; 0; 0]%nat = Nd.get sample_latents [0; 0; 0; 0]%nat + 1 / 2
    /\ Nd.get tg [0; 0; 0; 0]%nat <> Nd.get sample_target [0; 0; 0; 0]%nat
    /\ Nd.get nl [0; 0; 0; 0]%nat <> Nd.get sample_latents [0; 0; 0; 0]%nat.
Proof.
  destruct (dream_epsilon unit sample_unet (sample_scheduler "epsilon") sample_timesteps
              sample_noise sample_latents sample_target zero_prediction tt 0
              1 5 1 1) as (nl & tg & E & _ & _ & Hg);
    first [reflexivity | apply sample_timesteps_in_range | lia | idtac].
  exists nl, tg. split; [done|].
  destruct (Hg 0 0 0 0)%nat as [Hnl Htg]; [lia..|].
  simpl in Hnl, Htg. rewrite rpow_0 in Hnl, Htg.
  assert (alpha_at (sample_scheduler "epsilon") sample_timesteps 0 = 3 / 4) as Ha by done.
  rewrite Ha, sqrt_quarter in Hnl. specialize (Htg ltac:(lia)).
  simpl. rewrite Hnl, Htg. repeat split; lra.
Qed.

Lemma dream_zero_detail_preservation_witness :
  exists nl tg,
    compute_dream_and_update_latents_for_inpaint unit sample_unet
      (sample_scheduler "epsilon") sample_timesteps sample_noise sample_latents
      sample_target tt 0 = Ok (nl, tg)
    /\ Nd.shape nl = [1; 5; 1; 1]%nat
    /\ Nd.shape tg = [1; 4; 1; 1]%nat
    /\ forall n i j, (n < 1)%nat -> (i < 1)%nat -> (j < 1)%nat ->
         let s := sqrt (1 - alpha_at (sample_scheduler "epsilon") sample_timesteps n) in
         (forall ch, (ch < 4)%nat ->
            let d := Nd.get sample_noise [n; ch; i; j]
                     - Nd.get zero_prediction [n; ch; i; j] in
            Nd.get nl [n; ch; i; j] = Nd.get sample_latents [n; ch; i; j] + s * d
            /\ Nd.get tg [n; ch; i; j] = Nd.get sample_target [n; ch; i; j] + d
            /\ (d = 0 ->
                Nd.get nl [n; ch; i; j] = Nd.get sample_latents [n; ch; i; j]
                /\ Nd.get tg [n; ch; i; j] = Nd.get sample_target [n; ch; i; j]))
         /\ (forall ch, (4 <= ch < 5)%nat ->
               Nd.get nl [n; ch; i; j] = Nd.get sample_latents [n; ch; i; j]).
Proof.
  apply (dream_zero_detail_preservation unit sample_unet (sample_scheduler "epsilon")
           sample_timesteps sample_noise sample_latents sample_target zero_prediction
           tt 1 5 1 1);
    first [reflexivity | apply sample_timesteps_in_range | lia].
Defined.

Lemma dream_epsilon_update_witness :
  exists nl tg,
    compute_dream_and_update_latents_for_inpaint unit sample_unet
      (sample_scheduler "epsilon") sample_timesteps sample_noise sample_latents
      sample_target tt 1 = Ok (nl, tg)
    /\ Nd.shape nl = [1; 5; 1; 1]%nat
    /\ Nd.shape tg = [1; 4; 1; 1]%nat
    /\ forall n i j, (n < 1)%nat -> (i < 1)%nat -> (j < 1)%nat ->
         let s := sqrt (1 - alpha_at (sample_scheduler "epsilon") sample_timesteps n) in
         let lambda := rpow s 1 in
         let delta ch := lambda * (Nd.get sample_noise [n; ch; i; j]
                                   - Nd.get zero_prediction [n; ch; i; j]) in
         (forall ch, (ch < 4)%nat ->
            Nd.get nl [n; ch; i; j] = Nd.get sample_latents [n; ch; i; j] + s * delta ch
            /\ Nd.get tg [n; ch; i; j] = Nd.get sample_target [n; ch; i; j] + delta ch)
         /\ (forall ch, (4 <= ch < 5)%nat ->
               Nd.get nl [n; ch; i; j] = Nd.get sample_latents [n; ch; i; j]).
Proof.
  apply (dream_epsilon_update unit sample_unet (sample_scheduler "epsilon")
           sample_timesteps sample_noise sample_latents sample_target zero_prediction
           tt 1 1 5 1 1);
    first [reflexivity | apply sample_timesteps_in_range | lia].
Defined.

Lemma dream_prediction_type_errors_witness :
  let r := compute_dream_and_update_latents_for_inpaint unit sample_unet
             (sample_scheduler "v_prediction") sample_timesteps sample_noise
             sample_latents sample_target tt 1 in
  ((exists msg, r = Raise (NotImplementedError msg))
   <-> "v_prediction"%string = "v_prediction"%string)
  /\ ((exists msg, r = Raise (ValueError msg))
      <-> "v_prediction"%string <> "epsilon"%string
          /\ "v_prediction"%string <> "v_prediction"%string)
  /\ ("v_prediction"%string = "epsilon"%string ->
      (4 <= 5)%nat ->
      Nd.shape sample_noise = [1; 4; 1; 1]%nat ->
      Nd.shape zero_prediction = [1; 4; 1; 1]%nat ->
      Nd.shape sample_target = [1; 4; 1; 1]%nat ->
      exists out, r = Ok out).
Proof.
  apply (dream_prediction_type_errors unit sample_unet (sample_scheduler "v_prediction")
           sample_timesteps sample_noise sample_latents sample_target zero_prediction
           tt 1 1 5 1 1);
    first [reflexivity | apply sample_timesteps_in_range].
Defined.

(** The three kinds of prediction type, run. *)
Example dream_v_prediction :
  compute_dream_and_update_latents_for_inpaint unit sample_unet
    (sample_scheduler "v_prediction") sample_timesteps sample_noise sample_latents
    sample_target tt 1
  = Raise (NotImplementedError "DREAM has not been implemented for v-prediction").
Proof. reflexivity. Qed.

Example dream_unknown_prediction_type :
  compute_dream_and_update_latents_for_inpaint unit sample_unet
    (sample_scheduler "sample") sample_timesteps sample_noise sample_latents
    sample_target tt 1
  = Raise (ValueError "Unknown prediction type sample").
Proof. reflexivity. Qed.

Example dream_epsilon_returns :
  is_ok (compute_dream_and_update_latents_for_inpaint unit sample_unet
           (sample_scheduler "epsilon") sample_timesteps sample_noise sample_latents
           sample_target tt 1) = true.
Proof. reflexivity. Qed.

End DreamFacts.

(** ** Latent encoding *)
Module VaeFacts.
Import Vae.


Section Generator.
Variable generator : Type.
Variable randn : list nat -> generator -> Nd.ndarray Q * generator.

End Generator.


End VaeFacts.

(** ** Remote inference calls *)
Module FrontendFacts.
Import Frontend.
Local Open Scope string_scope.

Section Remote.
Variable config : list (string * string).
Variable Image_open : string -> outcome PIL.image.
Variable bicubic : PIL.image -> Z -> Z -> Z -> Z -> PIL.pixel.
Variable save : PIL.image -> string -> string.
Variable open_rb : string -> outcome string.
Variable json_dumps : list (string * json_value) -> string.
Variable requests_post :
  string -> list (string * (string * string * string)) -> list (string * string)
  -> outcome response.
Variable response_json : response -> outcome (list (string * string)).
Variable b64decode : string -> outcome string.
Variable Image_open_bytes : string -> outcome PIL.image.

Local Abbreviation submit :=
  (submit_function config Image_open bicubic save json_dumps requests_post
                   response_json b64decode Image_open_bytes).
Local Abbreviation pose_transfer :=
  (pose_transfer_function config open_rb json_dumps requests_post
                          response_json b64decode Image_open_bytes).
Local Abbreviation to_buffer := (resize_image_to_buffer Image_open bicubic save).

(** C9. For a remote call that the endpoint has answered: when the status is
    not 200 the function raises an error whose message is "API error ", the
    status code, ": " and the response body; when the status is 200 (and the
    body holds the encoded images) it returns the decoded image or images. *)
Theorem remote_call_status :
  (forall person_image cloth_image cloth_type num_inference_steps guidance_scale seed
          url person_buffer cloth_buffer r,
      getitem config "style_transfer_api" = Ok url ->
      to_buffer person_image = Ok person_buffer ->
      to_buffer cloth_image = Ok cloth_buffer ->
      requests_post url
        [("person_image", ("person.jpg", person_buffer, "image/jpeg"));
         ("cloth_image", ("cloth.jpg", cloth_buffer, "image/jpeg"))]
        [("config_json",
          json_dumps [("cloth_type", JString cloth_type);
                      ("num_inference_steps", JInt num_inference_steps);
                      ("guidance_scale", JFloat guidance_scale);
                      ("seed", JInt seed)])] = Ok r ->
      let call := submit person_image cloth_image cloth_type num_inference_steps
                         guidance_scale seed in
      (status_code r <> 200 -> call = Raise (api_error r))
      /\ (status_code r = 200 ->
          forall fields masked result masked_img result_img,
            response_json r = Ok fields ->
            getitem fields "masked_image" = Ok masked ->
            getitem fields "result_image" = Ok result ->
            (b64decode masked ≫= Image_open_bytes) = Ok masked_img ->
            (b64decode result ≫= Image_open_bytes) = Ok result_img ->
            call = Ok (masked_img, result_img)))
  /\ (forall person_image pose_image num_inference_steps guidance_scale seed
            url f1 f2 r,
        getitem config "pose_transfer_api" = Ok url ->
        open_rb person_image = Ok f1 ->
        open_rb pose_image = Ok f2 ->
        requests_post url
          [("person_image", ("person.jpg", f1, "image/jpeg"));
           ("pose_image", ("pose.jpg", f2, "image/jpeg"))]
          [("config_json",
            json_dumps [("num_inference_steps", JInt num_inference_steps);
                        ("guidance_scale", JFloat guidance_scale);
                        ("seed", JInt seed)])] = Ok r ->
        let call := pose_transfer person_image pose_image num_inference_steps
                                  guidance_scale seed in
        (status_code r <> 200 -> call = Raise (api_error r))
        /\ (status_code r = 200 ->
            forall fields pose result_pose,
              response_json r = Ok fields ->
              getitem fields "result_pose" = Ok pose ->
              (b64decode pose ≫= Image_open_bytes) = Ok result_pose ->
              call = Ok result_pose)).
Proof.
  split.
  - intros person_image cloth_image cloth_type steps scale seed url pb cb r
      Hurl Hpb Hcb Hpost. simpl.
    unfold submit_function. rewrite Hurl, bind_Ok, Hpb, bind_Ok, Hcb,
      bind_Ok, Hpost, bind_Ok.
    split; intros Hs.
    + by rewrite decide_False.
    + intros fields masked result masked_img result_img Hj Hm Hr Hmi Hri.
      rewrite decide_True, Hj, bind_Ok, Hm, Hr by done.
      rewrite !bind_Ok.
      destruct (b64decode masked) as [mb|]; [|done].
      destruct (b64decode result) as [rb|]; [|done].
      rewrite !bind_Ok in *. by rewrite Hmi, bind_Ok, Hri.
  - intros person_image pose_image steps scale seed url f1 f2 r Hurl Hf1 Hf2 Hpost.
    simpl. unfold pose_transfer_function.
    rewrite Hurl, bind_Ok, Hf1, bind_Ok, Hf2, bind_Ok, Hpost,
      bind_Ok.
    split; intros Hs.
    + by rewrite decide_False.
    + intros fields pose result_pose Hj Hp Hi.
      rewrite decide_True, Hj, bind_Ok, Hp by done.
      rewrite !bind_Ok.
      destruct (b64decode pose) as [pb|]; [|done].
      rewrite !bind_Ok in *. by rewrite Hi.
Qed.
End Remote.

Lemma remote_call_status_witness :
  submit_function sample_config open_photo Geometry.nearest save_stub dumps_stub
    post_unavailable json_stub b64_stub open_bytes_stub
    "person.png" "cloth.png" "upper" 50 (5 # 2) 42
  = Raise (RuntimeError "API error 503: Service Unavailable").
Proof.
  refine (proj1 (proj1 (remote_call_status sample_config open_photo Geometry.nearest
                          save_stub read_stub dumps_stub post_unavailable json_stub
                          b64_stub open_bytes_stub)
                       "person.png" "cloth.png" "upper" 50 (5 # 2)%Q 42
                       "http://host/style" "JPEG" "JPEG" unavailable _ _ _ _) _);
    first [reflexivity | discriminate].
Defined.

Example pose_transfer_unavailable :
  pose_transfer_function sample_config read_stub dumps_stub post_unavailable json_stub
    b64_stub open_bytes_stub "person.png" "pose.png" 50 (5 # 2) 42
  = Raise (RuntimeError "API error 503: Service Unavailable").
Proof. reflexivity. Qed.

Example submit_function_answer :
  submit_function sample_config open_photo Geometry.nearest save_stub dumps_stub
    post_answer json_stub b64_stub open_bytes_stub
    "person.png" "cloth.png" "upper" 50 (5 # 2) 42
  = Ok (sample_photo, sample_photo).
Proof. reflexivity. Qed.

Example pose_transfer_answer :
  pose_transfer_function sample_config read_stub dumps_stub post_answer json_stub
    b64_stub open_bytes_stub "person.png" "pose.png" 50 (5 # 2) 42
  = Ok sample_photo.
Proof. reflexivity. Qed.

End FrontendFacts.

(** * Further properties of the code *)

(** ** Geometric resizing, continued *)
Module GeometryMore.
Import PIL Geometry GeometryFacts.

Section Resampling.
Variable resample : image -> Z -> Z -> Z -> Z -> pixel.

Lemma crop_box_sides (a n : Z) : (a + n) / 2 - (a - n) / 2 = n.
Proof.
  replace (a + n) with ((a - n) + n * 2) by lia.
  rewrite Z.div_add by lia. lia.
Qed.

Lemma crop_ok (im : image) (x0 y0 x1 y1 : Z) :
  x0 <= x1 -> y0 <= y1 ->
  crop im (x0, y0, x1, y1)
  = Ok (Image (mode im) (x1 - x0) (y1 - y0)
              (fun x y =>
                 let sx := x + x0 in
                 let sy := y + y0 in
                 if (0 <=? sx) && (sx <? width im) && (0 <=? sy) && (sy <? height im)
                 then getpixel im sx sy else black)).
Proof.
  intros Hx Hy. unfold crop.
  destruct (Z.ltb_spec x1 x0); [lia|]. by destruct (Z.ltb_spec y1 y0); [lia|].
Qed.

(** The size of the crop: one side is the side of the image, the other the
    largest that keeps the target aspect ratio. *)
Lemma crop_size_fits (w h tw th cw ch : Z) :
  0 < w -> 0 < h -> 0 < tw -> 0 < th ->
  (if Qltb (inject_Z w / inject_Z h) (inject_Z tw / inject_Z th)
   then new_h ← floor_div (w * th) tw; mret (w, new_h)
   else new_w ← floor_div (h * tw) th; mret (new_w, h)) = Ok (cw, ch) ->
  0 <= cw <= w /\ 0 <= ch <= h
  /\ ((cw = w /\ ch * tw <= cw * th < (ch + 1) * tw)
      \/ (ch = h /\ cw * th <= ch * tw < (cw + 1) * th)).
Proof.
  intros Hw Hh Htw Hth. rewrite Qltb_div_pos by lia.
  destruct (Z.ltb_spec (w * th) (tw * h)) as [Hlt|Hge]; intros H.
  - inv_bind H as q Hq. apply floor_div_ok in Hq as [_ ->]. injection H as <- <-.
    pose proof (Z.mul_div_le (w * th) tw Htw).
    pose proof (Z.mul_succ_div_gt (w * th) tw Htw).
    assert (0 <= w * th / tw) by (apply Z.div_pos; nia).
    assert (w * th / tw <= h) by (apply Z.div_le_upper_bound; nia).
    split; [lia|]. split; [lia|]. left. split; [done|]. nia.
  - inv_bind H as q Hq. apply floor_div_ok in Hq as [_ ->]. injection H as <- <-.
    pose proof (Z.mul_div_le (h * tw) th Hth).
    pose proof (Z.mul_succ_div_gt (h * tw) th Hth).
    assert (0 <= h * tw / th) by (apply Z.div_pos; nia).
    assert (h * tw / th <= w) by (apply Z.div_le_upper_bound; nia).
    split; [lia|]. split; [lia|]. right. split; [done|]. nia.
Qed.

(** X1. [resize_and_crop] crops inside the image: the box is centred, one of
    its sides is the whole side of the image and the other is the largest
    that keeps the target aspect ratio, so the crop holds pixels of the image
    only (nothing is filled in), and the result is that crop resized. *)
Theorem resize_and_crop_box (im : image) (tw th : Z) :
  0 < width im -> 0 < height im -> 0 < tw -> 0 < th ->
  exists cw ch cropped,
    let x0 := (width im - cw) / 2 in
    let y0 := (height im - ch) / 2 in
    resize_and_crop resample im (tw, th) = resize resample cropped (tw, th)
    /\ width cropped = cw /\ height cropped = ch /\ mode cropped = mode im
    /\ 0 <= x0 /\ x0 + cw <= width im /\ 0 <= y0 /\ y0 + ch <= height im
    /\ ((cw = width im /\ ch * tw <= cw * th < (ch + 1) * tw)
        \/ (ch = height im /\ cw * th <= ch * tw < (cw + 1) * th))
    /\ forall x y, 0 <= x < cw -> 0 <= y < ch ->
         getpixel cropped x y = getpixel im (x0 + x) (y0 + y).
Proof.
  intros Hw Hh Htw Hth. unfold resize_and_crop.
  rewrite !true_div_pos, !bind_Ok by lia.
  destruct (if Qltb _ _ then _ else _) as [[cw ch]|e] eqn:E.
  2:{ exfalso. destruct (Qltb _ _); rewrite floor_div_pos in E by lia; done. }
  destruct (crop_size_fits _ _ _ _ _ _ Hw Hh Htw Hth E) as (Hcw & Hch & Hasp).
  destruct (centred (width im) cw Hcw) as [Hx0 Hx1].
  destruct (centred (height im) ch Hch) as [Hy0 Hy1].
  rewrite bind_Ok. cbn beta iota.
  rewrite crop_ok, bind_Ok.
  2,3: apply Z.div_le_mono; lia.
  eexists cw, ch, _. split; [reflexivity|]. cbn [width height mode getpixel].
  rewrite !crop_box_sides. do 8 (split; [done|]).
  intros x y Hx Hy. cbn beta zeta.
  replace (x + (width im - cw) / 2) with ((width im - cw) / 2 + x) by lia.
  replace (y + (height im - ch) / 2) with ((height im - ch) / 2 + y) by lia.
  destruct (Z.leb_spec 0 ((width im - cw) / 2 + x)); [|lia].
  destruct (Z.ltb_spec ((width im - cw) / 2 + x) (width im)); [|lia].
  destruct (Z.leb_spec 0 ((height im - ch) / 2 + y)); [|lia].
  by destruct (Z.ltb_spec ((height im - ch) / 2 + y) (height im)); [|lia].
Qed.

Lemma Qltb_irrefl (q : Q) : Qltb q q = false.
Proof.
  unfold Qltb. assert (Qle_bool q q = true) as -> by (apply Qle_bool_iff, Qle_refl).
  done.
Qed.

Lemma resize_same (im : image) : resize resample im (width im, height im) = Ok im.
Proof. unfold resize. by rewrite !Z.eqb_refl. Qed.

(** An image that already has the requested size comes back from
    [resize_and_crop] pixel for pixel, without resampling. *)
Lemma resize_and_crop_same (im : image) :
  0 < width im -> 0 < height im ->
  exists out, resize_and_crop resample im (width im, height im) = Ok out
    /\ mode out = mode im /\ width out = width im /\ height out = height im
    /\ forall x y, 0 <= x < width im -> 0 <= y < height im ->
         getpixel out x y = getpixel im x y.
Proof.
  intros Hw Hh. unfold resize_and_crop.
  rewrite !true_div_pos, !bind_Ok, Qltb_irrefl, floor_div_pos by lia.
  rewrite (Z.mul_comm (height im)), Z.div_mul by lia. rewrite !bind_Ok. cbn beta iota.
  rewrite crop_ok, bind_Ok by (apply Z.div_le_mono; lia).
  rewrite !crop_box_sides. unfold resize. cbn [width height].
  rewrite !Z.eqb_refl. cbn [andb]. eexists. split; [reflexivity|].
  do 3 (split; [done|]). intros x y Hx Hy. cbn [getpixel].
  rewrite !Z.sub_diag. change (0 / 2) with 0. rewrite !Z.add_0_r.
  destruct (Z.leb_spec 0 x); [|lia]. destruct (Z.ltb_spec x (width im)); [|lia].
  destruct (Z.leb_spec 0 y); [|lia]. by destruct (Z.ltb_spec y (height im)); [|lia].
Qed.

(** An image that already has the requested size comes back from
    [resize_and_padding] pixel for pixel (converted to RGB): no resampling
    and no border. *)
Lemma resize_and_padding_same (im : image) :
  0 < width im -> 0 < height im ->
  exists out, resize_and_padding resample im (width im, height im) = Ok out
    /\ mode out = RGB /\ width out = width im /\ height out = height im
    /\ forall x y, 0 <= x < width im -> 0 <= y < height im ->
         getpixel out x y = getpixel (convert RGB im) x y.
Proof.
  intros Hw Hh. unfold resize_and_padding.
  rewrite !true_div_pos, !bind_Ok, Qltb_irrefl, floor_div_pos by lia.
  rewrite Z.div_mul by lia. rewrite !bind_Ok. cbn beta iota.
  rewrite resize_same, bind_Ok. unfold new.
  destruct (Z.ltb_spec (width im) 0); [lia|]. destruct (Z.ltb_spec (height im) 0); [lia|].
  cbn [orb]. rewrite bind_Ok. eexists. split; [reflexivity|].
  cbn [mode width height getpixel paste]. do 3 (split; [done|]).
  intros x y Hx Hy. rewrite !Z.sub_diag. change (0 / 2) with 0.
  rewrite !Z.sub_0_r, !Z.add_0_l.
  destruct (Z.leb_spec 0 x); [|lia]. destruct (Z.ltb_spec x (width im)); [|lia].
  destruct (Z.leb_spec 0 y); [|lia]. by destruct (Z.ltb_spec y (height im)); [|lia].
Qed.

(** X2. An image that already has the requested size comes back pixel for
    pixel from both functions, without resampling; [resize_and_padding]
    converts it to RGB and adds no border. *)
Theorem resize_same_size_unchanged (im : image) :
  0 < width im -> 0 < height im ->
  (exists out, resize_and_crop resample im (width im, height im) = Ok out
     /\ mode out = mode im /\ width out = width im /\ height out = height im
     /\ forall x y, 0 <= x < width im -> 0 <= y < height im ->
          getpixel out x y = getpixel im x y)
  /\ (exists out, resize_and_padding resample im (width im, height im) = Ok out
     /\ mode out = RGB /\ width out = width im /\ height out = height im
     /\ forall x y, 0 <= x < width im -> 0 <= y < height im ->
          getpixel out x y = getpixel (convert RGB im) x y).
Proof.
  intros Hw Hh. split; [by apply resize_and_crop_same | by apply resize_and_padding_same].
Qed.

(** X3. An image of height 0, or a requested height of 0, makes both
    functions raise ZeroDivisionError at the aspect ratio, before the image
    is touched. *)
Theorem resize_zero_height (im : image) (tw th : Z) :
  height im = 0 \/ th = 0 ->
  resize_and_crop resample im (tw, th) = Raise ZeroDivisionError
  /\ resize_and_padding resample im (tw, th) = Raise ZeroDivisionError.
Proof.
  intros H. unfold resize_and_crop, resize_and_padding, true_div.
  destruct (Z.eqb_spec (height im) 0) as [|Hh]; [done|].
  destruct H as [H| ->]; [done|]. by rewrite !bind_Ok.
Qed.

(** The size the image is scaled to before padding: one side fills the
    target box, the other is the image side scaled by the same factor,
    rounded down. *)
Lemma padding_size (w h tw th nw nh : Z) :
  0 < w -> 0 < h -> 0 < tw -> 0 < th ->
  (if Qltb (inject_Z w / inject_Z h) (inject_Z tw / inject_Z th)
   then new_w ← floor_div (w * th) h; mret (new_w, th)
   else new_h ← floor_div (h * tw) w; mret (tw, new_h)) = Ok (nw, nh) ->
  (nh = th /\ nw * h <= w * th < (nw + 1) * h /\ nw < tw)
  \/ (nw = tw /\ nh * w <= h * tw < (nh + 1) * w /\ nh <= th).
Proof.
  intros Hw Hh Htw Hth. rewrite Qltb_div_pos by lia.
  destruct (Z.ltb_spec (w * th) (tw * h)) as [Hlt|Hge]; intros H.
  - inv_bind H as q Hq. apply floor_div_ok in Hq as [_ ->]. injection H as <- <-.
    pose proof (Z.mul_div_le (w * th) h Hh).
    pose proof (Z.mul_succ_div_gt (w * th) h Hh).
    assert (w * th / h < tw) by (apply Z.div_lt_upper_bound; nia).
    left. split; [done|]. split; [nia|done].
  - inv_bind H as q Hq. apply floor_div_ok in Hq as [_ ->]. injection H as <- <-.
    pose proof (Z.mul_div_le (h * tw) w Hw).
    pose proof (Z.mul_succ_div_gt (h * tw) w Hw).
    assert (h * tw / w <= th) by (apply Z.div_le_upper_bound; nia).
    right. split; [done|]. split; [nia|done].
Qed.

(** X4. [resize_and_padding] keeps the aspect ratio: the image is scaled so
    that one side fills the target box and the other is the matching side
    rounded down (never larger than the box), and inside the pasted box the
    result shows the scaled image. *)
Theorem resize_and_padding_scale (im out : image) (tw th : Z) :
  0 < width im -> 0 < height im -> 0 < tw -> 0 < th ->
  resize_and_padding resample im (tw, th) = Ok out ->
  exists resized,
    let nw := width resized in
    let nh := height resized in
    resize resample im (nw, nh) = Ok resized
    /\ ((nh = th /\ nw * height im <= width im * th < (nw + 1) * height im /\ nw < tw)
        \/ (nw = tw /\ nh * width im <= height im * tw < (nh + 1) * width im /\ nh <= th))
    /\ forall x y, 0 <= x < nw -> 0 <= y < nh ->
         getpixel out ((tw - nw) / 2 + x) ((th - nh) / 2 + y)
         = getpixel (convert RGB resized) x y.
Proof.
  intros Hw Hh Htw Hth H. unfold resize_and_padding in H.
  rewrite !true_div_pos, !bind_Ok in H by lia.
  inv_bind H as box Hbox. destruct box as [nw nh].
  inv_bind H as resized Hres. inv_bind H as padding Hpad. injection H as <-.
  apply new_ok in Hpad as (_ & _ & ->).
  pose proof (resize_ok _ _ _ _ _ Hres) as (Ew & Eh & _).
  pose proof (padding_size _ _ _ _ _ _ Hw Hh Htw Hth Hbox) as Hsize.
  exists resized. cbn zeta. rewrite Ew, Eh. split; [done|]. split; [done|].
  intros x y Hx Hy. unfold paste. cbn [getpixel width height mode].
  replace ((tw - nw) / 2 + x - (tw - nw) / 2) with x by lia.
  replace ((th - nh) / 2 + y - (th - nh) / 2) with y by lia.
  destruct (Z.leb_spec ((tw - nw) / 2) ((tw - nw) / 2 + x)); [|lia].
  destruct (Z.ltb_spec ((tw - nw) / 2 + x) ((tw - nw) / 2 + nw)); [|lia].
  destruct (Z.leb_spec ((th - nh) / 2) ((th - nh) / 2 + y)); [|lia].
  by destruct (Z.ltb_spec ((th - nh) / 2 + y) ((th - nh) / 2 + nh)); [|lia].
Qed.
End Resampling.

Lemma resize_and_crop_box_witness :
  exists cw ch cropped,
    resize_and_crop nearest sample_image (2, 2) = resize nearest cropped (2, 2)
    /\ width cropped = cw /\ height cropped = ch /\ mode cropped = RGB
    /\ forall x y, 0 <= x < cw -> 0 <= y < ch ->
         getpixel cropped x y = getpixel sample_image ((4 - cw) / 2 + x) ((2 - ch) / 2 + y).
Proof.
  destruct (resize_and_crop_box nearest sample_image 2 2)
    as (cw & ch & cropped & E & Hw & Hh & Hm & _ & _ & _ & _ & _ & Hpx);
    [simpl; lia..|].
  exists cw, ch, cropped. repeat split; assumption.
Defined.

Lemma resize_same_size_unchanged_witness :
  exists out, resize_and_crop nearest sample_image (4, 2) = Ok out
    /\ mode out = RGB /\ width out = 4 /\ height out = 2
    /\ forall x y, 0 <= x < 4 -> 0 <= y < 2 ->
         getpixel out x y = getpixel sample_image x y.
Proof.
  apply (resize_same_size_unchanged nearest sample_image); simpl; lia.
Defined.

Lemma resize_and_padding_scale_witness :
  exists out resized,
    resize_and_padding nearest sample_image (2, 2) = Ok out
    /\ resize nearest sample_image (width resized, height resized) = Ok resized
    /\ width resized = 2 /\ height resized = 1
    /\ forall x y, 0 <= x < width resized -> 0 <= y < height resized ->
         getpixel out ((2 - width resized) / 2 + x) ((2 - height resized) / 2 + y)
         = getpixel (convert RGB resized) x y.
Proof.
  assert (E : resize_and_padding nearest sample_image (2, 2)
              = Ok (paste (Image RGB 2 2 (fun _ _ => white))
                          (Image RGB 2 1 (nearest sample_image 2 1)) (0, 0)))
    by reflexivity.
  destruct (resize_and_padding_scale nearest sample_image _ 2 2
              ltac:(simpl; lia) ltac:(simpl; lia) ltac:(lia) ltac:(lia) E)
    as (resized & Hr & Hs & Hpx).
  eexists _, resized. split; [exact E|]. split; [exact Hr|].
  split; [|split; [|exact Hpx]]; simpl in Hs; lia.
Defined.

Lemma resize_zero_height_witness :
  resize_and_crop nearest sample_image (2, 0) = Raise ZeroDivisionError
  /\ resize_and_padding nearest sample_image (2, 0) = Raise ZeroDivisionError.
Proof. apply (resize_zero_height nearest sample_image 2 0). by right. Defined.

End GeometryMore.

(** ** Paste-back compositing: mixed masks and mismatched sizes *)
Module RepaintMore.
Import PIL Repaint NdFacts RepaintFacts Inputs.

(** X5. With a mask whose pixels are 0 or 255 the composite takes each pixel
    from [result] where the mask is 255 and from [person] where it is 0. *)
Theorem repaint_result_binary_mask (result person mask : image) :
  mode result = RGB -> mode person = RGB -> mode mask = L ->
  0 <= width result -> 0 <= height result ->
  width person = width result -> height person = height result ->
  width mask = width result -> height mask = height result ->
  eight_bit result -> eight_bit person ->
  (forall x y, 0 <= x < width result -> 0 <= y < height result ->
     band 0 (getpixel mask x y) = 0 \/ band 0 (getpixel mask x y) = 255) ->
  exists out, repaint_result result person mask = Ok out /\
    mode out = RGB /\ width out = width result /\ height out = height result /\
    forall x y, 0 <= x < width result -> 0 <= y < height result ->
      getpixel out x y =
        if band 0 (getpixel mask x y) =? 255 then getpixel result x y
        else getpixel person x y.
Proof.
  intros Hr Hp Hm Hw Hh Ewp Ehp Ewm Ehm Br Bp Hmask.
  destruct (repaint_result_pixels result person mask) as (out & E & Em & Ew & Eh & Px);
    try done.
  exists out. repeat split; try done. intros x y Hx Hy.
  rewrite Px by done. simpl. destruct (Hmask x y Hx Hy) as [-> | ->]; simpl.
  - rewrite !(astype_uint8_integer _ _ (blend_empty _ _))
      by (apply Bp; rewrite ?Ewp, ?Ehp; done).
    apply pixel_bands.
  - rewrite !(astype_uint8_integer _ _ (blend_full _ _)) by by apply Br.
    apply pixel_bands.
Qed.

(** X6. A person image whose height differs from that of the result and the
    mask cannot be broadcast against them: the call raises [ValueError]
    (heights of at least 2, where no axis of size 1 is stretched). *)
Theorem repaint_result_size_mismatch (result person mask : image) :
  mode result = RGB -> mode person = RGB -> mode mask = L ->
  0 <= width result ->
  width person = width result -> width mask = width result ->
  height mask = height result ->
  2 <= height result -> 2 <= height person -> height person <> height result ->
  exists msg, repaint_result result person mask = Raise (ValueError msg).
Proof.
  intros Hr Hp Hm Hw Ewp Ewm Ehm Hh Hhp Hne. unfold repaint_result, to_array.
  rewrite Hr, Hp, Hm, Ewp, Ewm, Ehm.
  unfold Nd.map2, Nd.unsqueeze, Nd.broadcast_shapes. simpl.
  rewrite !bdim_same. simpl.
  assert (E : Nd.bdim (Z.to_nat (height person)) (Z.to_nat (height result)) = None).
  { unfold Nd.bdim. by rewrite !decide_False by lia. }
  rewrite E. simpl. by eexists.
Qed.

Lemma repaint_result_binary_mask_witness :
  exists out, repaint_result sample_result sample_person left_mask = Ok out
    /\ mode out = RGB /\ width out = 2 /\ height out = 1
    /\ getpixel out 0 0 = (10, 20, 255) /\ getpixel out 1 0 = (0, 101, 200).
Proof.
  destruct (repaint_result_binary_mask sample_result sample_person left_mask)
    as (out & E & Hm & Hw & Hh & Hpx);
    try first [reflexivity | simpl; lia
              | exact eight_bit_sample_result | exact eight_bit_sample_person].
  exists out. split; [exact E|]. split; [exact Hm|]. split; [exact Hw|].
  split; [exact Hh|]. split; rewrite Hpx by (simpl; lia); reflexivity.
Defined.

Lemma repaint_result_size_mismatch_witness :
  exists msg,
    repaint_result Geometry.sample_image tall_person wide_mask = Raise (ValueError msg).
Proof.
  apply (repaint_result_size_mismatch Geometry.sample_image tall_person wide_mask);
    first [reflexivity | simpl; lia].
Defined.

End RepaintMore.

(** ** Image normalisation, continued *)
Module PrepareImageMore.
Import PrepareImage PrepareImageFacts NdFacts Inputs.

Lemma mapM_cons {A B} (f : A -> outcome B) (x : A) (l : list A) :
  mapM f (x :: l) = (y ← f x; k ← mapM f l; mret (y :: k)).
Proof. done. Qed.

(** [mapM] stops at the first element that raises. *)
Lemma mapM_raise {A B} (f : A -> outcome B) (l : list A) (e : py_error) :
  Exists (fun x => f x = Raise e) l ->
  Forall (fun x => is_ok (f x) = true \/ f x = Raise e) l ->
  mapM f l = Raise e.
Proof.
  induction l as [|x l IH]; intros Hex Hall; [by apply Exists_nil in Hex|].
  apply Forall_cons in Hall as [Hx Hall]. rewrite mapM_cons.
  destruct (f x) as [y|e'] eqn:E.
  - apply Exists_cons in Hex as [|Hex]; [congruence|]. by rewrite bind_Ok, IH.
  - destruct Hx as [Hx|Hx]; [done|]. by injection Hx as ->.
Qed.

Local Abbreviation pil_step :=
  (fun i => match i with
            | ItemPIL i => newaxis (Nd.map inject_Z (PIL.to_array (PIL.convert PIL.RGB i)))
            | ItemArray _ => Raise AttributeError
            end).

Local Abbreviation array_step :=
  (fun i => match i with
            | ItemArray i => newaxis i
            | ItemPIL _ => Raise TypeError
            end).

Lemma pil_step_ok (im : PIL.image) :
  pil_step (ItemPIL im) = Ok (Nd.unsqueeze 0 (raster (ItemPIL im))).
Proof. by destruct im as [[] w h px]. Qed.

Lemma array_step_ok (a : Nd.ndarray Q) :
  Nd.ndim a <> 0%nat -> array_step (ItemArray a) = Ok (Nd.unsqueeze 0 a).
Proof. intros H. unfold newaxis. by rewrite decide_False. Qed.

(** X7. What [prepare_image] raises on lists it does not accept: IndexError
    on the empty list; AttributeError on a list that starts with a PIL image
    and holds an array; TypeError on a list that starts with an array and
    holds a PIL image. *)
Theorem prepare_image_list_errors :
  prepare_image (PyList []) = Raise IndexError
  /\ (forall im rest a,
        ItemArray a ∈ rest ->
        prepare_image (PyList (ItemPIL im :: rest)) = Raise AttributeError)
  /\ (forall a0 rest im,
        ItemPIL im ∈ rest -> arrays_indexable (ItemArray a0 :: rest) ->
        prepare_image (PyList (ItemArray a0 :: rest)) = Raise TypeError).
Proof.
  split; [done|]. split.
  - intros im rest a Hin. cbn [prepare_image].
    rewrite (mapM_raise pil_step _ AttributeError); [done| |].
    + apply Exists_cons_tl, Exists_exists. by exists (ItemArray a).
    + apply Forall_forall. intros [im'|a'] _; [left|by right].
      by rewrite pil_step_ok.
  - intros a0 rest im Hin Hix. cbn [prepare_image].
    rewrite (mapM_raise array_step _ TypeError); [done| |].
    + apply Exists_cons_tl, Exists_exists. by exists (ItemPIL im).
    + eapply Forall_impl; [exact Hix|]. intros [im'|a'] Ha; [by right|left].
      by rewrite array_step_ok by by apply Ha.
Qed.

Lemma mapM_arrays (l : list item) :
  Forall is_array l -> arrays_indexable l ->
  mapM array_step l = Ok (Nd.unsqueeze 0 ∘ raster <$> l).
Proof.
  intros Harr Hix. apply mapM_ok. apply Forall_forall. intros i Hi.
  unfold arrays_indexable in Hix. rewrite Forall_forall in Harr, Hix. specialize (Harr i Hi). specialize (Hix i Hi).
  destruct i as [|a]; [done|]. by apply array_step_ok, Hix.
Qed.

(** X8. Arrays of different shapes are rejected: a list of arrays in which
    some array does not have the shape of the first raises ValueError. *)
Theorem prepare_image_shape_mismatch (a0 b : Nd.ndarray Q) (rest : list item) :
  Forall is_array rest -> arrays_indexable (ItemArray a0 :: rest) ->
  ItemArray b ∈ rest -> Nd.shape b <> Nd.shape a0 ->
  exists msg, prepare_image (PyList (ItemArray a0 :: rest)) = Raise (ValueError msg).
Proof.
  intros Harr Hix Hin Hne. eexists. cbn [prepare_image].
  rewrite mapM_arrays, bind_Ok by (done || by apply Forall_cons).
  cbn [fmap list_fmap]. unfold Nd.concatenate0.
  cbn [Nd.shape Nd.unsqueeze compose raster]. rewrite take_0, drop_0. cbn [app].
  match goal with |- context [forallb ?f ?l] => destruct (forallb f l) eqn:E end;
    [|done].
  exfalso. rewrite forallb_forall in E.
  specialize (E (Nd.unsqueeze 0 b)). rewrite bool_decide_eq_true in E.
  destruct E as [E _]; [|done].
  apply list_elem_of_In, list_elem_of_fmap. by exists (ItemArray b).
Qed.

(** X9. An array that is not 3-D is rejected: a single array with one, two or
    more than three axes (a grey [h x w] raster, say) raises ValueError at
    the transposition. *)
Theorem prepare_image_needs_channel_axis (a : Nd.ndarray Q) :
  Nd.ndim a <> 0%nat -> Nd.ndim a <> 3%nat ->
  exists msg, prepare_image (NdArray a) = Raise (ValueError msg).
Proof.
  intros H0 H3. eexists. cbn [prepare_image]. rewrite mapM_cons, array_step_ok by done.
  rewrite bind_Ok. cbn [mapM]. rewrite !bind_Ok.
  unfold Nd.concatenate0. cbn [Nd.shape Nd.unsqueeze compose raster].
  rewrite take_0, drop_0. cbn [app forallb].
  rewrite bind_Ok. unfold Nd.transpose. rewrite bool_decide_eq_false_2; [done|].
  intros Hp%Permutation_length. unfold Nd.ndim in *. cbn in Hp.
  rewrite length_seq in Hp. cbn in Hp. lia.
Qed.

Lemma arrays_indexable_sample :
  arrays_indexable [ItemArray pixel_array; ItemArray column_array].
Proof. repeat constructor; by intros a [= <-]. Qed.

Lemma prepare_image_list_errors_witness :
  prepare_image (PyList [ItemPIL first_image; ItemArray pixel_array]) = Raise AttributeError.
Proof.
  apply (proj1 (proj2 prepare_image_list_errors) first_image _ pixel_array).
  apply list_elem_of_here.
Defined.

Lemma prepare_image_shape_mismatch_witness :
  exists msg,
    prepare_image (PyList [ItemArray pixel_array; ItemArray column_array])
    = Raise (ValueError msg).
Proof.
  apply (prepare_image_shape_mismatch pixel_array column_array).
  - by repeat constructor.
  - exact arrays_indexable_sample.
  - apply list_elem_of_here.
  - discriminate.
Defined.

Lemma prepare_image_needs_channel_axis_witness :
  exists msg, prepare_image (NdArray gray_array) = Raise (ValueError msg).
Proof. apply (prepare_image_needs_channel_axis gray_array); discriminate. Defined.

End PrepareImageMore.

(** ** Mask normalisation, continued *)
Module PrepareMaskMore.
Import PrepareMask PrepareMaskFacts.

Lemma binarize_idempotent (v : Q) : binarize (binarize v) = binarize v.
Proof. unfold binarize. by destruct (Qltb v half). Qed.

Lemma prepare_tensor_store (t : tensor) (st : gmap loc (list Q)) :
  snd (prepare_mask_image (Tensor t) st) = alter (fmap binarize) (storage t) st.
Proof.
  simpl. unfold assign_above, assign_below. rewrite !tensor_view_storage.
  apply map_eq. intros l. destruct (decide (l = storage t)) as [->|Hne].
  - rewrite !lookup_alter_eq. destruct (st !! storage t) as [data|]; [|done].
    simpl. f_equal. rewrite <- list_fmap_compose. apply list_fmap_ext.
    intros _ v _. apply two_assignments.
  - by rewrite !lookup_alter_ne.
Qed.

(** The view returned for a tensor argument never has rank 2 or 3. *)
Lemma tensor_view_rank (t t' : tensor) (st : gmap loc (list Q)) :
  fst (prepare_mask_image (Tensor t) st) = Ok t' ->
  storage t' = storage t /\ ndim t' <> 2%nat /\ ndim t' <> 3%nat.
Proof.
  destruct t as [l s]. simpl. intros [= <-]. unfold ndim.
  destruct s as [|a [|b [|c [|d s]]]]; try destruct a as [|[|a]];
    by repeat split.
Qed.

(** X10. The shape of the tensor returned for a tensor argument: a 2-D mask
    [h x w] becomes [1 x 1 x h x w]; a 3-D mask [b x h x w] becomes
    [b x 1 x h x w] whether or not [b] is 1 (the two 3-D branches of the
    code agree on the shape); a tensor of any other rank keeps its shape. *)
Theorem prepare_mask_image_tensor_shape (t t' : tensor) (st : gmap loc (list Q)) :
  fst (prepare_mask_image (Tensor t) st) = Ok t' ->
  storage t' = storage t
  /\ (forall h w, shape t = [h; w] -> shape t' = [1; 1; h; w]%nat)
  /\ (forall b h w, shape t = [b; h; w] -> shape t' = [b; 1; h; w]%nat)
  /\ (ndim t <> 2%nat -> ndim t <> 3%nat -> shape t' = shape t).
Proof.
  destruct t as [l s]. simpl. intros [= <-]. split; [|split; [|split]].
  - apply (tensor_view_storage (TensorView l s)).
  - intros h w ->. by destruct h as [|[|h]].
  - intros b h w ->. by destruct b as [|[|b]].
  - unfold ndim. simpl. intros H2 H3.
    by destruct s as [|a [|b [|c [|d s]]]]; try destruct a as [|[|a]].
Qed.

(** X11. Normalising a mask tensor twice changes nothing the second time: the
    tensor returned by the first call is returned as it is by the second,
    and the store stays as the first call left it. *)
Theorem prepare_mask_image_tensor_idempotent (t t1 : tensor)
    (st st1 : gmap loc (list Q)) :
  prepare_mask_image (Tensor t) st = (Ok t1, st1) ->
  prepare_mask_image (Tensor t1) st1 = (Ok t1, st1).
Proof.
  intros H.
  assert (fst (prepare_mask_image (Tensor t) st) = Ok t1) as H1 by by rewrite H.
  assert (snd (prepare_mask_image (Tensor t) st) = st1) as H2 by by rewrite H.
  rewrite prepare_tensor_store in H2.
  destruct (tensor_view_rank t t1 st H1) as (Es & Hn2 & Hn3).
  rewrite (surjective_pairing (prepare_mask_image (Tensor t1) st1)).
  f_equal.
  - simpl. f_equal. destruct t1 as [l s]. unfold ndim in *. simpl in *.
    by destruct s as [|a [|b [|c [|d s]]]]; try destruct a as [|[|a]].
  - rewrite prepare_tensor_store, Es, <- H2. apply map_eq. intros l.
    destruct (decide (l = storage t)) as [->|Hne].
    + rewrite !lookup_alter_eq. destruct (st !! storage t) as [data|]; [|done].
      simpl. f_equal. rewrite <- list_fmap_compose. apply list_fmap_ext.
      intros _ v _. apply binarize_idempotent.
    + by rewrite !lookup_alter_ne.
Qed.

(** X12. For a PIL image, an array or a list the caller's buffers are left as
    they are: every buffer of the store keeps its contents, a failed call
    leaves the store unchanged, and a successful call returns a tensor on a
    buffer that did not exist before. *)
Theorem prepare_mask_image_keeps_buffers (mask_image : arg) (st st' : gmap loc (list Q))
    (r : outcome tensor) :
  (forall t, mask_image <> Tensor t) ->
  prepare_mask_image mask_image st = (r, st') ->
  (forall l data, st !! l = Some data -> st' !! l = Some data)
  /\ match r with
     | Ok t' => st !! storage t' = None /\ is_Some (st' !! storage t')
     | Raise _ => st' = st
     end.
Proof.
  intros Hnt H. destruct r as [t'|e].
  - destruct (prepare_stacked mask_image st st' t' Hnt H) as (arr & _ & _ & Hnew & ->).
    split; [|split; [done|by rewrite lookup_insert_eq]].
    intros l data Hl. rewrite lookup_insert_ne; [done|]. congruence.
  - assert (st' = st) as ->; [|done].
    assert (match stack_masks (items_of mask_image) with
            | Raise e => (Raise e, st)
            | Ok a =>
                let a := Nd.map below_to_0 a in
                let a := Nd.map above_to_1 a in
                let '(t, st) := from_numpy a st in (Ok t, st)
            end = (Raise e, st')) as H'.
    { destruct mask_image as [t| | |]; [by destruct (Hnt t)|done..]. }
    destruct (stack_masks _); simpl in H'; by injection H'.
Qed.

Lemma prepare_mask_image_tensor_shape_witness :
  exists t',
    fst (prepare_mask_image (Tensor (TensorView 5%positive [2; 2]%nat)) caller_store) = Ok t'
    /\ storage t' = 5%positive /\ shape t' = [1; 1; 2; 2]%nat.
Proof.
  exists (TensorView 5%positive [1; 1; 2; 2]%nat). split; [reflexivity|].
  destruct (prepare_mask_image_tensor_shape (TensorView 5%positive [2; 2]%nat)
              (TensorView 5%positive [1; 1; 2; 2]%nat) caller_store eq_refl)
    as (Hs & H2 & _).
  split; [exact Hs | by apply H2].
Defined.

Lemma prepare_mask_image_tensor_idempotent_witness :
  prepare_mask_image (Tensor (TensorView 5%positive [1; 1; 2; 2]%nat))
    {[ 5%positive := [0; 0; 1; 1]%Q ]}
  = (Ok (TensorView 5%positive [1; 1; 2; 2]%nat), {[ 5%positive := [0; 0; 1; 1]%Q ]}).
Proof.
  apply (prepare_mask_image_tensor_idempotent (TensorView 5%positive [2; 2]%nat) _
           caller_store).
  by vm_compute.
Defined.

Lemma prepare_mask_image_keeps_buffers_witness :
  (forall l data, caller_store !! l = Some data ->
     ({[ 6%positive := [0; 1]%Q ]} ∪ caller_store : gmap loc (list Q)) !! l = Some data)
  /\ caller_store !! 6%positive = None.
Proof.
  destruct (prepare_mask_image_keeps_buffers (PILImage gray_mask) caller_store
              ({[ 6%positive := [0; 1]%Q ]} ∪ caller_store)
              (Ok (TensorView 6%positive [1; 1; 1; 2]%nat)))
    as (Hkeep & Hnew & _).
  - intros t. discriminate.
  - by vm_compute.
  - split; [exact Hkeep | exact Hnew].
Defined.

End PrepareMaskMore.

(** ** DREAM rectification, continued *)
Module DreamMore.
Import Dream DreamFacts NdFacts Inputs.
Local Open Scope R_scope.

Section Unet.
Variable hidden_states : Type.
Variable unet : Nd.ndarray R -> Nd.ndarray Z -> hidden_states -> outcome (Nd.ndarray R).

(** X13. The schedule is indexed before anything else: a timestep outside the
    schedule raises the error of the indexing (IndexError, as for a tensor
    on the CPU) whatever the prediction type is, also for "v_prediction" and
    for unknown types, and whatever the network would return. *)
Theorem dream_timestep_out_of_range (noise_scheduler : scheduler)
    (timesteps : Nd.ndarray Z) (noise noisy_latents target : Nd.ndarray R)
    (ehs : hidden_states) (p : R) (b n : nat) :
  Nd.shape timesteps = [b] -> (n < b)%nat ->
  Nd.norm_index (length (alphas_cumprod noise_scheduler)) (Nd.get timesteps [n]) = None ->
  compute_dream_and_update_latents_for_inpaint hidden_states unet
    noise_scheduler timesteps noise noisy_latents target ehs p = Raise IndexError.
Proof.
  intros Hs Hn Hout. unfold compute_dream_and_update_latents_for_inpaint, Nd.gather3.
  match goal with |- context [forallb ?f ?l] => destruct (forallb f l) eqn:E end;
    [|done].
  exfalso. rewrite forallb_forall in E. specialize (E [n]).
  rewrite Hout in E. rewrite bool_decide_eq_true in E.
  destruct E as [x Hx]; [|done].
  rewrite Hs. apply list_elem_of_In. simpl. apply list_elem_of_bind.
  exists n. split; [by apply list_elem_of_singleton|]. apply elem_of_seq. lia.
Qed.

(** X14. When the network predicts the noise exactly the correction vanishes:
    for every detail-preservation exponent the returned noisy latents and
    target hold the values of the inputs. *)
Theorem dream_exact_prediction (noise_scheduler : scheduler) (timesteps : Nd.ndarray Z)
    (noise noisy_latents target pred : Nd.ndarray R) (ehs : hidden_states) (p : R)
    (b c h w : nat) :
  prediction_type noise_scheduler = "epsilon"%string ->
  timesteps_in_range noise_scheduler timesteps b ->
  unet noisy_latents timesteps ehs = Ok pred ->
  Nd.shape noisy_latents = [b; c; h; w] -> (4 <= c)%nat ->
  Nd.shape noise = [b; 4; h; w]%nat ->
  Nd.shape pred = [b; 4; h; w]%nat ->
  Nd.shape target = [b; 4; h; w]%nat ->
  (forall n ch i j, (n < b)%nat -> (ch < 4)%nat -> (i < h)%nat -> (j < w)%nat ->
     Nd.get pred [n; ch; i; j] = Nd.get noise [n; ch; i; j]) ->
  exists nl tg,
    compute_dream_and_update_latents_for_inpaint hidden_states unet
      noise_scheduler timesteps noise noisy_latents target ehs p = Ok (nl, tg)
    /\ Nd.shape nl = Nd.shape noisy_latents
    /\ Nd.shape tg = Nd.shape target
    /\ (forall n ch i j, (n < b)%nat -> (ch < c)%nat -> (i < h)%nat -> (j < w)%nat ->
          Nd.get nl [n; ch; i; j] = Nd.get noisy_latents [n; ch; i; j])
    /\ (forall n ch i j, (n < b)%nat -> (ch < 4)%nat -> (i < h)%nat -> (j < w)%nat ->
          Nd.get tg [n; ch; i; j] = Nd.get target [n; ch; i; j]).
Proof.
  intros Hpt Hts Hunet Hnoisy Hc Hnoise Hpred Htarget Hexact.
  destruct (dream_epsilon hidden_states unet noise_scheduler timesteps noise
              noisy_latents target pred ehs p b c h w)
    as (nl & tg & E & Hnl & Htg & Hg); try done.
  exists nl, tg. rewrite Hnoisy, Htarget. do 3 (split; [done|]). split.
  - intros n ch i j Hn Hch Hi Hj. destruct (Hg n ch i j) as [-> _]; [done..|].
    destruct (Nat.ltb_spec ch 4); [|done]. rewrite Hexact by done. ring.
  - intros n ch i j Hn Hch Hi Hj. destruct (Hg n ch i j) as [_ Ht]; [lia..|].
    rewrite Ht, Hexact by done. ring.
Qed.
End Unet.

Lemma dream_timestep_out_of_range_witness :
  compute_dream_and_update_latents_for_inpaint unit sample_unet
    (sample_scheduler "v_prediction") late_timesteps sample_noise sample_latents
    sample_target tt 1 = Raise IndexError.
Proof.
  apply (dream_timestep_out_of_range unit sample_unet (sample_scheduler "v_prediction")
           late_timesteps sample_noise sample_latents sample_target tt 1 1 0);
    first [reflexivity | lia].
Defined.

Lemma dream_exact_prediction_witness :
  exists nl tg,
    compute_dream_and_update_latents_for_inpaint unit exact_unet
      (sample_scheduler "epsilon") sample_timesteps sample_noise sample_latents
      sample_target tt 2 = Ok (nl, tg)
    /\ Nd.shape nl = [1; 5; 1; 1]%nat
    /\ Nd.shape tg = [1; 4; 1; 1]%nat
    /\ Nd.get nl [0; 0; 0; 0]%nat = Nd.get sample_latents [0; 0; 0; 0]%nat
    /\ Nd.get tg [0; 0; 0; 0]%nat = Nd.get sample_target [0; 0; 0; 0]%nat.
Proof.
  destruct (dream_exact_prediction unit exact_unet (sample_scheduler "epsilon")
              sample_timesteps sample_noise sample_latents sample_target sample_noise
              tt 2 1 5 1 1)
    as (nl & tg & E & Hnl & Htg & Hn & Ht);
    try first [reflexivity | apply sample_timesteps_in_range | lia].
  exists nl, tg. split; [exact E|]. split; [exact Hnl|]. split; [exact Htg|].
  split; [apply Hn | apply Ht]; lia.
Defined.

End DreamMore.

Module InpaintingFacts.
Import Nd Inpainting Inputs.

Lemma cat_channels {A} (a x : ndarray A) (b c1 c2 h w : nat) :
  shape a = [b; c1; h; w] -> shape x = [b; c2; h; w] ->
  exists out, cat 1 a x = Ok out
    /\ shape out = [b; (c1 + c2)%nat; h; w]
    /\ forall n ch i j,
         get out [n; ch; i; j]
         = if (ch <? c1)%nat then get a [n; ch; i; j]
           else get x [n; (ch - c1)%nat; i; j].
Proof.
  intros Ha Hx. unfold cat. rewrite Ha, Hx. cbn. rewrite decide_True by done.
  eexists. by split.
Qed.

Lemma cat_width {A} (a x : ndarray A) (b c h w1 w2 : nat) :
  shape a = [b; c; h; w1] -> shape x = [b; c; h; w2] ->
  exists out, cat 3 a x = Ok out
    /\ shape out = [b; c; h; (w1 + w2)%nat]
    /\ forall n ch i j,
         get out [n; ch; i; j]
         = if (j <? w1)%nat then get a [n; ch; i; j]
           else get x [n; ch; i; (j - w1)%nat].
Proof.
  intros Ha Hx. unfold cat. rewrite Ha, Hx. cbn. rewrite decide_True by done.
  eexists. by split.
Qed.

(** X15. With condition noise enabled the three tensors are stacked along the
    channel axis: first the channels of the noisy latents, then those of the
    mask, then those of the condition. *)
Theorem prepare_inpainting_input_channels {A} (noisy mask cond : ndarray A)
    (dim : Z) (b cn cm cc h w : nat) :
  shape noisy = [b; cn; h; w] -> shape mask = [b; cm; h; w] ->
  shape cond = [b; cc; h; w] ->
  exists out, prepare_inpainting_input noisy mask cond true dim = Ok out
    /\ shape out = [b; (cn + cm + cc)%nat; h; w]
    /\ forall n ch i j,
         get out [n; ch; i; j]
         = if (ch <? cn)%nat then get noisy [n; ch; i; j]
           else if (ch <? cn + cm)%nat then get mask [n; (ch - cn)%nat; i; j]
           else get cond [n; (ch - cn - cm)%nat; i; j].
Proof.
  intros Hn Hm Hc. unfold prepare_inpainting_input. cbn [negb]. 
  change (mret noisy ≫= ?k) with (k noisy). cbn beta.
  destruct (cat_channels noisy mask b cn cm h w Hn Hm) as (t & -> & Hts & Htg).
  rewrite bind_Ok.
  destruct (cat_channels t cond b (cn + cm) cc h w Hts Hc) as (out & -> & Hos & Hog).
  exists out. split; [done|]. split; [done|]. intros n ch i j.
  rewrite Hog, Htg.
  destruct (Nat.ltb_spec ch (cn + cm)), (Nat.ltb_spec ch cn); try done; try lia.
  by replace (ch - (cn + cm))%nat with (ch - cn - cm)%nat by lia.
Qed.

(** X16. With condition noise disabled (and the default axis [-1]) the noisy
    latents are first widened by the last chunk of the condition: for noisy
    latents that are as wide as the first chunk, [ceil(wc / 2)] columns, the
    first block of channels shows the noisy latents in these columns and the
    condition itself in the remaining columns; the mask and the whole
    condition follow along the channel axis. *)
Theorem prepare_inpainting_input_spatial {A} (noisy mask cond : ndarray A)
    (b c cm h wn wc : nat) :
  shape noisy = [b; c; h; wn] -> shape mask = [b; cm; h; wc] ->
  shape cond = [b; c; h; wc] ->
  (2 <= wc)%nat -> wn = ((wc + 1) / 2)%nat ->
  exists out, prepare_inpainting_input noisy mask cond false (-1) = Ok out
    /\ shape out = [b; (c + cm + c)%nat; h; wc]
    /\ forall n ch i j, (j < wc)%nat ->
         get out [n; ch; i; j]
         = if (ch <? c)%nat
           then (if (j <? wn)%nat then get noisy [n; ch; i; j]
                 else get cond [n; ch; i; j])
           else if (ch <? c + cm)%nat then get mask [n; (ch - c)%nat; i; j]
           else get cond [n; (ch - c - cm)%nat; i; j].
Proof.
  intros Hn Hm Hc Hwc Hwn. unfold prepare_inpainting_input. cbn [negb].
  unfold ndim. rewrite Hc, Hn. cbn [length wrap_dim norm_index].
  change (wrap_dim 4 (-1)) with (Ok 3%nat : outcome nat). rewrite !bind_Ok.
  unfold last_chunk_of_two. rewrite Hc. cbn [lookup list_lookup].
  destruct (Nat.leb_spec wc 1) as [|_]; [lia|]. rewrite bind_Ok.
  set (half := Array _ _). rewrite bind_Ok.
  assert (Nd.shape half = [b; c; h; (wc - (wc + 1) / 2)%nat]) as Hhs by done.
  destruct (cat_width noisy half b c h wn _ Hn Hhs) as (wide & -> & Hws & Hwg).
  rewrite bind_Ok.
  assert (wn + (wc - (wc + 1) / 2) = wc)%nat as Ew.
  { pose proof (Nat.div_mod_eq (wc + 1) 2). pose proof (Nat.mod_upper_bound (wc + 1) 2).
    lia. }
  rewrite Ew in Hws.
  destruct (cat_channels wide mask b c cm h wc Hws Hm) as (t & -> & Hts & Htg).
  rewrite bind_Ok.
  destruct (cat_channels t cond b (c + cm) c h wc Hts Hc) as (out & -> & Hos & Hog).
  exists out. split; [done|]. split; [done|]. intros n ch i j Hj.
  rewrite Hog, Htg, Hwg.
  destruct (Nat.ltb_spec ch (c + cm)), (Nat.ltb_spec ch c); try done; try lia.
  - destruct (Nat.ltb_spec j wn); [done|]. unfold half. cbn [get alter list_alter].
    by replace (j - wn + (wc + 1) / 2)%nat with j by lia.
  - by replace (ch - (c + cm))%nat with (ch - c - cm)%nat by lia.
Qed.

Lemma prepare_inpainting_input_channels_witness :
  exists out, prepare_inpainting_input noisy_pair mask_pair condition_pair true (-1) = Ok out
    /\ shape out = [1; 4; 1; 2]%nat
    /\ get out [0; 3; 0; 1]%nat = 11.
Proof.
  destruct (prepare_inpainting_input_channels noisy_pair mask_pair condition_pair (-1)
              1 1 1 2 1 2 eq_refl eq_refl eq_refl)
    as (out & E & Hs & Hg).
  exists out. split; [exact E|]. split; [exact Hs|]. by rewrite Hg.
Defined.

Lemma prepare_inpainting_input_spatial_witness :
  exists out, prepare_inpainting_input noisy_pair mask_triple condition_triple false (-1)
              = Ok out
    /\ shape out = [1; 3; 1; 3]%nat
    /\ get out [0; 0; 0; 1]%nat = 1 /\ get out [0; 0; 0; 2]%nat = 12.
Proof.
  destruct (prepare_inpainting_input_spatial noisy_pair mask_triple condition_triple
              1 1 1 1 2 3 eq_refl eq_refl eq_refl)
    as (out & E & Hs & Hg); [lia | reflexivity |].
  exists out. split; [exact E|]. split; [exact Hs|].
  split; rewrite Hg by lia; reflexivity.
Defined.

End InpaintingFacts.

Module GridFacts.
Import PIL Grid.

Lemma succ_wraps (i cols : Z) :
  0 <= i -> 0 < cols -> (i + 1) mod cols = 0 ->
  (i + 1) / cols = i / cols + 1 /\ i mod cols = cols - 1.
Proof.
  intros Hi Hc Hm.
  pose proof (Z.div_mod i cols ltac:(lia)). pose proof (Z.mod_pos_bound i cols Hc).
  pose proof (Z.div_mod (i + 1) cols ltac:(lia)). rewrite Hm in *.
  assert (i mod cols = cols - 1) as Hlast.
  { destruct (Z.eq_dec (i mod cols) (cols - 1)) as [|Hne]; [done|].
    assert ((i + 1) mod cols = i mod cols + 1) as E.
    { symmetry. apply (Z.mod_unique_pos _ _ (i / cols)); lia. }
    lia. }
  split; [|done]. symmetry. apply (Z.div_unique_pos _ _ _ 0); lia.
Qed.

Lemma succ_same_row (i cols : Z) :
  0 <= i -> 0 < cols -> (i + 1) mod cols <> 0 ->
  (i + 1) / cols = i / cols /\ (i + 1) mod cols = i mod cols + 1.
Proof.
  intros Hi Hc Hm.
  pose proof (Z.div_mod i cols ltac:(lia)). pose proof (Z.mod_pos_bound i cols Hc).
  assert (i mod cols <> cols - 1) as Hne.
  { intros E. apply Hm. apply Z.mod_divide; [lia|]. exists (i / cols + 1). lia. }
  split.
  - symmetry. apply (Z.div_unique_pos _ _ _ (i mod cols + 1)); lia.
  - symmetry. apply (Z.mod_unique_pos _ _ (i / cols)); lia.
Qed.

(** Two cells of a grid do not overlap. *)
Lemma cells_disjoint (cols divider w h j1 j2 x y : Z) :
  0 < cols -> 0 <= divider -> 0 <= w -> 0 <= h -> 0 <= j1 -> 0 <= j2 -> j1 <> j2 ->
  in_cell cols divider w h j1 x y -> in_cell cols divider w h j2 x y -> False.
Proof.
  unfold in_cell, cell_x, cell_y. intros Hc Hd Hw Hh H1 H2 Hne [Hx1 Hy1] [Hx2 Hy2].
  pose proof (Z.div_mod j1 cols ltac:(lia)). pose proof (Z.div_mod j2 cols ltac:(lia)).
  pose proof (Z.mod_pos_bound j1 cols Hc). pose proof (Z.mod_pos_bound j2 cols Hc).
  assert (0 <= j1 / cols) by (apply Z.div_pos; lia).
  assert (0 <= j2 / cols) by (apply Z.div_pos; lia).
  destruct (Z.lt_trichotomy (j1 mod cols) (j2 mod cols)) as [Hlt|[Heq|Hgt]]; [nia| |nia].
  destruct (Z.lt_trichotomy (j1 / cols) (j2 / cols)) as [Hlt|[Heq'|Hgt]]; [nia| |nia].
  lia.
Qed.

Lemma ceil_div_pos (a b : Z) : 0 < b -> ceil_div a b = Ok ((a + b - 1) / b).
Proof.
  intros Hb. unfold ceil_div. rewrite true_div_pos, bind_Ok by lia.
  cbn [mret outcome_ret]. f_equal. destruct b as [|b|b]; try lia.
  unfold Qceiling, Qfloor, Qdiv, Qinv, Qmult, Qopp, inject_Z. cbn [Qnum Qden].
  rewrite Z.mul_1_r, Pos.mul_1_l.
  pose proof (Z.div_mod (a + Z.pos b - 1) (Z.pos b) ltac:(lia)).
  pose proof (Z.mod_pos_bound (a + Z.pos b - 1) (Z.pos b) ltac:(lia)).
  assert (- a / Z.pos b = - ((a + Z.pos b - 1) / Z.pos b)) as ->; [|lia].
  symmetry.
  apply (Z.div_unique _ _ _ (Z.pos b - 1 - (a + Z.pos b - 1) mod Z.pos b)); lia.
Qed.

Lemma py_max_same (x : Z) (l : list Z) :
  l <> [] -> Forall (fun y => y = x) l -> py_max l = Ok x.
Proof.
  intros Hne Hall. destruct l as [|y l]; [done|].
  apply Forall_cons in Hall as [-> Hall]. cbn [py_max]. f_equal. clear Hne.
  induction Hall as [|z l -> _ IH]; [done|]. cbn [foldl]. by rewrite Z.max_id.
Qed.

Lemma sizes_same (w h : Z) (images : list image) :
  all_of_size w h images ->
  Forall (fun y => y = w) (width <$> images)
  /\ Forall (fun y => y = h) (height <$> images).
Proof.
  intros H. split; apply Forall_fmap; eapply Forall_impl; try exact H;
    by intros im [??].
Qed.

Section Grid.
Variables cols divider w h : Z.
Hypothesis Hcols : 0 < cols.
Hypothesis Hdivider : 0 <= divider.
Hypothesis Hw : 0 <= w.
Hypothesis Hh : 0 <= h.

Local Abbreviation cx := (cell_x cols divider w).
Local Abbreviation cy := (cell_y cols divider h).
Local Abbreviation covers := (in_cell cols divider w h).

(** The loop, started at image number [i] with the offsets of its cell:
    every image ends up in its cell and the rest of the canvas is kept. *)
Lemma paste_all_grid (images : list image) :
  forall (i : Z) (canvas : image),
    0 <= i -> all_of_size w h images ->
    exists out xo yo,
      paste_all divider cols (canvas, cx i, cy i) i images = (out, xo, yo)
      /\ mode out = mode canvas /\ width out = width canvas
      /\ height out = height canvas
      /\ (forall (k : nat) img, images !! k = Some img ->
           forall x y, 0 <= x < w -> 0 <= y < h ->
             getpixel out (cx (i + Z.of_nat k) + x) (cy (i + Z.of_nat k) + y)
             = getpixel (convert (mode canvas) img) x y)
      /\ (forall x y,
            (forall k : nat, (k < length images)%nat -> ~ covers (i + Z.of_nat k) x y) ->
            getpixel out x y = getpixel canvas x y).
Proof using Hcols Hdivider Hw Hh.
  induction images as [|img images IH]; intros i canvas Hi Hsize.
  { exists canvas, (cx i), (cy i). repeat split; try done. }
  apply Forall_cons in Hsize as [[Ewi Ehi] Hsize].
  set (canvas' := paste canvas img (cx i, cy i)).
  assert (paste_step divider cols (canvas, cx i, cy i) i img
          = (canvas', cx (i + 1), cy (i + 1))) as Estep.
  { unfold paste_step. fold canvas'. rewrite Ewi, Ehi. unfold cell_x, cell_y.
    destruct (Z.eqb_spec ((i + 1) mod cols) 0) as [Hm|Hm].
    - destruct (succ_wraps i cols Hi Hcols Hm) as [-> _]. rewrite Hm.
      do 2 f_equal; lia.
    - destruct (succ_same_row i cols Hi Hcols Hm) as [-> ->].
      do 2 f_equal; lia. }
  destruct (IH (i + 1) canvas' ltac:(lia) Hsize)
    as (out & xo & yo & E & Hm & Hwd & Hht & Hcells & Hrest).
  exists out, xo, yo. cbn [paste_all]. rewrite Estep.
  split; [done|]. do 3 (split; [done|]). split.
  - intros [|k] img' Hk x y Hx Hy.
    + injection Hk as <-. rewrite Z.add_0_r. rewrite Hrest.
      * unfold canvas', paste. cbn [getpixel]. rewrite Ewi, Ehi.
        replace (cx i + x - cx i) with x by lia.
        replace (cy i + y - cy i) with y by lia.
        destruct (Z.leb_spec (cx i) (cx i + x)); [|lia].
        destruct (Z.ltb_spec (cx i + x) (cx i + w)); [|lia].
        destruct (Z.leb_spec (cy i) (cy i + y)); [|lia].
        by destruct (Z.ltb_spec (cy i + y) (cy i + h)); [|lia].
      * intros k Hk Hcov.
        apply (cells_disjoint cols divider w h i (i + 1 + Z.of_nat k)
                 (cx i + x) (cy i + y)); try done; try lia.
        unfold in_cell. lia.
    + replace (i + Z.of_nat (S k)) with (i + 1 + Z.of_nat k) by lia.
      by apply Hcells.
  - intros x y Hout. rewrite Hrest.
    + unfold canvas', paste. cbn [getpixel]. rewrite Ewi, Ehi.
      specialize (Hout 0%nat ltac:(simpl; lia)). rewrite Z.add_0_r in Hout.
      unfold in_cell in Hout.
      destruct (Z.leb_spec (cx i) x); [|done].
      destruct (Z.ltb_spec x (cx i + w)); [|done].
      destruct (Z.leb_spec (cy i) y); [|done].
      destruct (Z.ltb_spec y (cy i + h)); [|done]. lia.
    + intros k Hk. replace (i + 1 + Z.of_nat k) with (i + Z.of_nat (S k)) by lia.
      apply Hout. simpl. lia.
Qed.

(** The function on a non-empty list of [w x h] images, in terms of the
    number of rows and of full rows. *)
Lemma concat_images_same_size (images : list image) :
  images <> [] -> all_of_size w h images ->
  let n := Z.of_nat (length images) in
  concat_images images divider cols
  = (concat_image ← new RGB (cols * w + divider * (cols - 1),
                             h * ((n + cols - 1) / cols) + divider * (n / cols - 1))
                           black;
     let '(concat_image, _, _) := paste_all divider cols (concat_image, 0, 0) 0 images in
     mret concat_image).
Proof using Hcols.
  intros Hne Hsize. destruct (sizes_same w h images Hsize) as [Hws Hhs].
  assert (forall f : image -> Z, f <$> images <> []) as Hfne
    by (intros f ?%fmap_nil_inv; done).
  unfold concat_images.
  rewrite (py_max_same w _ (Hfne _) Hws), bind_Ok.
  rewrite ceil_div_pos, bind_Ok by done.
  rewrite (py_max_same h _ (Hfne _) Hhs), bind_Ok.
  rewrite floor_div_pos, bind_Ok by lia. by rewrite length_fmap.
Qed.
End Grid.

(** X17. A full grid.  For [rows * cols] images of one size [w x h] (at least
    one row) and a divider that is not negative, [concat_images] returns an
    RGB canvas of width [cols * w + divider * (cols - 1)] and height
    [rows * h + divider * (rows - 1)]; image number [k] fills the cell in
    column [k mod cols] and row [k / cols], each cell lies inside the canvas,
    and every point outside of all cells is black. *)
Theorem concat_images_full_grid (images : list image) (divider cols rows w h : Z) :
  0 < cols -> 0 < rows -> 0 <= divider -> 0 <= w -> 0 <= h ->
  Z.of_nat (length images) = rows * cols ->
  all_of_size w h images ->
  exists out, concat_images images divider cols = Ok out
    /\ mode out = RGB
    /\ width out = cols * w + divider * (cols - 1)
    /\ height out = rows * h + divider * (rows - 1)
    /\ (forall (k : nat) img, images !! k = Some img ->
         let left := cell_x cols divider w (Z.of_nat k) in
         let top := cell_y cols divider h (Z.of_nat k) in
         0 <= left /\ left + w <= width out /\ 0 <= top /\ top + h <= height out
         /\ forall x y, 0 <= x < w -> 0 <= y < h ->
              getpixel out (left + x) (top + y) = getpixel (convert RGB img) x y)
    /\ (forall x y,
          (forall k : nat, (k < length images)%nat ->
             ~ in_cell cols divider w h (Z.of_nat k) x y) ->
          getpixel out x y = black).
Proof.
  intros Hcols Hrows Hdiv Hw Hh Hn Hsize.
  assert (images <> []) as Hne by (intros ->; simpl in Hn; nia).
  rewrite (concat_images_same_size cols divider w h Hcols images Hne Hsize).
  cbn zeta. rewrite Hn.
  replace ((rows * cols + cols - 1) / cols) with rows.
  2:{ apply (Z.div_unique_pos _ _ _ (cols - 1)); lia. }
  rewrite Z.div_mul by lia. unfold new.
  destruct (Z.ltb_spec (cols * w + divider * (cols - 1)) 0) as [|_]; [nia|].
  destruct (Z.ltb_spec (h * rows + divider * (rows - 1)) 0) as [|_]; [nia|].
  cbn [orb]. rewrite bind_Ok.
  set (canvas := Image RGB _ _ _).
  destruct (paste_all_grid cols divider w h Hcols Hdiv Hw Hh images 0 canvas
              ltac:(lia) Hsize)
    as (out & xo & yo & E & Hm & Hwd & Hht & Hcells & Hrest).
  change (cell_x cols divider w 0) with 0 in E.
  change (cell_y cols divider h 0) with 0 in E.
  rewrite E. exists out. split; [done|]. split; [done|]. split; [done|].
  split; [rewrite Hht; simpl; lia|]. split.
  - intros k img Hk. cbn zeta.
    assert (Z.of_nat k < rows * cols) as Hlt.
    { apply lookup_lt_Some in Hk. lia. }
    pose proof (Z.div_mod (Z.of_nat k) cols ltac:(lia)).
    pose proof (Z.mod_pos_bound (Z.of_nat k) cols Hcols).
    assert (0 <= Z.of_nat k / cols) by (apply Z.div_pos; lia).
    assert (Z.of_nat k / cols < rows) by (apply Z.div_lt_upper_bound; lia).
    rewrite Hwd, Hht. unfold cell_x, cell_y. cbn [width height canvas].
    split; [nia|]. split; [nia|]. split; [nia|]. split; [nia|].
    intros x y Hx Hy. by apply (Hcells k img Hk x y).
  - intros x y Hout. by rewrite Hrest.
Qed.

(** X18. A last row that is not full.  For [q * cols + r] images of one size
    with [0 < r < cols], the height of the canvas counts one divider too few:
    it is [(q + 1) * h + (q - 1) * divider], which is [divider] less than the
    lower edge of the last row of images, so these lose their lowest
    [divider] pixel rows; when that height is negative (a single short row
    of images lower than the divider) the canvas cannot be made and
    ValueError is raised. *)
Theorem concat_images_partial_row (images : list image) (divider cols q r w h : Z) :
  0 < cols -> 0 <= divider -> 0 <= w -> 0 <= h -> 0 <= q -> 0 < r < cols ->
  Z.of_nat (length images) = q * cols + r ->
  all_of_size w h images ->
  let total_height := (q + 1) * h + (q - 1) * divider in
  let last := Z.of_nat (length images) - 1 in
  (0 <= total_height ->
   exists out, concat_images images divider cols = Ok out
     /\ width out = cols * w + divider * (cols - 1)
     /\ height out = total_height
     /\ cell_y cols divider h last + h = height out + divider)
  /\ (total_height < 0 ->
      exists msg, concat_images images divider cols = Raise (ValueError msg)).
Proof.
  intros Hcols Hdiv Hw Hh Hq Hr Hn Hsize.
  assert (images <> []) as Hne by (intros ->; simpl in Hn; nia).
  rewrite (concat_images_same_size cols divider w h Hcols images Hne Hsize).
  cbn zeta. rewrite Hn.
  replace ((q * cols + r + cols - 1) / cols) with (q + 1)
    by (apply (Z.div_unique_pos _ _ _ (r - 1)); lia).
  replace ((q * cols + r) / cols) with q
    by (apply (Z.div_unique_pos _ _ _ r); lia).
  replace (h * (q + 1) + divider * (q - 1)) with ((q + 1) * h + (q - 1) * divider) by lia.
  unfold new.
  destruct (Z.ltb_spec (cols * w + divider * (cols - 1)) 0) as [|_]; [nia|].
  cbn [orb]. split; intros Htotal.
  - destruct (Z.ltb_spec ((q + 1) * h + (q - 1) * divider) 0) as [|_]; [lia|].
    rewrite bind_Ok.
    set (canvas := Image RGB _ _ _).
    destruct (paste_all_grid cols divider w h Hcols Hdiv Hw Hh images 0 canvas
                ltac:(lia) Hsize)
      as (out & xo & yo & E & Hm & Hwd & Hht & _).
    change (cell_x cols divider w 0) with 0 in E.
    change (cell_y cols divider h 0) with 0 in E.
    rewrite E. exists out. split; [done|]. split; [done|]. split; [done|].
    rewrite Hht. unfold cell_y. cbn [height canvas].
    replace ((q * cols + r - 1) / cols) with q
      by (apply (Z.div_unique_pos _ _ _ (r - 1)); lia).
    lia.
  - destruct (Z.ltb_spec ((q + 1) * h + (q - 1) * divider) 0) as [_|]; [|lia].
    eexists. reflexivity.
Qed.

(** X19. What [concat_images] raises: ValueError on an empty list of images
    (whatever the other arguments), ZeroDivisionError for zero columns. *)
Theorem concat_images_errors :
  (forall divider cols, exists msg,
      concat_images [] divider cols = Raise (ValueError msg))
  /\ (forall images divider,
        images <> [] -> concat_images images divider 0 = Raise ZeroDivisionError).
Proof.
  split; [by eexists|].
  intros [|im images] divider Hne; [done|]. reflexivity.
Qed.

Lemma concat_images_full_grid_witness :
  exists out,
    concat_images [Geometry.sample_image; Geometry.sample_image] 1 2 = Ok out
    /\ mode out = RGB /\ width out = 9 /\ height out = 2
    /\ getpixel out 5 1 = (0, 1, 7) /\ getpixel out 4 1 = black.
Proof.
  destruct (concat_images_full_grid [Geometry.sample_image; Geometry.sample_image]
              1 2 1 4 2)
    as (out & E & Hm & Hw & Hh & Hcells & Hrest);
    [lia | lia | lia | lia | lia | reflexivity | by repeat constructor |].
  exists out. split; [exact E|]. split; [exact Hm|]. split; [exact Hw|].
  split; [exact Hh|]. split.
  - destruct (Hcells 1%nat Geometry.sample_image eq_refl) as (_ & _ & _ & _ & Hpx).
    apply (Hpx 0 1); lia.
  - apply Hrest. intros k Hk [Hx _]. unfold cell_x in Hx.
    destruct k as [|[|k]]; simpl in *; lia.
Defined.

Lemma concat_images_partial_row_witness :
  exists out, concat_images [Geometry.sample_image] 1 2 = Ok out
    /\ width out = 9 /\ height out = 1.
Proof.
  destruct (concat_images_partial_row [Geometry.sample_image] 1 2 0 1 4 2)
    as [Hok _];
    [lia | lia | lia | lia | lia | lia | reflexivity | by repeat constructor |].
  destruct Hok as (out & E & Hw & Hh & _); [lia|].
  exists out. split; [exact E|]. split; [exact Hw | exact Hh].
Defined.

Lemma concat_images_errors_witness :
  concat_images [Geometry.sample_image] 4 0 = Raise ZeroDivisionError.
Proof. apply (proj2 concat_images_errors). discriminate. Defined.

End GridFacts.

Module ConversionFacts.
Import PIL Nd Conversion NdFacts Inputs.

Lemma round_half_even_integer (x : Q) (z : Z) :
  (x == inject_Z z)%Q -> round_half_even x = z.
Proof.
  intros E. unfold round_half_even.
  assert (Ef : Qfloor x = z) by (by rewrite E, Qfloor_Z).
  rewrite Ef.
  assert (Ed : Qltb (x - inject_Z z) (1 # 2) = true).
  { unfold Qltb. apply negb_true_iff. apply not_true_iff_false.
    rewrite Qle_bool_iff. rewrite E. intros H.
    Lqa.lra. }
  by rewrite Ed.
Qed.

Lemma scaled_back (v : Z) : (inject_Z v / 255 * 255 == inject_Z v)%Q.
Proof. field. Qed.

Lemma init_weight_dtype_cases (s : string) :
  init_weight_dtype s =
    if decide ("no"%string = s) then Ok float32
    else if decide ("fp16"%string = s) then Ok float16
    else if decide ("bf16"%string = s) then Ok bfloat16
    else Raise (KeyError s).
Proof. done. Qed.

(** X20. The weight dtype is found for exactly the three precision names, which
    name three different dtypes; any other name is a [KeyError] carrying the
    name. *)
Theorem init_weight_dtype_names (s : string) :
  ((exists d, init_weight_dtype s = Ok d) <-> s ∈ ["no"; "fp16"; "bf16"]%string)
  /\ (s ∉ ["no"; "fp16"; "bf16"]%string -> init_weight_dtype s = Raise (KeyError s))
  /\ (forall s' d, init_weight_dtype s = Ok d -> init_weight_dtype s' = Ok d -> s = s').
Proof.
  rewrite init_weight_dtype_cases.
  split; [split|split].
  - intros [d H]. repeat case_decide; subst; try discriminate; repeat constructor.
  - intros H. repeat case_decide; eauto. exfalso.
    rewrite !elem_of_cons, elem_of_nil in H.
    destruct H as [->|[->|[->|[]]]]; done.
  - intros H. repeat case_decide; subst; try done; exfalso; apply H; repeat constructor.
  - intros s' d H H'. rewrite init_weight_dtype_cases in H'.
    repeat case_decide; congruence.
Qed.

Lemma mapM_fmap_ok {A B C} (f : B -> outcome C) (g : A -> B) (r : A -> C) (l : list A) :
  (forall x, x ∈ l -> f (g x) = Ok (r x)) -> mapM f (g <$> l) = Ok (r <$> l).
Proof.
  induction l as [|x l IH]; intros H; [done|].
  assert (IH' := IH (fun y Hy => H y (list_elem_of_further y x l Hy))).
  assert (Hx := H x (list_elem_of_here x l)).
  simpl. rewrite Hx, bind_Ok.
  change (list_fmap A B g l) with (g <$> l). by rewrite IH'.
Qed.

Lemma items_length {A} (a : ndarray A) (n : nat) (s : list nat) :
  shape a = n :: s -> items a = (fun k => item k a) <$> seq 0 n.
Proof. intros E. unfold items. by rewrite E. Qed.

Lemma numpy_to_pil_batch (images : ndarray Q) (n h w : nat) :
  shape images = [n; h; w; 3%nat] ->
  numpy_to_pil images =
    Ok ((fun k => Image RGB (Z.of_nat w) (Z.of_nat h)
                    (fun x y =>
                       let v c := Repaint.astype_uint8 (inject_Z (round_half_even
                                    (get images [k; Z.to_nat y; Z.to_nat x; c] * 255))) in
                       (v 0%nat, v 1%nat, v 2%nat))) <$> seq 0 n).
Proof.
  intros Es. unfold numpy_to_pil, ndim. rewrite Es. simpl. rewrite Es. simpl.
  unfold items. simpl. rewrite Es. simpl.
  apply mapM_fmap_ok. intros k _.
  unfold fromarray. simpl. by rewrite Es.
Qed.

Lemma Qltb_lt (x y : Q) : Qltb x y = true <-> (x < y)%Q.
Proof.
  unfold Qltb. rewrite negb_true_iff, <- not_true_iff_false, Qle_bool_iff.
  split; [apply Qnot_le_lt | apply Qlt_not_le].
Qed.

Lemma Qltb_ge (x y : Q) : Qltb x y = false <-> (y <= x)%Q.
Proof.
  unfold Qltb. by rewrite negb_false_iff, Qle_bool_iff.
Qed.

Lemma Qfloor_bounds (x : Q) : (inject_Z (Qfloor x) <= x < inject_Z (Qfloor x) + 1)%Q.
Proof.
  split; [apply Qfloor_le|]. 
  assert (H := Qlt_floor x). rewrite inject_Z_plus in H. exact H.
Qed.

Lemma round_half_even_cases (x : Q) :
  let f := Qfloor x in
  (round_half_even x = f /\ (x - inject_Z f <= 1 # 2)%Q)
  \/ (round_half_even x = f + 1 /\ (1 # 2 <= x - inject_Z f)%Q).
Proof.
  intros f. unfold round_half_even. fold f.
  destruct (Qltb (x - inject_Z f) (1 # 2)) eqn:E1.
  { left. split; [done|]. apply Qltb_lt in E1. by apply Qlt_le_weak. }
  apply Qltb_ge in E1.
  destruct (Qltb (1 # 2) (x - inject_Z f)) eqn:E2; [by right|].
  apply Qltb_ge in E2.
  destruct (Z.even f); [by left | by right].
Qed.

Lemma round_half_even_mono (x y : Q) :
  (x <= y)%Q -> round_half_even x <= round_half_even y.
Proof.
  intros Hxy.
  assert (Hf := Qfloor_resp_le _ _ Hxy).
  destruct (round_half_even_cases y) as [[Ey Hy]|[Ey Hy]];
    destruct (round_half_even_cases x) as [[Ex Hx]|[Ex Hx]]; simpl in *; try lia.
  destruct (decide (Qfloor x = Qfloor y)) as [E|]; [|lia].
  assert (Ed : (x - inject_Z (Qfloor x) == 1 # 2)%Q).
  { apply Qle_antisym; [|done]. rewrite E.
    apply Qle_trans with (y - inject_Z (Qfloor y))%Q; [|done].
    Lqa.lra. }
  assert (Edy : (y - inject_Z (Qfloor y) == 1 # 2)%Q).
  { apply Qle_antisym; [done|]. rewrite <- Ed, E. Lqa.lra. }
  unfold round_half_even in Ex, Ey. rewrite E in Ex.
  rewrite <- E in Edy. rewrite E in Ed.
  assert (L1 : Qltb (x - inject_Z (Qfloor y)) (1 # 2) = false)
    by (apply Qltb_ge; rewrite Ed; apply Qle_refl).
  assert (L2 : Qltb (1 # 2) (x - inject_Z (Qfloor y)) = false)
    by (apply Qltb_ge; rewrite Ed; apply Qle_refl).
  assert (L3 : Qltb (y - inject_Z (Qfloor y)) (1 # 2) = false)
    by (apply Qltb_ge; rewrite E in Edy; rewrite Edy; apply Qle_refl).
  assert (L4 : Qltb (1 # 2) (y - inject_Z (Qfloor y)) = false)
    by (apply Qltb_ge; rewrite E in Edy; rewrite Edy; apply Qle_refl).
  rewrite L1, L2 in Ex. rewrite L3, L4 in Ey.
  destruct (Z.even (Qfloor y)); lia.
Qed.

Lemma round_half_even_range (x : Q) (n : Z) :
  (0 <= x <= inject_Z n)%Q -> 0 <= round_half_even x <= n.
Proof.
  intros [H0 Hn].
  assert (E0 : round_half_even 0 = 0) by done.
  assert (En : round_half_even (inject_Z n) = n) by (by apply round_half_even_integer).
  assert (L := round_half_even_mono _ _ H0).
  assert (U := round_half_even_mono _ _ Hn).
  lia.
Qed.

Lemma astype_uint8_floor (x : Q) :
  (0 <= x <= 255)%Q -> Repaint.astype_uint8 x = Qfloor x.
Proof.
  destruct x as [n d]. unfold Qle, Repaint.astype_uint8. simpl. intros [H0 H1].
  rewrite Z.quot_div_nonneg by lia.
  apply Z.mod_small. split.
  - apply Z.div_pos; lia.
  - apply Z.div_lt_upper_bound; lia.
Qed.

Lemma quantize_floor_mono (u v : Q) :
  (0 <= u)%Q -> (u <= v)%Q -> (v <= 1)%Q ->
  Repaint.astype_uint8 (u * 255) <= Repaint.astype_uint8 (v * 255).
Proof.
  intros H0 Huv H1.
  rewrite !astype_uint8_floor by (split; Lqa.lra).
  apply Qfloor_resp_le. Lqa.lra.
Qed.

Lemma quantize_floor_0 (v : Q) : (v == 0)%Q -> Repaint.astype_uint8 (v * 255) = 0.
Proof.
  intros E. apply (RepaintFacts.astype_uint8_integer _ 0); [|lia]. by rewrite E.
Qed.

Lemma quantize_floor_1 (v : Q) : (v == 1)%Q -> Repaint.astype_uint8 (v * 255) = 255.
Proof.
  intros E. apply (RepaintFacts.astype_uint8_integer _ 255); [|lia]. by rewrite E.
Qed.

Lemma quantize_round (v : Q) :
  (0 <= v <= 1)%Q ->
  Repaint.astype_uint8 (inject_Z (round_half_even (v * 255))) = round_half_even (v * 255).
Proof.
  intros [H0 H1].
  assert (H := round_half_even_range (v * 255) 255).
  apply RepaintFacts.astype_uint8_integer; [done|].
  assert (0 <= round_half_even (v * 255) <= 255); [|lia].
  apply H. change (inject_Z 255) with 255%Q. split; Lqa.lra.
Qed.

Lemma in_bounds_indices (s ix : list nat) : in_bounds s ix = true -> ix ∈ indices s.
Proof.
  revert ix. induction s as [|d s IH]; intros [|i ix]; simpl; try done.
  - intros _. apply list_elem_of_here.
  - intros H. apply andb_true_iff in H as [Hi H]. apply Nat.ltb_lt in Hi.
    apply list_elem_of_bind. exists i. split.
    + apply list_elem_of_fmap. exists ix. split; [done|]. by apply IH.
    + apply elem_of_seq. lia.
Qed.

Lemma transpose_channel_last {A} (a : ndarray A) (c h w : nat) :
  shape a = [c; h; w] ->
  exists out, transpose [1; 2; 0]%nat a = Ok out
    /\ shape out = [h; w; c]
    /\ forall y x ch, get out [y; x; ch] = get a [ch; y; x].
Proof.
  intros Hs. unfold transpose, ndim. rewrite Hs.
  rewrite bool_decide_eq_true_2 by (by apply (bool_decide_unpack _)).
  eexists. split; [done|]. simpl. done.
Qed.

Lemma unit_interval_elements (a : ndarray Q) :
  in_unit_interval a -> forallb in_unit_range (flatten a) = true.
Proof.
  intros H. apply forallb_forall. intros v Hv.
  apply list_elem_of_In in Hv. unfold flatten in Hv.
  apply list_elem_of_fmap in Hv as (ix & -> & Hix).
  apply indices_in_bounds in Hix. destruct (H ix Hix) as [H0 H1].
  unfold in_unit_range. apply andb_true_iff. by rewrite !Qle_bool_iff.
Qed.

Lemma numpy_to_pil_single (images : ndarray Q) (h w : nat) :
  shape images = [h; w; 3%nat] ->
  numpy_to_pil images =
    Ok [Image RGB (Z.of_nat w) (Z.of_nat h)
          (fun x y =>
             let v c := Repaint.astype_uint8 (inject_Z (round_half_even
                          (get images [Z.to_nat y; Z.to_nat x; c] * 255))) in
             (v 0%nat, v 1%nat, v 2%nat))].
Proof.
  intros Es. unfold numpy_to_pil, ndim. rewrite Es. simpl.
  unfold items. simpl. rewrite Es. simpl. unfold fromarray. simpl. by rewrite Es.
Qed.

(** X21. Round trip: an 8-bit RGB image, taken as an array and scaled to
    [0, 1], is converted back to one image with the same size and the same
    pixels. *)
Theorem numpy_to_pil_round_trip (im : image) :
  mode im = RGB -> 0 <= width im -> 0 <= height im -> Repaint.eight_bit im ->
  exists out, numpy_to_pil (scaled im) = Ok [out]
    /\ mode out = RGB /\ width out = width im /\ height out = height im
    /\ forall x y, 0 <= x < width im -> 0 <= y < height im ->
         getpixel out x y = getpixel im x y.
Proof.
  intros Hm Hw Hh H8.
  assert (Es : shape (scaled im) = [Z.to_nat (height im); Z.to_nat (width im); 3%nat]).
  { unfold scaled, to_array. by rewrite Hm. }
  rewrite (numpy_to_pil_single _ _ _ Es). eexists. split; [done|]. simpl.
  split; [done|]. split; [lia|]. split; [lia|].
  intros x y Hx Hy. unfold scaled, to_array. rewrite Hm. simpl.
  rewrite !Z2Nat.id by lia.
  rewrite !(round_half_even_integer _ _ (scaled_back _)).
  rewrite !(RepaintFacts.astype_uint8_integer _ _ (reflexivity _)) by by apply H8.
  by destruct (getpixel im x y) as [[r g] b].
Qed.

(** X22. A batch of [n] RGB arrays with values in [0, 1] gives [n] RGB images
    of the size of the arrays; a larger value never gives a darker band, 0
    gives 0 and 1 gives 255. *)
Theorem numpy_to_pil_batch_images (images : ndarray Q) (n h w : nat) :
  shape images = [n; h; w; 3%nat] -> in_unit_interval images ->
  exists out, numpy_to_pil images = Ok out /\ length out = n
    /\ (forall k o, out !! k = Some o ->
          mode o = RGB /\ width o = Z.of_nat w /\ height o = Z.of_nat h)
    /\ forall k o k' o' (x y c x' y' c' : nat),
         out !! k = Some o -> out !! k' = Some o' ->
         (x < w)%nat -> (y < h)%nat -> (c < 3)%nat ->
         (x' < w)%nat -> (y' < h)%nat -> (c' < 3)%nat ->
         let v := get images [k; y; x; c] in
         let v' := get images [k'; y'; x'; c'] in
         let p := band c (getpixel o (Z.of_nat x) (Z.of_nat y)) in
         let p' := band c' (getpixel o' (Z.of_nat x') (Z.of_nat y')) in
         ((v <= v')%Q -> p <= p') /\ ((v == 0)%Q -> p = 0) /\ ((v == 1)%Q -> p = 255).
Proof.
  intros Es Hu. rewrite (numpy_to_pil_batch _ _ _ _ Es).
  eexists. split; [done|]. split; [by rewrite length_fmap, length_seq|].
  split.
  { intros k o Hk. rewrite list_lookup_fmap in Hk.
    destruct (seq 0 n !! k) as [j|]; [|done]. by injection Hk as <-. }
  intros k o k' o' x y c x' y' c' Hk Hk' Hx Hy Hc Hx' Hy' Hc'.
  rewrite list_lookup_fmap in Hk, Hk'.
  destruct (seq 0 n !! k) as [j|] eqn:Ej; [|done].
  destruct (seq 0 n !! k') as [j'|] eqn:Ej'; [|done].
  apply lookup_seq in Ej as [-> Hj]. apply lookup_seq in Ej' as [-> Hj'].
  injection Hk as <-. injection Hk' as <-. simpl.
  rewrite !Nat2Z.id.
  assert (B : forall i b a ch, (i < n)%nat -> (b < h)%nat -> (a < w)%nat -> (ch < 3)%nat ->
              (0 <= get images [i; b; a; ch] <= 1)%Q).
  { intros i b a ch Hi Hb Ha Hch. apply Hu. rewrite Es. simpl.
    repeat (apply andb_true_iff; split); try done; by apply Nat.ltb_lt. }
  destruct c as [|[|[|c]]]; [| | |lia];
    (destruct c' as [|[|[|c']]]; [| | |lia]); cbn [band];
    rewrite !quantize_round by (by apply B);
    (split; [|split]; [intros Hv; apply round_half_even_mono; Lqa.lra
                      | intros E; apply (round_half_even_integer _ 0); by rewrite E
                      | intros E; apply (round_half_even_integer _ 255); by rewrite E]).
Qed.

Lemma flatten_nonempty {A} (a : ndarray A) (ix : list nat) :
  in_bounds (shape a) ix = true -> flatten a <> [].
Proof.
  intros H E. apply in_bounds_indices in H.
  assert (H' : get a ix ∈ flatten a) by (apply list_elem_of_fmap; eauto).
  rewrite E in H'. by apply elem_of_nil in H'.
Qed.

Lemma tensor_to_image_transposed (tensor : torch_tensor) (c h w : nat) :
  tensor_dtype tensor = float32 -> shape (values tensor) = [c; h; w] ->
  (0 < c)%nat -> (0 < h)%nat -> (0 < w)%nat -> in_unit_interval (values tensor) ->
  exists tr, tensor_to_image tensor = Passed (fromarray (map Repaint.astype_uint8 tr))
    /\ shape tr = [h; w; c]
    /\ forall y x ch, get tr [y; x; ch] = (get (values tensor) [ch; y; x] * 255)%Q.
Proof.
  intros Hd Es Hc Hh Hw Hu. unfold tensor_to_image, ndim.
  rewrite !bool_decide_eq_true_2 by (done || by rewrite Es). cbn [negb].
  assert (Hne : flatten (values tensor) <> []).
  { apply (flatten_nonempty _ [0; 0; 0]%nat). rewrite Es. simpl.
    repeat (apply andb_true_iff; split); try done; by apply Nat.ltb_lt. }
  assert (Hall := unit_interval_elements _ Hu).
  destruct (flatten (values tensor)) as [|v l] eqn:Ef; [done|].
  rewrite Hall. cbn [negb].
  destruct (transpose_channel_last (map (fun v => v * 255)%Q (values tensor)) c h w Es)
    as (tr & Et & Ets & Etg).
  rewrite Et, bind_Ok. by exists tr.
Qed.

(** X23. A float32 tensor of shape 3 x h x w with values in [0, 1] becomes an
    RGB image of width w and height h whose band c at (x, y) comes from
    element (c, y, x): a larger element never gives a darker band, 0 gives 0
    and 1 gives 255. *)
Theorem tensor_to_image_rgb (tensor : torch_tensor) (h w : nat) :
  tensor_dtype tensor = float32 -> shape (values tensor) = [3%nat; h; w] ->
  (0 < h)%nat -> (0 < w)%nat -> in_unit_interval (values tensor) ->
  exists out, tensor_to_image tensor = Passed (Ok out)
    /\ mode out = RGB /\ width out = Z.of_nat w /\ height out = Z.of_nat h
    /\ forall (x y c x' y' c' : nat),
         (x < w)%nat -> (y < h)%nat -> (c < 3)%nat ->
         (x' < w)%nat -> (y' < h)%nat -> (c' < 3)%nat ->
         let v := get (values tensor) [c; y; x] in
         let v' := get (values tensor) [c'; y'; x'] in
         let p := band c (getpixel out (Z.of_nat x) (Z.of_nat y)) in
         let p' := band c' (getpixel out (Z.of_nat x') (Z.of_nat y')) in
         ((v <= v')%Q -> p <= p') /\ ((v == 0)%Q -> p = 0) /\ ((v == 1)%Q -> p = 255).
Proof.
  intros Hd Es Hh Hw Hu.
  destruct (tensor_to_image_transposed tensor 3 h w Hd Es) as (tr & -> & Ets & Etg);
    try done; [lia|].
  unfold fromarray. simpl. rewrite Ets.
  eexists. split; [done|]. simpl. do 3 (split; [done|]).
  intros x y c x' y' c' Hx Hy Hc Hx' Hy' Hc'. rewrite !Nat2Z.id, !Etg.
  assert (B : forall ch b a, (ch < 3)%nat -> (b < h)%nat -> (a < w)%nat ->
              (0 <= get (values tensor) [ch; b; a] <= 1)%Q).
  { intros ch b a Hch Hb Ha. apply Hu. rewrite Es. simpl.
    repeat (apply andb_true_iff; split); try done; by apply Nat.ltb_lt. }
  destruct (B c y x) as [? ?]; try done.
  destruct (B c' y' x') as [? ?]; try done.
  destruct c as [|[|[|c]]]; [| | |lia];
    (destruct c' as [|[|[|c']]]; [| | |lia]); cbn [band];
    (split; [|split]; [intros Hv; by apply quantize_floor_mono
                      | by apply quantize_floor_0 | by apply quantize_floor_1]).
Qed.

(** X24. A single-channel tensor passes the assertions and is then refused
    by [Image.fromarray], whose input keeps the channel axis of size 1. *)
Theorem tensor_to_image_single_channel (tensor : torch_tensor) (h w : nat) :
  tensor_dtype tensor = float32 -> shape (values tensor) = [1%nat; h; w] ->
  (0 < h)%nat -> (0 < w)%nat -> in_unit_interval (values tensor) ->
  tensor_to_image tensor = Passed (Raise TypeError).
Proof.
  intros Hd Es Hh Hw Hu.
  destruct (tensor_to_image_transposed tensor 1 h w Hd Es) as (tr & -> & Ets & Etg);
    try done; [lia|].
  unfold fromarray. simpl. by rewrite Ets.
Qed.

(** X25. The three assertions: a tensor that is not 3-dimensional, not
    float32, or has an element outside [0, 1] fails the first assertion it
    violates. *)
Theorem tensor_to_image_assertions (tensor : torch_tensor) :
  (ndim (values tensor) <> 3%nat ->
     tensor_to_image tensor = AssertionError "Input tensor should be 3-dimensional.")
  /\ (ndim (values tensor) = 3%nat -> tensor_dtype tensor <> float32 ->
     tensor_to_image tensor = AssertionError "Input tensor should be float32.")
  /\ (ndim (values tensor) = 3%nat -> tensor_dtype tensor = float32 ->
      forall ix, in_bounds (shape (values tensor)) ix = true ->
        ~ (0 <= get (values tensor) ix <= 1)%Q ->
        tensor_to_image tensor = AssertionError "Input tensor should be in range [0, 1].").
Proof.
  unfold tensor_to_image. split; [|split].
  - intros H. by rewrite bool_decide_eq_false_2.
  - intros H H'. by rewrite bool_decide_eq_true_2, bool_decide_eq_false_2.
  - intros H H' ix Hix Hv. rewrite !bool_decide_eq_true_2 by done. cbn [negb].
    assert (Hne := flatten_nonempty _ _ Hix).
    assert (Hin : get (values tensor) ix ∈ flatten (values tensor)).
    { apply list_elem_of_fmap. exists ix. split; [done|]. by apply in_bounds_indices. }
    destruct (flatten (values tensor)) as [|v l] eqn:Ef; [done|].
    destruct (forallb in_unit_range (v :: l)) eqn:Ea; [|done].
    exfalso. apply Hv. rewrite forallb_forall in Ea.
    apply list_elem_of_In, Ea in Hin. unfold in_unit_range in Hin.
    apply andb_true_iff in Hin. by rewrite !Qle_bool_iff in Hin.
Qed.


Lemma sample_batch_unit : in_unit_interval sample_batch.
Proof.
  intros [|k [|y [|x [|c [|]]]]]; simpl; intros H;
    rewrite ?andb_true_iff, ?Nat.ltb_lt in H; destruct_and?; try done.
  unfold Qle, Qdiv, Qmult, Qinv, inject_Z. simpl. lia.
Qed.

Lemma sample_chw_unit : in_unit_interval (values sample_chw).
Proof.
  intros [|c [|y [|x [|]]]]; simpl; intros H;
    rewrite ?andb_true_iff, ?Nat.ltb_lt in H; destruct_and?; try done.
  unfold Qle, Qdiv, Qmult, Qinv, inject_Z. simpl. lia.
Qed.

Lemma sample_gray_unit : in_unit_interval (values sample_gray).
Proof. intros ix _. simpl. unfold Qle. simpl. lia. Qed.

(** The grey branch squeezes every axis of size 1: a row of two pixels
    becomes a 1-D array, which [Image.fromarray] reads as one column. *)
Example numpy_to_pil_grey_row :
  exists out, numpy_to_pil grey_row = Ok [out]
    /\ mode out = L /\ width out = 1 /\ height out = 2
    /\ band 0 (getpixel out 0 0) = 0 /\ band 0 (getpixel out 0 1) = 255.
Proof. eexists. split; [reflexivity|]. by vm_compute. Qed.

Lemma init_weight_dtype_names_witness :
  init_weight_dtype "fp32" = Raise (KeyError "fp32").
Proof.
  apply (proj1 (proj2 (init_weight_dtype_names "fp32"))).
  by apply (bool_decide_unpack _).
Defined.

Lemma numpy_to_pil_round_trip_witness :
  exists out, numpy_to_pil (scaled Repaint.sample_result) = Ok [out]
    /\ mode out = RGB /\ width out = 2 /\ height out = 1
    /\ forall x y, 0 <= x < 2 -> 0 <= y < 1 ->
         getpixel out x y = getpixel Repaint.sample_result x y.
Proof.
  apply (numpy_to_pil_round_trip Repaint.sample_result);
    first [reflexivity | simpl; lia | exact RepaintFacts.eight_bit_sample_result].
Defined.

Lemma numpy_to_pil_batch_images_witness :
  exists out, numpy_to_pil sample_batch = Ok out /\ length out = 2%nat
    /\ forall k o, out !! k = Some o ->
          mode o = RGB /\ width o = 2 /\ height o = 1.
Proof.
  destruct (numpy_to_pil_batch_images sample_batch 2 1 2 eq_refl sample_batch_unit)
    as (out & E & Hl & Hs & _).
  exists out. split; [exact E|]. split; [exact Hl | exact Hs].
Defined.

Lemma tensor_to_image_rgb_witness :
  exists out, tensor_to_image sample_chw = Passed (Ok out)
    /\ mode out = RGB /\ width out = 2 /\ height out = 1
    /\ band 0 (getpixel out 0 0) = 0 /\ band 2 (getpixel out 1 0) = 255.
Proof.
  destruct (tensor_to_image_rgb sample_chw 1 2 eq_refl eq_refl ltac:(lia) ltac:(lia)
              sample_chw_unit)
    as (out & E & Hm & Hw & Hh & Hpx).
  exists out. split; [exact E|]. split; [exact Hm|]. split; [exact Hw|].
  split; [exact Hh|]. split.
  - apply (Hpx 0 0 0 0 0 0)%nat; try lia. reflexivity.
  - apply (Hpx 1 0 2 1 0 2)%nat; try lia. reflexivity.
Defined.

Lemma tensor_to_image_single_channel_witness :
  tensor_to_image sample_gray = Passed (Raise TypeError).
Proof.
  apply (tensor_to_image_single_channel sample_gray 2 2);
    first [reflexivity | lia | exact sample_gray_unit].
Defined.

Lemma tensor_to_image_assertions_witness :
  tensor_to_image flat_tensor = AssertionError "Input tensor should be 3-dimensional.".
Proof. apply (proj1 (tensor_to_image_assertions flat_tensor)). discriminate. Defined.

End ConversionFacts.

Module ScanFacts.
Import Scan Inputs.

Section Scan.
Variable splitext_ext : string -> string.
Variable postfix : option (list string).

Lemma scan_entry_dir (path : string) (entries : list DirEntry) (bar : tqdm) :
  scan_entry splitext_ext postfix (Dir path entries) bar
  = scan_entries splitext_ext postfix entries bar.
Proof.
  simpl. revert bar. induction entries as [|e es IH]; intros bar; [done|].
  simpl. destruct (scan_entry _ _ e bar) as [found bar']. by rewrite IH.
Qed.

Lemma DirEntry_nested_ind (P : DirEntry -> Prop) :
  (forall path, P (File path)) ->
  (forall path entries, Forall P entries -> P (Dir path entries)) ->
  (forall path, P (Special path)) ->
  forall entry, P entry.
Proof.
  intros HF HD HS. fix IH 1. intros [path|path entries|path]; [apply HF| |apply HS].
  apply HD. induction entries as [|e es IHes]; constructor; [apply IH | apply IHes].
Qed.

Lemma scan_entry_spec (entry : DirEntry) (bar : tqdm) :
  let found := List.filter (fun e => selected splitext_ext postfix (path_of e))
                           (files_of entry) in
  scan_entry splitext_ext postfix entry bar
  = (found, Tqdm (total bar + Z.of_nat (length found)) (n bar + Z.of_nat (length found))).
Proof.
  revert bar. induction entry as [path|path entries IH|path] using DirEntry_nested_ind;
    intros bar.
  - simpl. destruct (selected _ _ path); simpl; [done|].
    destruct bar; simpl. f_equal. f_equal; lia.
  - rewrite scan_entry_dir. cbn [files_of]. revert bar.
    induction IH as [|e es He _ IHes]; intros bar.
    + simpl. destruct bar; simpl. f_equal. f_equal; lia.
    + cbn [scan_entries flat_map]. rewrite He, IHes.
      rewrite List.filter_app, length_app. cbn [total n]. f_equal. f_equal; lia.
  - simpl. destruct bar; simpl. f_equal. f_equal; lia.
Qed.

Lemma scan_entries_spec (entries : list DirEntry) (bar : tqdm) :
  let found := List.filter (fun e => selected splitext_ext postfix (path_of e))
                           (flat_map files_of entries) in
  scan_entries splitext_ext postfix entries bar
  = (found, Tqdm (total bar + Z.of_nat (length found)) (n bar + Z.of_nat (length found))).
Proof.
  rewrite <- (scan_entry_dir EmptyString). apply (scan_entry_spec (Dir EmptyString entries)).
Qed.

(** X26. The scan returns the regular files of the tree whose extension is in
    [postfix] (all of them without a [postfix]), each once, depth first in
    scan order; directories and special entries are never returned. *)
Theorem scan_files_in_dir_lists_files (directory : list DirEntry)
    (progress_bar : option tqdm) :
  (scan_files_in_dir splitext_ext directory postfix progress_bar).1
  = List.filter (fun e => selected splitext_ext postfix (path_of e))
                (flat_map files_of directory).
Proof. unfold scan_files_in_dir. by rewrite scan_entries_spec. Qed.

(** X27. Both counters of the progress bar grow by the number of files
    returned, through all recursive calls; a bar created by the call ends
    with both counters at that number. *)
Theorem scan_files_in_dir_progress (directory : list DirEntry)
    (progress_bar : option tqdm) :
  let '(file_list, bar) := scan_files_in_dir splitext_ext directory postfix progress_bar in
  let start := default (Tqdm 0 0) progress_bar in
  total bar = total start + Z.of_nat (length file_list)
  /\ n bar = n start + Z.of_nat (length file_list)
  /\ total bar - n bar = total start - n start.
Proof.
  unfold scan_files_in_dir. rewrite scan_entries_spec. simpl. lia.
Qed.

End Scan.

Example scan_files_in_dir_runs :
  scan_files_in_dir last_four sample_tree (Some [".jpg"%string]) (Some (Tqdm 10 7))
  = ([File "a.jpg"; File "sub/deep/c.jpg"], Tqdm 12 9).
Proof. reflexivity. Qed.

End ScanFacts.

(** ** Remote inference calls: uploads and failures before the request *)
Module FrontendMore.
Import Frontend Inputs.
Local Open Scope string_scope.

Lemma getitem_missing {V} (d : list (string * V)) (key : string) :
  key ∉ d.*1 -> getitem d key = Raise (KeyError key).
Proof.
  induction d as [|[k v] d IH]; [done|]. simpl. intros H.
  apply not_elem_of_cons in H as [Hk H].
  rewrite decide_False by done. by apply IH.
Qed.

Section Remote.
Variable config : list (string * string).
Variable Image_open : string -> outcome PIL.image.
Variable bicubic : PIL.image -> Z -> Z -> Z -> Z -> PIL.pixel.
Variable save : PIL.image -> string -> string.
Variable open_rb : string -> outcome string.
Variable json_dumps : list (string * json_value) -> string.
Variable requests_post :
  string -> list (string * (string * string * string)) -> list (string * string)
  -> outcome response.
Variable response_json : response -> outcome (list (string * string)).
Variable b64decode : string -> outcome string.
Variable Image_open_bytes : string -> outcome PIL.image.

Local Abbreviation submit :=
  (submit_function config Image_open bicubic save json_dumps requests_post
                   response_json b64decode Image_open_bytes).
Local Abbreviation pose_transfer :=
  (pose_transfer_function config open_rb json_dumps requests_post
                          response_json b64decode Image_open_bytes).
Local Abbreviation to_buffer := (resize_image_to_buffer Image_open bicubic save).

Lemma to_buffer_opened (image_path : string) (src : PIL.image) :
  Image_open image_path = Ok src ->
  exists img, PIL.resize bicubic (PIL.convert PIL.RGB src) (1024, 768) = Ok img
    /\ to_buffer image_path = Ok (save img "JPEG").
Proof.
  intros Ho. unfold resize_image_to_buffer. rewrite Ho, bind_Ok.
  destruct (PIL.resize bicubic (PIL.convert PIL.RGB src) (1024, 768)) as [img|e] eqn:Er.
  - by exists img.
  - exfalso. unfold PIL.resize in Er. by destruct (andb _ _).
Qed.

Lemma to_buffer_unreadable (image_path : string) (e : py_error) :
  Image_open image_path = Raise e -> to_buffer image_path = Raise e.
Proof. intros Ho. unfold resize_image_to_buffer. by rewrite Ho. Qed.

(** X28. Every image file that opens is uploaded as the JPEG encoding of an RGB
    image of 1024 by 768 pixels, whatever its own mode and size; an image
    that already is RGB of that size is encoded as it is.  A file that does
    not open gives the error of the open. *)
Theorem resize_image_to_buffer_fixed_size (image_path : string) :
  (forall src, Image_open image_path = Ok src ->
     exists img,
       resize_image_to_buffer Image_open bicubic save image_path = Ok (save img "JPEG")
       /\ PIL.mode img = PIL.RGB /\ PIL.width img = 1024 /\ PIL.height img = 768
       /\ (PIL.mode src = PIL.RGB -> PIL.width src = 1024 -> PIL.height src = 768 ->
           img = src))
  /\ (forall e, Image_open image_path = Raise e ->
        resize_image_to_buffer Image_open bicubic save image_path = Raise e).
Proof.
  split; [|apply to_buffer_unreadable].
  intros src Ho. destruct (to_buffer_opened _ _ Ho) as (img & Er & E).
  assert (Hm : PIL.mode (PIL.convert PIL.RGB src) = PIL.RGB)
    by (by destruct src as [[] w h px]).
  assert (Hw : PIL.width (PIL.convert PIL.RGB src) = PIL.width src)
    by (by destruct src as [[] w h px]).
  assert (Hh : PIL.height (PIL.convert PIL.RGB src) = PIL.height src)
    by (by destruct src as [[] w h px]).
  destruct (GeometryFacts.resize_ok _ _ _ _ _ Er) as (Ew & Eh & Em).
  exists img. split; [done|]. split; [congruence|].
  split; [done|]. split; [done|].
  intros Hsm Hsw Hsh. unfold PIL.resize in Er. rewrite Hw, Hh, Hsw, Hsh in Er.
  simpl in Er. injection Er as <-. by destruct src as [[] w h px].
Qed.

(** X29. The images are read before the request is made: when an image of a
    call does not open, the call raises the error of the open, whatever the
    endpoint would answer. *)
Theorem remote_call_unreadable_image :
  (forall person_image cloth_image cloth_type num_inference_steps guidance_scale seed url e,
      getitem config "style_transfer_api" = Ok url ->
      Image_open person_image = Raise e
      \/ (is_ok (Image_open person_image) = true /\ Image_open cloth_image = Raise e) ->
      submit person_image cloth_image cloth_type num_inference_steps guidance_scale seed
      = Raise e)
  /\ (forall person_image pose_image num_inference_steps guidance_scale seed url e,
      getitem config "pose_transfer_api" = Ok url ->
      open_rb person_image = Raise e
      \/ (is_ok (open_rb person_image) = true /\ open_rb pose_image = Raise e) ->
      pose_transfer person_image pose_image num_inference_steps guidance_scale seed
      = Raise e).
Proof.
  split.
  - intros person_image cloth_image cloth_type steps scale seed url e Hurl H.
    unfold submit_function. rewrite Hurl, bind_Ok.
    destruct H as [H|[Hp H]].
    + by rewrite (to_buffer_unreadable person_image e H).
    + destruct (Image_open person_image) as [src|] eqn:Es; [|done].
      destruct (to_buffer_opened person_image src Es) as (img & _ & ->).
      rewrite bind_Ok. by rewrite (to_buffer_unreadable cloth_image e H).
  - intros person_image pose_image steps scale seed url e Hurl H.
    unfold pose_transfer_function. rewrite Hurl, bind_Ok.
    destruct H as [H|[Hp H]].
    + by rewrite H.
    + destruct (open_rb person_image) as [f1|] eqn:Es; [|done].
      rewrite bind_Ok. by rewrite H.
Qed.

(** X30. Missing keys.  Without its endpoint in the configuration a call
    raises [KeyError] with the name of the missing key, whatever the images
    are and before any of them is read; a success answer that lacks the
    expected field raises [KeyError] with the name of the field. *)
Theorem remote_call_key_errors :
  (forall person_image cloth_image cloth_type num_inference_steps guidance_scale seed,
      "style_transfer_api" ∉ config.*1 ->
      submit person_image cloth_image cloth_type num_inference_steps guidance_scale seed
      = Raise (KeyError "style_transfer_api"))
  /\ (forall person_image pose_image num_inference_steps guidance_scale seed,
      "pose_transfer_api" ∉ config.*1 ->
      pose_transfer person_image pose_image num_inference_steps guidance_scale seed
      = Raise (KeyError "pose_transfer_api"))
  /\ (forall person_image cloth_image cloth_type num_inference_steps guidance_scale seed
          url person_buffer cloth_buffer r fields,
      getitem config "style_transfer_api" = Ok url ->
      to_buffer person_image = Ok person_buffer ->
      to_buffer cloth_image = Ok cloth_buffer ->
      requests_post url
        [("person_image", ("person.jpg", person_buffer, "image/jpeg"));
         ("cloth_image", ("cloth.jpg", cloth_buffer, "image/jpeg"))]
        [("config_json",
          json_dumps [("cloth_type", JString cloth_type);
                      ("num_inference_steps", JInt num_inference_steps);
                      ("guidance_scale", JFloat guidance_scale);
                      ("seed", JInt seed)])] = Ok r ->
      status_code r = 200 ->
      response_json r = Ok fields ->
      "masked_image" ∉ fields.*1 ->
      submit person_image cloth_image cloth_type num_inference_steps guidance_scale seed
      = Raise (KeyError "masked_image"))
  /\ (forall person_image pose_image num_inference_steps guidance_scale seed
            url f1 f2 r fields,
        getitem config "pose_transfer_api" = Ok url ->
        open_rb person_image = Ok f1 ->
        open_rb pose_image = Ok f2 ->
        requests_post url
          [("person_image", ("person.jpg", f1, "image/jpeg"));
           ("pose_image", ("pose.jpg", f2, "image/jpeg"))]
          [("config_json",
            json_dumps [("num_inference_steps", JInt num_inference_steps);
                        ("guidance_scale", JFloat guidance_scale);
                        ("seed", JInt seed)])] = Ok r ->
        status_code r = 200 ->
        response_json r = Ok fields ->
        "result_pose" ∉ fields.*1 ->
        pose_transfer person_image pose_image num_inference_steps guidance_scale seed
        = Raise (KeyError "result_pose")).
Proof.
  split; [|split; [|split]].
  - intros. unfold submit_function. by rewrite getitem_missing.
  - intros. unfold pose_transfer_function. by rewrite getitem_missing.
  - intros person_image cloth_image cloth_type steps scale seed url pb cb r fields
      Hurl Hpb Hcb Hpost Hs Hj Hm.
    unfold submit_function. rewrite Hurl, bind_Ok, Hpb, bind_Ok, Hcb,
      bind_Ok, Hpost, bind_Ok.
    rewrite decide_True, Hj, bind_Ok by done.
    by rewrite (getitem_missing fields "masked_image").
  - intros person_image pose_image steps scale seed url f1 f2 r fields
      Hurl Hf1 Hf2 Hpost Hs Hj Hm.
    unfold pose_transfer_function.
    rewrite Hurl, bind_Ok, Hf1, bind_Ok, Hf2, bind_Ok, Hpost, bind_Ok.
    rewrite decide_True, Hj, bind_Ok by done.
    by rewrite (getitem_missing fields "result_pose").
Qed.

End Remote.

Lemma resize_image_to_buffer_fixed_size_witness :
  exists img,
    resize_image_to_buffer open_photo Geometry.nearest save_stub "person.png"
    = Ok (save_stub img "JPEG")
    /\ PIL.mode img = PIL.RGB /\ PIL.width img = 1024 /\ PIL.height img = 768.
Proof.
  destruct (proj1 (resize_image_to_buffer_fixed_size open_photo Geometry.nearest
                     save_stub "person.png") sample_photo eq_refl)
    as (img & E & Hm & Hw & Hh & _).
  exists img. repeat split; assumption.
Defined.

Lemma remote_call_key_errors_witness :
  submit_function [("pose_transfer_api", "http://host/pose")] open_photo Geometry.nearest
    save_stub dumps_stub post_answer json_stub b64_stub open_bytes_stub
    "person.png" "cloth.png" "upper" 50 (5 # 2) 42
  = Raise (KeyError "style_transfer_api").
Proof.
  apply (proj1 (remote_call_key_errors [("pose_transfer_api", "http://host/pose")]
                  open_photo Geometry.nearest save_stub read_stub dumps_stub post_answer
                  json_stub b64_stub open_bytes_stub)).
  by apply (bool_decide_unpack _).
Defined.

Lemma remote_call_unreadable_image_witness :
  submit_function sample_config no_photo Geometry.nearest save_stub dumps_stub
    post_answer json_stub b64_stub open_bytes_stub
    "person.png" "cloth.png" "upper" 50 (5 # 2) 42
  = Raise (ValueError "cannot identify image file").
Proof.
  apply (proj1 (remote_call_unreadable_image sample_config no_photo Geometry.nearest
                  save_stub read_stub dumps_stub post_answer json_stub b64_stub
                  open_bytes_stub)
               "person.png" "cloth.png" "upper" 50 (5 # 2)%Q 42 "http://host/style").
  - reflexivity.
  - by left.
Defined.

End FrontendMore.
